(** * BearingFaultDiagnosis: the IRM, MCD and MDD training strategies

    A shallow embedding of [models/IRM.py], [models/MCD.py] and
    [models/MDD.py].

    Conventions.
    - A float (and the entries of a float tensor) is a real number: the
      arithmetic is the exact one, rounding is not modelled.  Where torch
      returns [nan] or [inf] (the mean of an empty tensor, the logarithm of a
      number that is not positive) the functions below return what the
      totalised operations of the Standard Library return; the theorems
      carry the hypotheses that keep them inside the domain where torch
      returns a finite number.
    - A 2-D tensor is the list of its rows, a label vector a list of class
      indices.
    - [train] is imperative code: it is a computation in a state and
      exception monad that also records the trace of the calls made to the
      collaborators ([torch], [utils], [train_utils], [model_base],
      [logging]).  The state holds the attributes of [self] the code uses
      and the local variables of [train] that outlive one statement.  What a
      collaborator returns is read from an oracle, about which nothing is
      assumed but that the call returns. *)

From Stdlib Require Import Reals Lra Lia Arith Bool String List.
Import ListNotations.
Open Scope R_scope.

Set Implicit Arguments.

(** ** Tensors *)

Definition tensor := list (list R).
Definition labels := list nat.

(** [t[::2]] and [t[1::2]] along the first axis. *)
Fixpoint stride2 {A : Type} (l : list A) : list A :=
  match l with
  | [] => []
  | x :: t => x :: match t with [] => [] | _ :: r => stride2 r end
  end.

Definition evens {A : Type} (l : list A) : list A := stride2 l.
Definition odds {A : Type} (l : list A) : list A := stride2 (skipn 1 l).

(** [torch.cat((a, b), dim=0)] *)
Definition cat {A : Type} (a b : list A) : list A := a ++ b.

(** [t.chunk(2, dim=0)] unpacked into two names: chunks of [ceil(n/2)]
    rows.  On fewer than two rows torch returns fewer than two chunks and
    the unpacking raises; here the second chunk is then empty. *)
Definition chunk2 {A : Type} (t : list A) : list A * list A :=
  let k := Nat.div2 (S (length t)) in (firstn k t, skipn k t).

(** ** Scalars torch computes with

    The functions of [torch.nn.functional] are used both on plain numbers and
    on nodes of the autograd graph; they are written once, over this
    interface. *)

Class Scalar (T : Type) : Type := {
  sconst : R -> T;
  sadd : T -> T -> T;
  ssub : T -> T -> T;
  smul : T -> T -> T;
  sdiv : T -> T -> T;
  sexp : T -> T;
  slog : T -> T
}.

#[export] Instance R_Scalar : Scalar R := {
  sconst := fun c => c;
  sadd := Rplus;
  ssub := Rminus;
  smul := Rmult;
  sdiv := Rdiv;
  sexp := exp;
  slog := ln
}.

Module torch.

Section Generic.
Context {T : Type} `{Scalar T}.

Definition sum (l : list T) : T := fold_right sadd (sconst 0) l.

(** [torch.mean] of a 1-D tensor. *)
Definition mean (l : list T) : T := sdiv (sum l) (sconst (INR (length l))).

(** [t * s] for a 0-dim tensor [s]. *)
Definition scale_by (t : list (list R)) (s : T) : list (list T) :=
  map (map (fun x => smul (sconst x) s)) t.
End Generic.

(** [torch.abs(a - b)] for two tensors of one shape, flattened. *)
Definition abs_diff (a b : tensor) : list R :=
  map (fun p => Rabs (fst p - snd p)) (combine (concat a) (concat b)).

(** [a + b] and [a * b] for two 1-D tensors of one length. *)
Definition add1 (a b : list R) : list R :=
  map (fun p => fst p + snd p) (combine a b).

Definition mul1 (a b : list R) : list R :=
  map (fun p => fst p * snd p) (combine a b).

(** [torch.ones_like(a)] *)
Definition ones_like (a : list R) : list R := map (fun _ => 1) a.

(** [a + b] for two tensors of one shape. *)
Definition add (a b : tensor) : tensor :=
  map (fun p => map (fun q => fst q + snd q) (combine (fst p) (snd p)))
      (combine a b).

(** The index of the first greatest entry of a row, after [start]: the
    second component of [row.max()]. *)
Fixpoint argmax_from (best : R) (best_i i : nat) (row : list R) : nat :=
  match row with
  | [] => best_i
  | x :: r =>
      if Rlt_dec best x then argmax_from x i (S i) r
      else argmax_from best best_i (S i) r
  end.

Definition argmax (row : list R) : nat :=
  match row with
  | [] => 0%nat
  | x :: r => argmax_from x 0%nat 1%nat r
  end.

(** [torch.clamp(x, max=m)] on one entry. *)
Definition clamp_max (x m : R) : R := Rmin x m.

(** [torch.log] on one entry.  [ln] gives a value to the logarithm of a
    number that is not positive, where [torch.log] gives [-inf] or [nan]:
    what is stated of [log] is stated where its argument is positive. *)
Definition log (x : R) : R := ln x.

End torch.

Module F.

Section Generic.
Context {T : Type} `{Scalar T}.

(** [logsumexp] of one row of logits. *)
Definition logsumexp (row : list T) : T := slog (torch.sum (map sexp row)).

(** The loss of one sample: minus the [target]-th entry of
    [log_softmax(row)]. *)
Definition nll_row (row : list T) (target : nat) : T :=
  ssub (logsumexp row) (nth target row (sconst 0)).

(** [F.cross_entropy(input, target, reduction='none')] *)
Definition cross_entropy_none (input : list (list T)) (target : labels)
  : list T :=
  map (fun p => nll_row (fst p) (snd p)) (combine input target).

(** [F.cross_entropy(input, target)], reduction ['mean']. *)
Definition cross_entropy (input : list (list T)) (target : labels) : T :=
  torch.mean (cross_entropy_none input target).

(** [F.softmax(input, dim=1)] *)
Definition softmax_row (row : list T) : list T :=
  map (fun x => sdiv (sexp x) (torch.sum (map sexp row))) row.

Definition softmax (input : list (list T)) : list (list T) :=
  map softmax_row input.
End Generic.

(** [F.nll_loss(input, target, reduction='none')] *)
Definition nll_loss_none (input : tensor) (target : labels) : list R :=
  map (fun p => - nth (snd p) (fst p) 0) (combine input target).

End F.

(** A batch the loss functions accept: one label per row, each label the
    index of a column. *)
Definition valid_batch (y : tensor) (l : labels) : Prop :=
  Forall2 (fun row t => (t < length row)%nat) y l.

(** Two tensors of one shape. *)
Definition same_shape (a b : tensor) : Prop :=
  Forall2 (fun r1 r2 => length r1 = length r2) a b.

(** [t.numel()] *)
Definition numel (a : tensor) : nat := length (concat a).

(** ** The autograd graph in one leaf

    [InvariancePenaltyLoss] differentiates with respect to one 0-dim leaf
    tensor; every other tensor it handles is a constant with respect to that
    leaf.  A node of the graph is an expression in the leaf. *)

Module autograd.

Inductive node : Type :=
| leaf
| const (c : R)
| add (a b : node)
| sub (a b : node)
| mul (a b : node)
| div (a b : node)
| exp_ (a : node)
| log_ (a : node).

(** The value of a node when the leaf holds [s]. *)
Fixpoint eval (s : R) (n : node) : R :=
  match n with
  | leaf => s
  | const c => c
  | add a b => eval s a + eval s b
  | sub a b => eval s a - eval s b
  | mul a b => eval s a * eval s b
  | div a b => eval s a / eval s b
  | exp_ a => exp (eval s a)
  | log_ a => ln (eval s a)
  end.

(** The graph of the gradient with respect to the leaf. *)
Fixpoint backward_graph (n : node) : node :=
  match n with
  | leaf => const 1
  | const _ => const 0
  | add a b => add (backward_graph a) (backward_graph b)
  | sub a b => sub (backward_graph a) (backward_graph b)
  | mul a b => add (mul (backward_graph a) b) (mul a (backward_graph b))
  | div a b =>
      div (sub (mul (backward_graph a) b) (mul (backward_graph b) a))
          (mul b b)
  | exp_ a => mul (exp_ a) (backward_graph a)
  | log_ a => div (backward_graph a) a
  end.

(** [torch.autograd.grad(output, [leaf], create_graph=...)[0]], the leaf
    holding [s]: with [create_graph] the result is itself a graph in the
    leaf, without it a constant. *)
Definition grad (output : node) (create_graph : bool) (s : R) : node :=
  if create_graph then backward_graph output
  else const (eval s (backward_graph output)).

(** The points where torch computes a finite value for every node: each
    logarithm is of a positive number, each divisor is not zero. *)
Fixpoint defined_at (s : R) (n : node) : Prop :=
  match n with
  | leaf | const _ => True
  | add a b | sub a b | mul a b => defined_at s a /\ defined_at s b
  | div a b => defined_at s a /\ defined_at s b /\ eval s b <> 0
  | exp_ a => defined_at s a
  | log_ a => defined_at s a /\ 0 < eval s a
  end.

End autograd.

#[export] Instance node_Scalar : Scalar autograd.node := {
  sconst := autograd.const;
  sadd := autograd.add;
  ssub := autograd.sub;
  smul := autograd.mul;
  sdiv := autograd.div;
  sexp := autograd.exp_;
  slog := autograd.log_
}.

(** A leaf tensor of dimension 0: its value, whether it requires gradient,
    and the gradient [backward] has accumulated in it. *)
Record leaf_tensor : Type := {
  data : R;
  requires_grad : bool;
  grad : option R
}.

(** [torch.tensor(v).requires_grad_()] *)
Definition new_leaf (v : R) : leaf_tensor :=
  {| data := v; requires_grad := true; grad := None |}.


(** ** Python values, exceptions and dictionaries *)

(** What [src] and the key of a batch stream can hold. *)
Inductive pyval : Type :=
| PyNone
| PyStr (s : string)
| PyList (l : list string).

(** [v != None] *)
Definition not_None (v : pyval) : bool :=
  match v with PyNone => false | _ => true end.

Inductive exn : Type :=
| Exception (msg : string)
| UnboundLocalError (name : string)
| IndexError
| ZeroDivisionError
| ValueError
| TypeError
| AttributeError (name : string).

(** [defaultdict(float)]: the keys in the order of their insertion. *)
Definition dict : Type := list (string * R).

Fixpoint dict_get (d : dict) (k : string) : R :=
  match d with
  | [] => 0
  | (k', x) :: r => if String.eqb k' k then x else dict_get r k
  end.

(** [d[k] += v] *)
Fixpoint dict_add (d : dict) (k : string) (v : R) : dict :=
  match d with
  | [] => [(k, 0 + v)]
  | (k', x) :: r =>
      if String.eqb k' k then (k', x + v) :: r else (k', x) :: dict_add r k v
  end.

(** Reading [d[k]] inserts the default value under a missing key. *)
Fixpoint dict_touch (d : dict) (k : string) : dict :=
  match d with
  | [] => [(k, 0)]
  | (k', x) :: r =>
      if String.eqb k' k then (k', x) :: r else (k', x) :: dict_touch r k
  end.

Definition keys (d : dict) : list string := map fst d.

(** ** Collaborators, events and the oracle *)

Inductive net : Type := model | G | C1 | C2.

Inductive optim : Type := optimizer | optimizer_G | optimizer_C.

Inductive metrics : Type := epoch_acc_dict | epoch_loss_dict.

Inductive event : Type :=
| EvInitData                                      (* self._init_data() *)
| EvGetOptimizer (o : optim) (over : list net)    (* self._get_optimizer(..) *)
| EvGetLrScheduler (o : optim)                    (* self._get_lr_scheduler(..) *)
| EvLogEpoch (epoch max_epoch : nat)              (* logging.info('Epoch ..') *)
| EvLogLr (o : optim)                             (* logging.info('current lr ..') *)
| EvTrainMode (n : net) (training : bool)         (* n.train() / n.eval() *)
| EvGetTradeoff (epoch : nat)                     (* self._get_tradeoff(..) *)
| EvTqdm (i : nat)                                (* tqdm yields i *)
| EvNextBatch (key : pyval) (d : tensor) (l : labels)
| EvZeroGrad (o : optim)
| EvForward (n : net) (input output : tensor)
| EvForward2 (n : net) (input y f : tensor)
| EvBackward (loss : R)
| EvStep (o : optim)
| EvGrlStep                                       (* grl_layer.step() *)
| EvSchedStep (o : optim)
| EvLogLoss (phase key : string) (v : R)
| EvLogAcc (phase key : string) (v : R)
| EvLogBest (best_epoch : nat) (best_acc : R)
| EvAccum (d : metrics) (key : string) (v : R).   (* d[key] += v *)

(** What the collaborators return.  The argument of type [nat] is the number
    of calls made to the oracle so far: a network may answer differently each
    time it is called (its parameters move, dropout draws), a batch stream
    yields a new batch at each call. *)
Record Oracle : Type := {
  len_iters : string -> nat;
  next_batch : nat -> pyval -> tensor * labels;
  net_forward : nat -> net -> tensor -> tensor;
  base_model_forward : nat -> tensor -> tensor * tensor;
  mkmmd : tensor -> tensor -> R;
  get_accuracy : tensor -> labels -> R;
  tradeoff_at : nat -> list R;
  lr_scheduler_of : optim -> bool;
  optim_update : nat -> R -> option R -> R
}.

(** The configuration [train] reads. *)
Record Args : Type := {
  train_mode : string;
  source_name : list string;
  max_epoch : nat
}.

(** ** The monad of [train] *)

(** The local variables of [train] that outlive one statement.  [src] is
    [None] until the dispatch on [train_mode] binds it. *)
Record locals : Type := {
  src : option pyval;
  best_acc : R;
  best_epoch : nat;
  epoch_acc : dict;
  epoch_loss : dict;
  tradeoff : list R
}.

Definition no_locals : locals :=
  {| src := None; best_acc := 0; best_epoch := 0%nat;
     epoch_acc := []; epoch_loss := []; tradeoff := [] |}.

Record state (Self : Type) : Type := {
  self : Self;
  clock : nat;
  vars : locals
}.

Inductive res (A : Type) : Type :=
| Ok (a : A)
| Raise (e : exn).
Arguments Raise {A} e.

Record outcome (Self A : Type) : Type := {
  result : res A;
  final : state Self;
  emitted : list event
}.

Definition M (Self A : Type) : Type := state Self -> outcome Self A.

Section Monad.
Context {Self : Type}.

Definition ret {A : Type} (a : A) : M Self A :=
  fun s => {| result := Ok a; final := s; emitted := [] |}.

Definition raise {A : Type} (e : exn) : M Self A :=
  fun s => {| result := Raise e; final := s; emitted := [] |}.

Definition bind {A B : Type} (m : M Self A) (k : A -> M Self B) : M Self B :=
  fun s =>
    let o := m s in
    match result o with
    | Ok a =>
        let o' := k a (final o) in
        {| result := result o'; final := final o';
           emitted := emitted o ++ emitted o' |}
    | Raise e =>
        {| result := Raise e; final := final o; emitted := emitted o |}
    end.

Definition emit (e : event) : M Self unit :=
  fun s => {| result := Ok tt; final := s; emitted := [e] |}.

Definition get_self : M Self Self :=
  fun s => {| result := Ok (self s); final := s; emitted := [] |}.

Definition put_self (x : Self) : M Self unit :=
  fun s => {| result := Ok tt;
              final := {| self := x; clock := clock s; vars := vars s |};
              emitted := [] |}.

Definition get_vars : M Self locals :=
  fun s => {| result := Ok (vars s); final := s; emitted := [] |}.

Definition put_vars (v : locals) : M Self unit :=
  fun s => {| result := Ok tt;
              final := {| self := self s; clock := clock s; vars := v |};
              emitted := [] |}.

(** The number of the next call to the oracle. *)
Definition tick : M Self nat :=
  fun s => {| result := Ok (clock s);
              final := {| self := self s; clock := S (clock s);
                          vars := vars s |};
              emitted := [] |}.
End Monad.

Declare Scope monad_scope.
Delimit Scope monad_scope with monad.
Notation "x <- m ;; k" := (bind m (fun x => k))
  (at level 61, m at next level, right associativity) : monad_scope.
Notation "' ( a , b ) <- m ;; k" :=
  (bind m (fun x => let a := fst x in let b := snd x in k))
  (at level 61, a name, b name, m at next level, right associativity)
  : monad_scope.
Notation "m ;; k" := (bind m (fun _ => k))
  (at level 61, right associativity) : monad_scope.
Open Scope monad_scope.

Section Runtime.
Context {Self : Type}.
Variable O : Oracle.

(** [for x in l: body(x)] *)
Fixpoint for_each {A : Type} (l : list A) (body : A -> M Self unit)
  : M Self unit :=
  match l with
  | [] => ret tt
  | x :: r => body x ;; for_each r body
  end.

(** [range(n)] and [range(a, b)] *)
Definition range (n : nat) : list nat := seq 0 n.
Definition range2 (a b : nat) : list nat := seq a (b - a).

(** [l[i]] *)
Definition index {A : Type} (l : list A) (i : nat) : M Self A :=
  match nth_error l i with
  | Some x => ret x
  | None => raise IndexError
  end.

(** Assignments to the locals. *)
Definition set_src (v : pyval) : M Self unit :=
  l <- get_vars ;;
  put_vars {| src := Some v; best_acc := best_acc l;
              best_epoch := best_epoch l; epoch_acc := epoch_acc l;
              epoch_loss := epoch_loss l; tradeoff := tradeoff l |}.

Definition set_best (acc : R) (epoch : nat) : M Self unit :=
  l <- get_vars ;;
  put_vars {| src := src l; best_acc := acc; best_epoch := epoch;
              epoch_acc := epoch_acc l; epoch_loss := epoch_loss l;
              tradeoff := tradeoff l |}.

Definition set_epoch_acc (d : dict) : M Self unit :=
  l <- get_vars ;;
  put_vars {| src := src l; best_acc := best_acc l;
              best_epoch := best_epoch l; epoch_acc := d;
              epoch_loss := epoch_loss l; tradeoff := tradeoff l |}.

Definition set_epoch_loss (d : dict) : M Self unit :=
  l <- get_vars ;;
  put_vars {| src := src l; best_acc := best_acc l;
              best_epoch := best_epoch l; epoch_acc := epoch_acc l;
              epoch_loss := d; tradeoff := tradeoff l |}.

Definition set_tradeoff (t : list R) : M Self unit :=
  l <- get_vars ;;
  put_vars {| src := src l; best_acc := best_acc l;
              best_epoch := best_epoch l; epoch_acc := epoch_acc l;
              epoch_loss := epoch_loss l; tradeoff := t |}.

(** Reading [src]: the name is unbound when no branch of the dispatch
    assigned it. *)
Definition read_src : M Self pyval :=
  l <- get_vars ;;
  match src l with
  | Some v => ret v
  | None => raise (UnboundLocalError "src")
  end.

(** [tradeoff[i]] *)
Definition read_tradeoff (i : nat) : M Self R :=
  l <- get_vars ;; index (tradeoff l) i.

(** [epoch_acc[key] += v] and [epoch_loss[key] += v] *)
Definition acc_add (key : string) (v : R) : M Self unit :=
  l <- get_vars ;;
  set_epoch_acc (dict_add (epoch_acc l) key v) ;;
  emit (EvAccum epoch_acc_dict key v).

Definition loss_add (key : string) (v : R) : M Self unit :=
  l <- get_vars ;;
  set_epoch_loss (dict_add (epoch_loss l) key v) ;;
  emit (EvAccum epoch_loss_dict key v).

(** [epoch_acc[key]] read as an expression. *)
Definition acc_lookup (key : string) : M Self R :=
  l <- get_vars ;;
  set_epoch_acc (dict_touch (epoch_acc l) key) ;;
  ret (dict_get (epoch_acc l) key).

(** [x / n] for a Python float [x] and an int [n]. *)
Definition float_div (x : R) (n : nat) : M Self R :=
  if Nat.eqb n 0 then raise ZeroDivisionError else ret (x / INR n).

(** Calls to the collaborators. *)
Definition _init_data : M Self unit := emit EvInitData.

Definition _get_tradeoff (epoch : nat) : M Self (list R) :=
  emit (EvGetTradeoff epoch) ;; ret (tradeoff_at O epoch).

Definition get_next_batch (key : pyval) : M Self (tensor * labels) :=
  k <- tick ;;
  let b := next_batch O k key in
  emit (EvNextBatch key (fst b) (snd b)) ;;
  ret b.

(** [n(input)] for a network of [model_base] with one output. *)
Definition call (n : net) (input : tensor) : M Self tensor :=
  k <- tick ;;
  let out := net_forward O k n input in
  emit (EvForward n input out) ;;
  ret out.

Definition zero_grad (o : optim) : M Self unit := emit (EvZeroGrad o).
Definition step (o : optim) : M Self unit := emit (EvStep o).
Definition backward (loss : R) : M Self unit := emit (EvBackward loss).
Definition set_mode (n : net) (training : bool) : M Self unit :=
  emit (EvTrainMode n training).

Definition _get_optimizer_ (o : optim) (over : list net) : M Self unit :=
  emit (EvGetOptimizer o over).

Definition _get_lr_scheduler (o : optim) : M Self bool :=
  emit (EvGetLrScheduler o) ;; ret (lr_scheduler_of O o).

(** The source batch of a training iteration: [src] is read first. *)
Definition source_batch (target : tensor * labels)
  : M Self (tensor * labels) :=
  src <- read_src ;;
  if not_None src then get_next_batch src else ret target.

(** The logging loops at the end of a phase.  A phase that made no
    iteration has an empty [epoch_acc], so that nothing is divided by a
    [num_iter] of 0 here. *)
Definition log_accs (phase : string) (num_iter : nat) : M Self unit :=
  l <- get_vars ;;
  for_each (keys (epoch_acc l)) (fun key =>
    l <- get_vars ;;
    emit (EvLogAcc phase key (dict_get (epoch_acc l) key / INR num_iter))).

(** The last statements of the body of [for phase in ['train', 'val']]:
    the best model according to the validation accuracy. *)
Definition log_best_model (epoch num_iter : nat) : M Self unit :=
  x <- acc_lookup "Target Data" ;;
  new_acc <- float_div x num_iter ;;
  l <- get_vars ;;
  (if Rge_dec new_acc (best_acc l) then set_best new_acc epoch
   else ret tt) ;;
  l <- get_vars ;;
  emit (EvLogBest (best_epoch l) (best_acc l)).
End Runtime.

(** ** IRM.py *)

Module IRM.

Record InvariancePenaltyLoss : Type := { scale : leaf_tensor }.

(** [InvariancePenaltyLoss.__init__] *)
Definition InvariancePenaltyLoss_init : InvariancePenaltyLoss :=
  {| scale := new_leaf 1 |}.

(** [InvariancePenaltyLoss.forward]: the graph of [penalty] in
    [self.scale].  [loss_1], [loss_2], [grad_1] and [grad_2] are the locals
    of the source. *)
Definition loss_1 (y : tensor) (l : labels) : autograd.node :=
  F.cross_entropy (torch.scale_by (evens y) autograd.leaf) (evens l).

Definition loss_2 (y : tensor) (l : labels) : autograd.node :=
  F.cross_entropy (torch.scale_by (odds y) autograd.leaf) (odds l).

Definition grad_1 (self : InvariancePenaltyLoss) (y : tensor) (l : labels)
  : autograd.node :=
  autograd.grad (loss_1 y l) true (data (scale self)).

Definition grad_2 (self : InvariancePenaltyLoss) (y : tensor) (l : labels)
  : autograd.node :=
  autograd.grad (loss_2 y l) true (data (scale self)).

Definition forward (self : InvariancePenaltyLoss) (y : tensor) (l : labels)
  : autograd.node :=
  let penalty := torch.sum [smul (grad_1 self y l) (grad_2 self y l)] in
  penalty.

(** The number a tensor holds whose graph is [n]. *)
Definition item (self : InvariancePenaltyLoss) (n : autograd.node) : R :=
  autograd.eval (data (scale self)) n.

(** [forward] with the two sub-batches exchanged: [grad_1] is taken from
    the odd-indexed rows, [grad_2] from the even-indexed ones. *)
Definition forward_swapped (self : InvariancePenaltyLoss) (y : tensor)
  (l : labels) : autograd.node :=
  let loss_1 := F.cross_entropy (torch.scale_by (odds y) autograd.leaf) (odds l) in
  let loss_2 := F.cross_entropy (torch.scale_by (evens y) autograd.leaf) (evens l) in
  let grad_1 := autograd.grad loss_1 true (data (scale self)) in
  let grad_2 := autograd.grad loss_2 true (data (scale self)) in
  torch.sum [smul grad_1 grad_2].

(** The leaf tensors an optimizer can hold: the parameters of a network,
    which live with the collaborators, and the scalar of the penalty. *)
Inductive leaf_ref : Type :=
| parameters (n : net)
| irm_scale.

Definition is_irm_scale (r : leaf_ref) : bool :=
  match r with irm_scale => true | parameters _ => false end.

Record Optimizer : Type := { param_groups : list leaf_ref }.

(** The attributes of [Trainset] that [train] reads and writes. *)
Record Trainset : Type := {
  irm : InvariancePenaltyLoss;
  self_optimizer : option Optimizer
}.

(** [Trainset.__init__] *)
Definition Trainset_init : Trainset :=
  {| irm := InvariancePenaltyLoss_init; self_optimizer := None |}.

Definition init : state Trainset :=
  {| self := Trainset_init; clock := 0; vars := no_locals |}.

Section Train.
Variable O : Oracle.

(** Modelled from the spec: [InitTrain._get_optimizer] ([train_utils] is
    not among the sources) builds one optimizer over the parameters of
    the modules it is given. *)
Definition _get_optimizer (o : optim) (over : list net)
  : M Trainset Optimizer :=
  _get_optimizer_ o over ;;
  ret {| param_groups := map parameters over |}.

Definition set_optimizer (opt : Optimizer) : M Trainset unit :=
  me <- get_self ;;
  put_self {| irm := irm me; self_optimizer := Some opt |}.

Definition read_optimizer : M Trainset Optimizer :=
  me <- get_self ;;
  match self_optimizer me with
  | Some opt => ret opt
  | None => raise (AttributeError "optimizer")
  end.

Definition set_scale (t : leaf_tensor) : M Trainset unit :=
  me <- get_self ;;
  put_self {| irm := {| scale := t |};
              self_optimizer := self_optimizer me |}.

(** [self.optimizer.zero_grad()]: the gradients of the leaves the
    optimizer holds are cleared. *)
Definition optimizer_zero_grad : M Trainset unit :=
  opt <- read_optimizer ;;
  zero_grad optimizer ;;
  if existsb is_irm_scale (param_groups opt) then
    me <- get_self ;;
    let t := scale (irm me) in
    set_scale {| data := data t; requires_grad := requires_grad t;
                 grad := None |}
  else ret tt.

(** [self.optimizer.step()]: the leaves the optimizer holds move. *)
Definition optimizer_step : M Trainset unit :=
  opt <- read_optimizer ;;
  step optimizer ;;
  if existsb is_irm_scale (param_groups opt) then
    k <- tick ;;
    me <- get_self ;;
    let t := scale (irm me) in
    set_scale {| data := optim_update O k (data t) (grad t);
                 requires_grad := requires_grad t; grad := grad t |}
  else ret tt.

(** [loss.backward()]: the gradient of [loss] is added to [.grad] of
    every leaf that requires it; for the scalar this is the derivative of
    the graph of [loss] in it. *)
Definition loss_backward (loss : autograd.node) : M Trainset unit :=
  me <- get_self ;;
  let t := scale (irm me) in
  backward (autograd.eval (data t) loss) ;;
  if requires_grad t then
    let g := autograd.eval (data t) (autograd.backward_graph loss) in
    set_scale {| data := data t; requires_grad := true;
                 grad := Some (match grad t with
                               | None => g
                               | Some g0 => g0 + g
                               end) |}
  else ret tt.

(** [self.model(data)] in training mode: predictions and features. *)
Definition call_model (input : tensor) : M Trainset (tensor * tensor) :=
  k <- tick ;;
  let out := base_model_forward O k input in
  emit (EvForward2 model input (fst out) (snd out)) ;;
  ret out.

(** The body of [for i in tqdm(range(num_iter))], phase ['train'],
    after the target batch is fetched. *)
Definition train_batch (target : tensor * labels) : M Trainset unit :=
  let target_data := fst target in
  let target_labels := snd target in
  '(source_data, source_labels) <- source_batch O target ;;
  optimizer_zero_grad ;;
  let data := cat source_data target_data in
  '(y, f) <- call_model data ;;
  let '(src_feat, tgt_feat) := chunk2 f in
  let '(pred, _) := chunk2 y in
  let loss_mmd := mkmmd O src_feat tgt_feat in
  let loss_c := F.cross_entropy pred source_labels in
  me <- get_self ;;
  let loss_irm := forward (irm me) pred source_labels in
  t0 <- read_tradeoff 0 ;;
  t1 <- read_tradeoff 1 ;;
  let loss :=
    sadd (sadd (sconst loss_c) (smul (sconst t0) (sconst loss_mmd)))
         (smul (sconst t1) loss_irm) in
  acc_add "Source Data" (get_accuracy O pred source_labels) ;;
  loss_add "Source Classifier" loss_c ;;
  loss_add "Mk MMD" loss_mmd ;;
  loss_add "IRM" (item (irm me) loss_irm) ;;
  loss_backward loss ;;
  optimizer_step.

(** The same, phase ['val']. *)
Definition val_batch (target : tensor * labels) : M Trainset unit :=
  let target_data := fst target in
  let target_labels := snd target in
  pred <- call O model target_data ;;
  acc_add "Target Data" (get_accuracy O pred target_labels).

Definition log_losses (phase : string) (num_iter : nat)
  : M Trainset unit :=
  l <- get_vars ;;
  for_each (keys (epoch_loss l)) (fun key =>
    l <- get_vars ;;
    emit (EvLogLoss phase key
            (dict_get (epoch_loss l) key / INR num_iter))).

(** The body of [for phase in ['train', 'val']]. *)
Definition run_phase (epoch : nat) (phase : string) : M Trainset unit :=
  set_epoch_acc [] ;;
  (if String.eqb phase "train" then
     set_mode model true ;;
     set_epoch_loss [] ;;
     t <- _get_tradeoff O epoch ;; set_tradeoff t
   else set_mode model false) ;;
  let num_iter := len_iters O phase in
  for_each (range num_iter) (fun i =>
    emit (EvTqdm i) ;;
    target <- get_next_batch O (PyStr phase) ;;
    if String.eqb phase "train" then train_batch target
    else val_batch target) ;;
  (if String.eqb phase "train" then log_losses phase num_iter
   else ret tt) ;;
  log_accs phase num_iter ;;
  (if String.eqb phase "val" then log_best_model epoch num_iter
   else ret tt).

(** The body of [for epoch in range(1, args.max_epoch+1)]. *)
Definition run_epoch (args : Args) (lr_scheduler : bool) (epoch : nat)
  : M Trainset unit :=
  emit (EvLogEpoch epoch (max_epoch args)) ;;
  (if lr_scheduler then emit (EvLogLr optimizer) else ret tt) ;;
  for_each ["train"; "val"]%string (run_phase epoch) ;;
  (if lr_scheduler then emit (EvSchedStep optimizer) else ret tt).

(** [Trainset.train] *)
Definition train (args : Args) : M Trainset unit :=
  _init_data ;;
  (if String.eqb (train_mode args) "supervised" then
     set_src PyNone
   else if String.eqb (train_mode args) "single_source" then
     x <- index (source_name args) 0 ;; set_src (PyStr x)
   else if String.eqb (train_mode args) "source_combine" then
     set_src (PyList (source_name args))
   else if String.eqb (train_mode args) "multi_source" then
     raise (Exception "This model cannot be trained with multi-source data.")
   else ret tt) ;;
  (opt <- _get_optimizer optimizer [model] ;; set_optimizer opt) ;;
  lr_scheduler <- _get_lr_scheduler O optimizer ;;
  set_best 0 0 ;;
  for_each (range2 1 (max_epoch args + 1)) (run_epoch args lr_scheduler).
End Train.

End IRM.

(** ** MCD.py *)

Module MCD.

Definition classifier_discrepancy (predictions1 predictions2 : tensor) : R :=
  torch.mean (torch.abs_diff predictions1 predictions2).

(** [Trainset] holds the three networks only, which live with the
    collaborators. *)
Definition Trainset : Type := unit.

Definition init : state Trainset :=
  {| self := tt; clock := 0; vars := no_locals |}.

Section Train.
Variable O : Oracle.

(** The body of [for k in range(4)]. *)
Definition minimize_discrepancy (target_data : tensor) (k : nat)
  : M Trainset unit :=
  zero_grad optimizer_G ;;
  f <- call O G target_data ;;
  y_1 <- call O C1 f ;;
  y_2 <- call O C2 f ;;
  let y1_t := F.softmax y_1 in
  let y2_t := F.softmax y_2 in
  let loss_mcd := classifier_discrepancy y1_t y2_t in
  t0 <- read_tradeoff 0 ;;
  let loss := loss_mcd * t0 in
  loss_add "Step 3: Minimize discrepancy" loss_mcd ;;
  backward loss ;;
  step optimizer_G.

(** The body of [for i in tqdm(range(num_iter))], phase ['train'],
    after the target batch is fetched. *)
Definition train_batch (target : tensor * labels) : M Trainset unit :=
  let target_data := fst target in
  let target_labels := snd target in
  '(source_data, source_labels) <- source_batch O target ;;
  let data := cat source_data target_data in
  zero_grad optimizer_G ;;
  zero_grad optimizer_C ;;
  f <- call O G data ;;
  y_1 <- call O C1 f ;;
  y_2 <- call O C2 f ;;
  let '(y_1, _) := chunk2 y_1 in
  let '(y_2, _) := chunk2 y_2 in
  let '(f_s, f_t) := chunk2 f in
  let loss := F.cross_entropy y_1 source_labels
              + F.cross_entropy y_2 source_labels in
  acc_add "Classifier 1 source train" (get_accuracy O y_1 source_labels) ;;
  acc_add "Classifier 2 source train" (get_accuracy O y_2 source_labels) ;;
  loss_add "Step 1: Source domain" loss ;;
  backward loss ;;
  step optimizer_G ;;
  step optimizer_C ;;
  zero_grad optimizer_G ;;
  zero_grad optimizer_C ;;
  f <- call O G data ;;
  y_1 <- call O C1 f ;;
  y_2 <- call O C2 f ;;
  let '(y1_s, y1_t) := chunk2 y_1 in
  let '(y2_s, y2_t) := chunk2 y_2 in
  let '(f_s, f_t) := chunk2 f in
  let y1_t := F.softmax y1_t in
  let y2_t := F.softmax y2_t in
  t0 <- read_tradeoff 0 ;;
  let loss := F.cross_entropy y1_s source_labels
              + F.cross_entropy y2_s source_labels
              - classifier_discrepancy y1_t y2_t * t0 in
  loss_add "Step 2: Maximize discrepancy" loss ;;
  backward loss ;;
  step optimizer_C ;;
  for_each (range 4) (minimize_discrepancy target_data).

(** The same, phase ['val']. *)
Definition val_batch (target : tensor * labels) : M Trainset unit :=
  let target_data := fst target in
  let target_labels := snd target in
  f <- call O G target_data ;;
  y_1 <- call O C1 f ;;
  y_2 <- call O C2 f ;;
  let pred := torch.add y_1 y_2 in
  acc_add "Classifier 1 Target Data" (get_accuracy O y_1 target_labels) ;;
  acc_add "Classifier 2 Target Data" (get_accuracy O y_2 target_labels) ;;
  acc_add "Target Data" (get_accuracy O pred target_labels).

Definition log_losses (phase : string) (num_iter : nat)
  : M Trainset unit :=
  l <- get_vars ;;
  for_each (keys (epoch_loss l)) (fun key =>
    l <- get_vars ;;
    if String.eqb key "Step 3: Minimize discrepancy" then
      emit (EvLogLoss phase key
              (dict_get (epoch_loss l) key / (1 * INR num_iter)))
    else
      emit (EvLogLoss phase key
              (dict_get (epoch_loss l) key / INR num_iter))).

(** The body of [for phase in ['train', 'val']]. *)
Definition run_phase (epoch : nat) (phase : string) : M Trainset unit :=
  set_epoch_acc [] ;;
  (if String.eqb phase "train" then
     (set_mode G true ;; set_mode C1 true ;; set_mode C2 true) ;;
     set_epoch_loss [] ;;
     t <- _get_tradeoff O epoch ;; set_tradeoff t
   else set_mode G false ;; set_mode C1 false ;; set_mode C2 false) ;;
  let num_iter := len_iters O phase in
  for_each (range num_iter) (fun i =>
    emit (EvTqdm i) ;;
    target <- get_next_batch O (PyStr phase) ;;
    if String.eqb phase "train" then train_batch target
    else val_batch target) ;;
  (if String.eqb phase "train" then log_losses phase num_iter
   else ret tt) ;;
  log_accs phase num_iter ;;
  (if String.eqb phase "val" then log_best_model epoch num_iter
   else ret tt).

(** The body of [for epoch in range(1, args.max_epoch+1)]. *)
Definition run_epoch (args : Args) (lr_scheduler_G lr_scheduler_C : bool) (epoch : nat)
  : M Trainset unit :=
  emit (EvLogEpoch epoch (max_epoch args)) ;;
  (if lr_scheduler_G then emit (EvLogLr optimizer_G) else ret tt) ;;
  for_each ["train"; "val"]%string (run_phase epoch) ;;
  ((if lr_scheduler_G then emit (EvSchedStep optimizer_G) else ret tt) ;;
   (if lr_scheduler_C then emit (EvSchedStep optimizer_C) else ret tt)).

(** [Trainset.train] *)
Definition train (args : Args) : M Trainset unit :=
  _init_data ;;
  (if String.eqb (train_mode args) "supervised" then
     set_src PyNone
   else if String.eqb (train_mode args) "single_source" then
     x <- index (source_name args) 0 ;; set_src (PyStr x)
   else if String.eqb (train_mode args) "source_combine" then
     set_src (PyList (source_name args))
   else if String.eqb (train_mode args) "multi_source" then
     raise (Exception "This model cannot be trained with multi-source data.")
   else ret tt) ;;
  _get_optimizer_ optimizer_G [G] ;;
  _get_optimizer_ optimizer_C [C1; C2] ;;
  lr_scheduler_G <- _get_lr_scheduler O optimizer_G ;;
  lr_scheduler_C <- _get_lr_scheduler O optimizer_C ;;
  set_best 0 0 ;;
  for_each (range2 1 (max_epoch args + 1)) (run_epoch args lr_scheduler_G lr_scheduler_C).
End Train.

End MCD.

(** ** MDD.py *)

Module MDD.

Definition default_offset : R := 1 / 1000000.

(** [shift_log(x, offset)] on one entry of [x]. *)
Definition shift_log (x : R) (offset : R) : R :=
  torch.log (torch.clamp_max (x + offset) 1).

(** [shift_log] on a tensor. *)
Definition shift_log_tensor (x : tensor) (offset : R) : tensor :=
  map (map (fun e => shift_log e offset)) x.

(** What [MarginDisparityDiscrepancy.forward] returns: a 0-dim tensor when
    [reduction] is ['mean'] or ['sum'], the per-sample losses otherwise. *)
Inductive reduced : Type :=
| Reduced (v : R)
| PerSample (l : list R).

Record MarginDisparityDiscrepancy : Type := {
  margin : R;
  reduction : string;
  source_disparity : tensor -> tensor -> list R;
  target_disparity : tensor -> tensor -> list R
}.

(** [MarginDisparityDiscrepancy.forward] *)
Definition MarginDisparityDiscrepancy_forward
  (self : MarginDisparityDiscrepancy) (y_s y_s_adv y_t y_t_adv : tensor)
  (w_s w_t : option (list R)) : reduced :=
  let source_loss :=
    map (fun x => - margin self * x) (source_disparity self y_s y_s_adv) in
  let target_loss := target_disparity self y_t y_t_adv in
  let w_s := match w_s with
             | None => torch.ones_like source_loss
             | Some w => w
             end in
  let source_loss := torch.mul1 source_loss w_s in
  let w_t := match w_t with
             | None => torch.ones_like target_loss
             | Some w => w
             end in
  let target_loss := torch.mul1 target_loss w_t in
  let loss := torch.add1 source_loss target_loss in
  if String.eqb (reduction self) "mean" then Reduced (torch.mean loss)
  else if String.eqb (reduction self) "sum" then Reduced (torch.sum loss)
  else PerSample loss.

(** The two closures of [ClassificationMarginDisparityDiscrepancy]. *)
Definition source_discrepancy (y y_adv : tensor) : list R :=
  let prediction := map torch.argmax y in
  F.cross_entropy_none y_adv prediction.

Definition target_discrepancy (y y_adv : tensor) : list R :=
  let prediction := map torch.argmax y in
  map Ropp
    (F.nll_loss_none
       (shift_log_tensor (map (map (fun p => 1 - p)) (F.softmax y_adv))
          default_offset)
       prediction).

(** [ClassificationMarginDisparityDiscrepancy()]: the margin and the
    reduction of the defaults. *)
Definition ClassificationMarginDisparityDiscrepancy
  : MarginDisparityDiscrepancy :=
  {| margin := 4; reduction := "mean";
     source_disparity := source_discrepancy;
     target_disparity := target_discrepancy |}.

(** The number a reduced loss holds. *)
Definition item (r : reduced) : R :=
  match r with Reduced v => v | PerSample _ => 0 end.

(** Modelled from the spec: [utils.WarmStartGradientReverseLayer] ([utils]
    is not among the sources) is the identity in the forward pass, owns the
    iteration count its coefficient is a function of, and advances it by
    one in [step()]; its forward pass calls [step()] only under
    [auto_step]. *)
Record WarmStartGradientReverseLayer : Type := {
  alpha : R;
  lo : R;
  hi : R;
  max_iters : nat;
  auto_step : bool;
  iter_num : nat
}.

Definition grl_advance (g : WarmStartGradientReverseLayer)
  : WarmStartGradientReverseLayer :=
  {| alpha := alpha g; lo := lo g; hi := hi g; max_iters := max_iters g;
     auto_step := auto_step g; iter_num := S (iter_num g) |}.

(** The attributes of [GeneralModule] its methods read and write. *)
Record GeneralModule : Type := {
  grl_layer : WarmStartGradientReverseLayer;
  training : bool
}.

(** [GeneralModule.__init__] with [grl=None]. *)
Definition GeneralModule_init : GeneralModule :=
  {| grl_layer := {| alpha := 1; lo := 0; hi := 1 / 10; max_iters := 1000;
                     auto_step := false; iter_num := 0 |};
     training := true |}.

(** The attributes of [Trainset]: [self.mdd] never changes after
    [__init__], it is the constant above. *)
Record Trainset : Type := { self_model : GeneralModule }.

Definition Trainset_init : Trainset := {| self_model := GeneralModule_init |}.

Definition init : state Trainset :=
  {| self := Trainset_init; clock := 0; vars := no_locals |}.

(** What [GeneralModule.forward] returns. *)
Inductive outputs_of : Type :=
| Both (outputs outputs_adv : tensor)
| Main (outputs : tensor).

Section Train.
Variable O : Oracle.

Definition set_grl (g : WarmStartGradientReverseLayer) : M Trainset unit :=
  me <- get_self ;;
  put_self {| self_model := {| grl_layer := g;
                               training := training (self_model me) |} |}.

(** [self.grl_layer.step()] *)
Definition grl_step : M Trainset unit :=
  me <- get_self ;;
  emit EvGrlStep ;;
  set_grl (grl_advance (grl_layer (self_model me))).

(** [self.grl_layer(features)] *)
Definition grl_forward (features : tensor) : M Trainset tensor :=
  me <- get_self ;;
  (if auto_step (grl_layer (self_model me)) then grl_step else ret tt) ;;
  ret features.

(** [GeneralModule.forward] *)
Definition GeneralModule_forward (x : tensor) : M Trainset outputs_of :=
  features <- call O G x ;;
  outputs <- call O C1 features ;;
  features_adv <- grl_forward features ;;
  outputs_adv <- call O C2 features_adv ;;
  me <- get_self ;;
  if training (self_model me) then ret (Both outputs outputs_adv)
  else ret (Main outputs).

(** [GeneralModule.step] *)
Definition GeneralModule_step : M Trainset unit := grl_step.

(** [self.model.train()] and [self.model.eval()] *)
Definition model_mode (b : bool) : M Trainset unit :=
  set_mode model b ;;
  me <- get_self ;;
  put_self {| self_model := {| grl_layer := grl_layer (self_model me);
                               training := b |} |}.

(** The body of [for i in tqdm(range(num_iter))], phase ['train'],
    after the target batch is fetched. *)
Definition train_batch (target : tensor * labels) : M Trainset unit :=
  let target_data := fst target in
  let target_labels := snd target in
  '(source_data, source_labels) <- source_batch O target ;;
  zero_grad optimizer ;;
  let data := cat source_data target_data in
  r <- GeneralModule_forward data ;;
  match r with
  | Main _ => raise ValueError
  | Both outputs outputs_adv =>
      let '(y_s, y_t) := chunk2 outputs in
      let '(y_s_adv, y_t_adv) := chunk2 outputs_adv in
      let cls_loss := F.cross_entropy y_s source_labels in
      let transfer_loss :=
        - item (MarginDisparityDiscrepancy_forward
                  ClassificationMarginDisparityDiscrepancy
                  y_s y_s_adv y_t y_t_adv None None) in
      let loss := cls_loss + transfer_loss in
      GeneralModule_step ;;
      acc_add "Source train" (get_accuracy O y_s source_labels) ;;
      loss_add "Source domain" cls_loss ;;
      loss_add "MDD" transfer_loss ;;
      backward loss ;;
      step optimizer
  end.

(** The same, phase ['val']. *)
Definition val_batch (target : tensor * labels) : M Trainset unit :=
  let target_data := fst target in
  let target_labels := snd target in
  r <- GeneralModule_forward target_data ;;
  match r with
  | Both _ _ => raise TypeError
  | Main pred =>
      acc_add "Target Data" (get_accuracy O pred target_labels)
  end.

Definition log_losses (phase : string) (num_iter : nat)
  : M Trainset unit :=
  l <- get_vars ;;
  for_each (keys (epoch_loss l)) (fun key =>
    l <- get_vars ;;
    if String.eqb key "Step 3: Minimize discrepancy" then
      emit (EvLogLoss phase key
              (dict_get (epoch_loss l) key / (1 * INR num_iter)))
    else
      emit (EvLogLoss phase key
              (dict_get (epoch_loss l) key / INR num_iter))).

(** The body of [for phase in ['train', 'val']]. *)
Definition run_phase (epoch : nat) (phase : string) : M Trainset unit :=
  set_epoch_acc [] ;;
  (if String.eqb phase "train" then
     model_mode true ;;
     set_epoch_loss [] ;;
     t <- _get_tradeoff O epoch ;; set_tradeoff t
   else model_mode false) ;;
  let num_iter := len_iters O phase in
  for_each (range num_iter) (fun i =>
    emit (EvTqdm i) ;;
    target <- get_next_batch O (PyStr phase) ;;
    if String.eqb phase "train" then train_batch target
    else val_batch target) ;;
  (if String.eqb phase "train" then log_losses phase num_iter
   else ret tt) ;;
  log_accs phase num_iter ;;
  (if String.eqb phase "val" then log_best_model epoch num_iter
   else ret tt).

(** The body of [for epoch in range(1, args.max_epoch+1)]. *)
Definition run_epoch (args : Args) (lr_scheduler : bool) (epoch : nat)
  : M Trainset unit :=
  emit (EvLogEpoch epoch (max_epoch args)) ;;
  (if lr_scheduler then emit (EvLogLr optimizer) else ret tt) ;;
  for_each ["train"; "val"]%string (run_phase epoch) ;;
  (if lr_scheduler then emit (EvSchedStep optimizer) else ret tt).

(** [Trainset.train] *)
Definition train (args : Args) : M Trainset unit :=
  _init_data ;;
  (if String.eqb (train_mode args) "supervised" then
     set_src PyNone
   else if String.eqb (train_mode args) "single_source" then
     x <- index (source_name args) 0 ;; set_src (PyStr x)
   else if String.eqb (train_mode args) "source_combine" then
     set_src (PyList (source_name args))
   else if String.eqb (train_mode args) "multi_source" then
     raise (Exception "This model cannot be trained with multi-source data.")
   else ret tt) ;;
  _get_optimizer_ optimizer [model] ;;
  lr_scheduler <- _get_lr_scheduler O optimizer ;;
  set_best 0 0 ;;
  for_each (range2 1 (max_epoch args + 1)) (run_epoch args lr_scheduler).
End Train.

End MDD.

(** ** The orchestration the three strategies share

    The three [train] methods differ in the networks they put in training
    mode, in the body of a training and of a validation iteration, in the
    line that logs a loss and in the schedulers they step.  [Orchestration]
    is [run_phase] and [run_epoch] with these pieces as parameters; each
    strategy's [run_phase] and [run_epoch] is an instance of it. *)

Module Orchestration.

Record Pieces (Self : Type) : Type := {
  log_lr : M Self unit;
  train_mode_on : M Self unit;
  train_mode_off : M Self unit;
  train_batch : tensor * labels -> M Self unit;
  val_batch : tensor * labels -> M Self unit;
  log_losses : string -> nat -> M Self unit;
  sched_step : M Self unit
}.

Section Generic.
Context {Self : Type}.
Variable O : Oracle.
Variable P : Pieces Self.

Definition run_batch (phase : string) (i : nat) : M Self unit :=
  emit (EvTqdm i) ;;
  target <- get_next_batch O (PyStr phase) ;;
  if String.eqb phase "train" then train_batch P target
  else val_batch P target.

Definition run_phase (epoch : nat) (phase : string) : M Self unit :=
  set_epoch_acc [] ;;
  (if String.eqb phase "train" then
     train_mode_on P ;;
     set_epoch_loss [] ;;
     t <- _get_tradeoff O epoch ;; set_tradeoff t
   else train_mode_off P) ;;
  let num_iter := len_iters O phase in
  for_each (range num_iter) (run_batch phase) ;;
  (if String.eqb phase "train" then log_losses P phase num_iter
   else ret tt) ;;
  log_accs phase num_iter ;;
  (if String.eqb phase "val" then log_best_model epoch num_iter
   else ret tt).

Definition run_epoch (max_epoch : nat) (epoch : nat) : M Self unit :=
  emit (EvLogEpoch epoch max_epoch) ;;
  log_lr P ;;
  for_each ["train"; "val"]%string (run_phase epoch) ;;
  sched_step P.
End Generic.

End Orchestration.

Definition IRM_pieces (O : Oracle) (lr_scheduler : bool)
  : Orchestration.Pieces IRM.Trainset :=
  {| Orchestration.log_lr :=
       if lr_scheduler then emit (EvLogLr optimizer) else ret tt;
     Orchestration.train_mode_on := set_mode model true;
     Orchestration.train_mode_off := set_mode model false;
     Orchestration.train_batch := IRM.train_batch O;
     Orchestration.val_batch := IRM.val_batch O;
     Orchestration.log_losses := IRM.log_losses;
     Orchestration.sched_step :=
       if lr_scheduler then emit (EvSchedStep optimizer) else ret tt |}.

Definition MCD_pieces (O : Oracle) (lr_scheduler_G lr_scheduler_C : bool)
  : Orchestration.Pieces MCD.Trainset :=
  {| Orchestration.log_lr :=
       if lr_scheduler_G then emit (EvLogLr optimizer_G) else ret tt;
     Orchestration.train_mode_on :=
       set_mode G true ;; set_mode C1 true ;; set_mode C2 true;
     Orchestration.train_mode_off :=
       set_mode G false ;; set_mode C1 false ;; set_mode C2 false;
     Orchestration.train_batch := MCD.train_batch O;
     Orchestration.val_batch := MCD.val_batch O;
     Orchestration.log_losses := MCD.log_losses;
     Orchestration.sched_step :=
       (if lr_scheduler_G then emit (EvSchedStep optimizer_G) else ret tt) ;;
       (if lr_scheduler_C then emit (EvSchedStep optimizer_C) else ret tt) |}.

Definition MDD_pieces (O : Oracle) (lr_scheduler : bool)
  : Orchestration.Pieces MDD.Trainset :=
  {| Orchestration.log_lr :=
       if lr_scheduler then emit (EvLogLr optimizer) else ret tt;
     Orchestration.train_mode_on := MDD.model_mode true;
     Orchestration.train_mode_off := MDD.model_mode false;
     Orchestration.train_batch := MDD.train_batch O;
     Orchestration.val_batch := MDD.val_batch O;
     Orchestration.log_losses := MDD.log_losses;
     Orchestration.sched_step :=
       if lr_scheduler then emit (EvSchedStep optimizer) else ret tt |}.

(** ** Reading a trace *)

Definition metrics_eqb (a b : metrics) : bool :=
  match a, b with
  | epoch_acc_dict, epoch_acc_dict => true
  | epoch_loss_dict, epoch_loss_dict => true
  | _, _ => false
  end.

(** The events only the orchestration emits: progress and logging. *)
Definition quiet (e : event) : bool :=
  match e with
  | EvTqdm _ | EvLogLoss _ _ _ | EvLogAcc _ _ _ | EvLogBest _ _ => false
  | _ => true
  end.

(** The events that are neither progress, logging nor an addition to a
    running sum. *)
Definition admin (e : event) : bool :=
  match e with
  | EvAccum _ _ _ => false
  | _ => quiet e
  end.

(** The dictionary [d] after the additions recorded in a trace. *)
Fixpoint apply_accums (d : metrics) (t : list event) (start : dict) : dict :=
  match t with
  | [] => start
  | EvAccum d' k v :: r =>
      apply_accums d r (if metrics_eqb d d' then dict_add start k v else start)
  | _ :: r => apply_accums d r start
  end.

(** The sum of what a trace adds to [d[k]]. *)
Fixpoint sum_accum (d : metrics) (k : string) (t : list event) : R :=
  match t with
  | [] => 0
  | EvAccum d' k' v :: r =>
      if metrics_eqb d d' && String.eqb k' k then sum_accum d k r + v
      else sum_accum d k r
  | _ :: r => sum_accum d k r
  end.

(** The number of iterations: the times [tqdm] yields. *)
Definition count_tqdm (t : list event) : nat :=
  length (filter (fun e => match e with EvTqdm _ => true | _ => false end) t).

(** The number of calls to [grl_layer.step()]. *)
Definition count_grl (t : list event) : nat :=
  length (filter (fun e => match e with EvGrlStep => true | _ => false end) t).

(** The validation accuracies a trace logs, in order: the lines
    ['val-Acc Target Data: ..']. *)
Fixpoint val_accs (t : list event) : list R :=
  match t with
  | [] => []
  | EvLogAcc phase key v :: r =>
      if String.eqb phase "val" && String.eqb key "Target Data"
      then v :: val_accs r else val_accs r
  | _ :: r => val_accs r
  end.

(** The best accuracies a trace logs, in order: the lines
    ['The best model epoch .., val-acc ..']. *)
Fixpoint logged_best (t : list event) : list (nat * R) :=
  match t with
  | [] => []
  | EvLogBest e a :: r => (e, a) :: logged_best r
  | _ :: r => logged_best r
  end.

(** The comparison of the source on one validation accuracy. *)
Definition update_best (b : R * nat) (epoch : nat) (new_acc : R) : R * nat :=
  if Rge_dec new_acc (fst b) then (new_acc, epoch) else b.

(** The record after the validation accuracies [accs] of the epochs
    [first], [first + 1], .. *)
Fixpoint best_from (b : R * nat) (first : nat) (accs : list R) : R * nat :=
  match accs with
  | [] => b
  | a :: r => best_from (update_best b first a) (S first) r
  end.

Definition best_record (accs : list R) : R * nat :=
  best_from (0, 0%nat) 1 accs.

(** ** Relations between the states before and after a computation *)

(** A relation between the state before, the state after and the events
    emitted that every outcome of [m] meets, whether [m] returns or
    raises. *)
Definition sat {Self : Type}
  (Rel : state Self -> state Self -> list event -> Prop)
  {A : Type} (m : M Self A) : Prop :=
  forall s, Rel s (final (m s)) (emitted (m s)).

(** The outcome of [m] from [s] meets [Qok] when [m] returns and [Qex]
    when it raises. *)
Definition wp {Self A : Type} (m : M Self A) (s : state Self)
  (Qok : A -> state Self -> list event -> Prop)
  (Qex : exn -> state Self -> list event -> Prop) : Prop :=
  match result (m s) with
  | Ok a => Qok a (final (m s)) (emitted (m s))
  | Raise x => Qex x (final (m s)) (emitted (m s))
  end.

(** What a training or validation iteration may do to the locals: add to
    the running sums, and nothing else; it logs nothing. *)
Definition batch_step {Self : Type} (s s' : state Self) (e : list event)
  : Prop :=
  src (vars s') = src (vars s)
  /\ best_acc (vars s') = best_acc (vars s)
  /\ best_epoch (vars s') = best_epoch (vars s)
  /\ tradeoff (vars s') = tradeoff (vars s)
  /\ forallb quiet e = true
  /\ epoch_acc (vars s') = apply_accums epoch_acc_dict e (epoch_acc (vars s))
  /\ epoch_loss (vars s')
     = apply_accums epoch_loss_dict e (epoch_loss (vars s)).

(** What the calls around the iterations may do: nothing to the locals. *)
Definition admin_step {Self : Type} (s s' : state Self) (e : list event)
  : Prop :=
  vars s' = vars s /\ forallb admin e = true.

(** The events that are not a line of the log. *)
Definition nolog (e : event) : bool :=
  match e with
  | EvLogLoss _ _ _ | EvLogAcc _ _ _ | EvLogBest _ _ => false
  | _ => true
  end.

(** What the loop over the batches of a phase may do to the locals. *)
Definition loop_step {Self : Type} (s s' : state Self) (e : list event)
  : Prop :=
  src (vars s') = src (vars s)
  /\ best_acc (vars s') = best_acc (vars s)
  /\ best_epoch (vars s') = best_epoch (vars s)
  /\ tradeoff (vars s') = tradeoff (vars s)
  /\ forallb nolog e = true
  /\ epoch_acc (vars s') = apply_accums epoch_acc_dict e (epoch_acc (vars s))
  /\ epoch_loss (vars s')
     = apply_accums epoch_loss_dict e (epoch_loss (vars s)).

(** Every metric a phase reports is the sum of the additions of the phase
    to that metric, divided by [n], and the phase made [n] iterations. *)
Definition reported_ok (n : nat) (phase : string) (t : list event) : Prop :=
  forall ev, In ev t ->
    match ev with
    | EvLogAcc p k v =>
        p = phase /\ v = sum_accum epoch_acc_dict k t / INR n
        /\ count_tqdm t = n
    | EvLogLoss p k v =>
        p = phase /\ v = sum_accum epoch_loss_dict k t / INR n
        /\ count_tqdm t = n
    | _ => True
    end.

(** The lines [log_losses] may write from the running sums [d]. *)
Definition loss_lines (phase : string) (n : nat) (d : dict) (t : list event)
  : Prop :=
  Forall (fun ev => exists k, ev = EvLogLoss phase k (dict_get d k / INR n)) t.

(** The lines [log_accs] writes from the running sums [d]. *)
Definition acc_lines (phase : string) (n : nat) (d : dict) : list event :=
  map (fun k => EvLogAcc phase k (dict_get d k / INR n)) (keys d).

(** The lines [log_losses] writes from the running sums [d]: one for each
    key, in the order of the keys. *)
Definition loss_report (phase : string) (n : nat) (d : dict) : list event :=
  map (fun k => EvLogLoss phase k (dict_get d k / INR n)) (keys d).

(** Every metric the iterations of a phase added to is reported: each key
    of [epoch_acc] has its line ['<phase>-Acc ..'] and, in the training
    phase, each key of [epoch_loss] its line ['<phase>-Loss ..'], with the
    sum of the additions of the phase divided by [n]; a validation phase
    reports no loss. *)
Definition reports_all (n : nat) (phase : string) (t : list event) : Prop :=
  (forall k v, In (EvAccum epoch_acc_dict k v) t ->
     In (EvLogAcc phase k (sum_accum epoch_acc_dict k t / INR n)) t)
  /\ (phase = "train"%string ->
      forall k v, In (EvAccum epoch_loss_dict k v) t ->
        In (EvLogLoss phase k (sum_accum epoch_loss_dict k t / INR n)) t)
  /\ (phase <> "train"%string ->
      forall p k v, ~ In (EvLogLoss p k v) t).

(** The record of the best model held by the locals. *)
Definition best_of (l : locals) : R * nat := (best_acc l, best_epoch l).

(** The shape of the outcome of one phase from a state whose locals are
    [l0]: the events [e_pre] of the set-up, the events [e_loop] of the
    iterations, then, when the loop came to its end, the lines of the
    log. *)
Definition phase_shape (n epoch : nat) (phase : string) (l0 : locals)
  (r : res unit) (l' : locals) (e : list event) : Prop :=
  exists e_pre e_loop,
    forallb admin e_pre = true
    /\ forallb nolog e_loop = true
    /\ src l' = src l0
    /\ ((e = e_pre ++ e_loop /\ (exists x, r = Raise x)
         /\ best_of l' = best_of l0)
        \/ (count_tqdm e_loop = n
            /\ (n = 0%nat -> e_loop = [])
            /\ (String.eqb phase "train" = false -> n <> 0%nat ->
                In "Target Data"%string
                  (keys (apply_accums epoch_acc_dict e_loop [])))
            /\ exists e_ll e_best,
                e = e_pre ++ e_loop ++ e_ll
                    ++ acc_lines phase n
                         (apply_accums epoch_acc_dict e_loop [])
                    ++ e_best
                /\ (if String.eqb phase "train"
                    then loss_lines phase n
                           (apply_accums epoch_loss_dict e_loop []) e_ll
                    else e_ll = [])
                /\ (if String.eqb phase "val"
                    then (n = 0%nat /\ e_best = []
                          /\ r = Raise ZeroDivisionError
                          /\ best_of l' = best_of l0)
                         \/ (n <> 0%nat /\ r = Ok tt
                             /\ best_of l'
                                = update_best (best_of l0) epoch
                                    (dict_get
                                       (apply_accums epoch_acc_dict e_loop [])
                                       "Target Data" / INR n)
                             /\ e_best
                                = [EvLogBest (snd (best_of l'))
                                     (fst (best_of l'))])
                    else e_best = [] /\ r = Ok tt
                         /\ best_of l' = best_of l0))).

(** A trace that holds lines of the log only. *)
Definition only_logs (t : list event) : Prop :=
  forallb (fun e => negb (nolog e)) t = true.

(** The lines ['The best model ..'] that follow the validation accuracies
    [accs] of the epochs [first], [first + 1], .. *)
Fixpoint best_trace (b : R * nat) (first : nat) (accs : list R)
  : list (nat * R) :=
  match accs with
  | [] => []
  | a :: r =>
      let b' := update_best b first a in
      (snd b', fst b') :: best_trace b' (S first) r
  end.

(** What the statements before the loop over the epochs may do. *)
Definition prefix_step {Self : Type} (s s' : state Self) (e : list event)
  : Prop :=
  forallb admin e = true /\ best_of (vars s') = best_of (vars s).

(** What one epoch does to the record of the best model. *)
Definition epoch_best (epoch : nat) (l0 : locals) (r : res unit)
  (l' : locals) (e : list event) : Prop :=
  src l' = src l0
  /\ best_of l' = best_from (best_of l0) epoch (val_accs e)
  /\ logged_best e = best_trace (best_of l0) epoch (val_accs e)
  /\ (length (val_accs e) <= 1)%nat
  /\ (r = Ok tt -> length (val_accs e) = 1%nat).

(** A list of numbers that never decreases. *)
Fixpoint nondecreasing (l : list R) : Prop :=
  match l with
  | [] => True
  | a :: r => Forall (fun x => a <= x) r /\ nondecreasing r
  end.

(** What a run does to the record of the best model: the record is the one
    the comparison [>=] builds from the validation accuracies of the log,
    and the lines ['The best model ..'] are the successive records. *)
Definition record_ok {Self A : Type} (o : outcome Self A) : Prop :=
  best_of (vars (final o)) = best_record (val_accs (emitted o))
  /\ logged_best (emitted o) = best_trace (0, 0%nat) 1 (val_accs (emitted o)).

(** What the orchestration asks of the pieces of a strategy. *)
Record PiecesOk {Self : Type} (P : Orchestration.Pieces Self) : Prop := {
  ok_train_batch :
    forall t, sat batch_step (Orchestration.train_batch P t);
  ok_val_batch :
    forall t, sat batch_step (Orchestration.val_batch P t);
  ok_mode_on : sat admin_step (Orchestration.train_mode_on P);
  ok_mode_off : sat admin_step (Orchestration.train_mode_off P);
  ok_log_losses :
    forall phase n s,
      result (Orchestration.log_losses P phase n s) = Ok tt
      /\ final (Orchestration.log_losses P phase n s) = s
      /\ loss_lines phase n (epoch_loss (vars s))
           (emitted (Orchestration.log_losses P phase n s));
  ok_val_key :
    forall t s,
      result (Orchestration.val_batch P t s) = Ok tt ->
      In "Target Data"%string
        (keys (epoch_acc (vars (final (Orchestration.val_batch P t s)))));
  ok_log_lr : sat admin_step (Orchestration.log_lr P);
  ok_sched_step : sat admin_step (Orchestration.sched_step P)
}.

(** The events the relations on [self] count. *)
Definition neutral (e : event) : bool :=
  match e with
  | EvGrlStep | EvBackward _ => false
  | _ => true
  end.

(** A step that leaves [self] alone and emits neutral events only. *)
Definition neutral_step {Self : Type} (s s' : state Self) (e : list event)
  : Prop :=
  self s' = self s /\ forallb neutral e = true.

(** The number of calls to [loss.backward()]. *)
Definition count_backward (t : list event) : nat :=
  length (filter (fun e => match e with EvBackward _ => true | _ => false end)
            t).

(** When [m] returns, it has emitted [n] events that [f] counts. *)
Definition counts {Self A : Type} (f : list event -> nat) (m : M Self A)
  (n : nat) : Prop :=
  forall s a, result (m s) = Ok a -> f (emitted (m s)) = n.

(** *** IRM: the scalar and the optimizer *)

(** The optimizer of the IRM strategy, when built, holds the parameters of
    [self.model] and nothing else; the scalar holds [1.0] and requires
    gradient. *)
Definition scale_inv (me : IRM.Trainset) : Prop :=
  data (IRM.scale (IRM.irm me)) = 1
  /\ requires_grad (IRM.scale (IRM.irm me)) = true
  /\ (IRM.self_optimizer me = None
      \/ IRM.self_optimizer me
         = Some {| IRM.param_groups := [IRM.parameters model] |}).

Definition scale_kept (s s' : state IRM.Trainset) (e : list event) : Prop :=
  scale_inv (self s) -> scale_inv (self s').

(** *** MDD: the iteration count of the gradient-reversal layer *)

Definition grl_of (s : state MDD.Trainset) : MDD.WarmStartGradientReverseLayer :=
  MDD.grl_layer (MDD.self_model (self s)).

(** Without [auto_step], the count moves with the calls to [step()], and
    there are as many of them as calls to [backward()]. *)
Definition grl_sync (s s' : state MDD.Trainset) (e : list event) : Prop :=
  MDD.auto_step (grl_of s) = false ->
  MDD.auto_step (grl_of s') = false
  /\ MDD.iter_num (grl_of s') = (MDD.iter_num (grl_of s) + count_grl e)%nat
  /\ count_grl e = count_backward e.

(** The source batch of a training iteration, the number of the next call
    to the oracle, and the event of the fetch: in ['supervised'] mode the
    source batch is the target batch and nothing is fetched. *)
Definition source_of (O : Oracle) (c : nat) (v : pyval)
  (target : tensor * labels) : (tensor * labels) * nat * list event :=
  if not_None v then
    (next_batch O c v, S c,
     [EvNextBatch v (fst (next_batch O c v)) (snd (next_batch O c v))])
  else (target, c, []).

(** One training iteration of the MDD strategy, as the spec words it: one
    forward pass of the concatenated batch through the composite module,
    the two losses, one step of the gradient-reversal schedule, then the
    running sums, one backward pass and one step of the optimizer. *)
Definition mdd_iteration (O : Oracle) (c : nat) (source : tensor * labels)
  (target_data : tensor) : list event :=
  let data := cat (fst source) target_data in
  let features := net_forward O c G data in
  let outputs := net_forward O (S c) C1 features in
  let outputs_adv := net_forward O (S (S c)) C2 features in
  let y_s := fst (chunk2 outputs) in
  let y_t := snd (chunk2 outputs) in
  let y_s_adv := fst (chunk2 outputs_adv) in
  let y_t_adv := snd (chunk2 outputs_adv) in
  let cls_loss := F.cross_entropy y_s (snd source) in
  let transfer_loss :=
    - MDD.item (MDD.MarginDisparityDiscrepancy_forward
                  MDD.ClassificationMarginDisparityDiscrepancy
                  y_s y_s_adv y_t y_t_adv None None) in
  [EvZeroGrad optimizer;
   EvForward G data features;
   EvForward C1 features outputs;
   EvForward C2 features outputs_adv;
   EvGrlStep;
   EvAccum epoch_acc_dict "Source train" (get_accuracy O y_s (snd source));
   EvAccum epoch_loss_dict "Source domain" cls_loss;
   EvAccum epoch_loss_dict "MDD" transfer_loss;
   EvBackward (cls_loss + transfer_loss);
   EvStep optimizer].

(** [m] returns from every state that meets [Pre], in a state that meets
    [Post]. *)
Definition returns {Self A : Type} (Pre : state Self -> Prop) (m : M Self A)
  (Post : state Self -> Prop) : Prop :=
  forall s, Pre s -> exists a, result (m s) = Ok a /\ Post (final (m s)).

(** The MDD strategy is ready for an iteration: [src] is bound, the
    gradient-reversal layer does not step by itself, and the module is in
    the mode [b]. *)
Definition mdd_ready (b : bool) (s : state MDD.Trainset) : Prop :=
  src (vars s) <> None
  /\ MDD.auto_step (grl_of s) = false
  /\ MDD.training (MDD.self_model (self s)) = b.

(** [m] always returns, and leaves [self] and [src] as they are. *)
Definition steady {Self A : Type} (m : M Self A) : Prop :=
  forall s, exists a,
    result (m s) = Ok a /\ self (final (m s)) = self s
    /\ src (vars (final (m s))) = src (vars s).

(** The values of [train_mode] the dispatch binds [src] for. *)
Definition supported (args : Args) : Prop :=
  train_mode args = "supervised"%string
  \/ (train_mode args = "single_source"%string /\ source_name args <> [])
  \/ train_mode args = "source_combine"%string.

(** The MDD strategy as [__init__] leaves it, whatever the locals hold. *)
Definition mdd_fresh (s : state MDD.Trainset) : Prop :=
  MDD.auto_step (grl_of s) = false
  /\ MDD.training (MDD.self_model (self s)) = true.

(** ** The statements of the properties *)

(** The loss of one sub-batch as a function of the scalar. *)
Definition half_loss (t : tensor) (l : labels) (s : R) : R :=
  F.cross_entropy (torch.scale_by t s) l.

(** *** MCD: the three steps of a training iteration, as the spec words
    them *)

(** Step 1: the two classifiers on the source half of the concatenated
    batch, one backward pass, then both optimizers step. *)
Definition mcd_step1 (O : Oracle) (c : nat) (source : tensor * labels)
  (target_data : tensor) : list event :=
  let data := cat (fst source) target_data in
  let f := net_forward O c G data in
  let y_1 := net_forward O (S c) C1 f in
  let y_2 := net_forward O (S (S c)) C2 f in
  let loss := F.cross_entropy (fst (chunk2 y_1)) (snd source)
              + F.cross_entropy (fst (chunk2 y_2)) (snd source) in
  [EvZeroGrad optimizer_G; EvZeroGrad optimizer_C;
   EvForward G data f; EvForward C1 f y_1; EvForward C2 f y_2;
   EvAccum epoch_acc_dict "Classifier 1 source train"
     (get_accuracy O (fst (chunk2 y_1)) (snd source));
   EvAccum epoch_acc_dict "Classifier 2 source train"
     (get_accuracy O (fst (chunk2 y_2)) (snd source));
   EvAccum epoch_loss_dict "Step 1: Source domain" loss;
   EvBackward loss;
   EvStep optimizer_G; EvStep optimizer_C].

(** Step 2: the supervised loss on the source halves minus [tradeoff[0]]
    times the discrepancy of the softmaxed target halves, one backward pass,
    then the optimizer of the classifiers steps. *)
Definition mcd_step2 (O : Oracle) (c : nat) (source : tensor * labels)
  (target_data : tensor) (t0 : R) : list event :=
  let data := cat (fst source) target_data in
  let f := net_forward O c G data in
  let y_1 := net_forward O (S c) C1 f in
  let y_2 := net_forward O (S (S c)) C2 f in
  let loss := F.cross_entropy (fst (chunk2 y_1)) (snd source)
              + F.cross_entropy (fst (chunk2 y_2)) (snd source)
              - MCD.classifier_discrepancy
                  (F.softmax (snd (chunk2 y_1)))
                  (F.softmax (snd (chunk2 y_2))) * t0 in
  [EvZeroGrad optimizer_G; EvZeroGrad optimizer_C;
   EvForward G data f; EvForward C1 f y_1; EvForward C2 f y_2;
   EvAccum epoch_loss_dict "Step 2: Maximize discrepancy" loss;
   EvBackward loss;
   EvStep optimizer_C].

(** One repetition of step 3: the target batch alone, the discrepancy of
    the softmaxed outputs times [tradeoff[0]], one backward pass, then the
    optimizer of [G] steps. *)
Definition mcd_step3 (O : Oracle) (c : nat) (target_data : tensor) (t0 : R)
  : list event :=
  let f := net_forward O c G target_data in
  let y_1 := net_forward O (S c) C1 f in
  let y_2 := net_forward O (S (S c)) C2 f in
  let loss_mcd :=
    MCD.classifier_discrepancy (F.softmax y_1) (F.softmax y_2) in
  [EvZeroGrad optimizer_G;
   EvForward G target_data f; EvForward C1 f y_1; EvForward C2 f y_2;
   EvAccum epoch_loss_dict "Step 3: Minimize discrepancy" loss_mcd;
   EvBackward (loss_mcd * t0);
   EvStep optimizer_G].

(** Step 3 repeated [n] times; each repetition makes three calls to the
    networks. *)
Fixpoint mcd_step3_times (O : Oracle) (n c : nat) (target_data : tensor)
  (t0 : R) : list event :=
  match n with
  | 0%nat => []
  | S n' =>
      mcd_step3 O c target_data t0
      ++ mcd_step3_times O n' (S (S (S c))) target_data t0
  end.

Definition mcd_iteration (O : Oracle) (c : nat) (source : tensor * labels)
  (target_data : tensor) (t0 : R) : list event :=
  mcd_step1 O c source target_data
  ++ mcd_step2 O (3 + c) source target_data t0
  ++ mcd_step3_times O 4 (6 + c) target_data t0.

(** The optimizers that step, in order. *)
Fixpoint optimizer_steps (t : list event) : list optim :=
  match t with
  | [] => []
  | EvStep o :: r => o :: optimizer_steps r
  | _ :: r => optimizer_steps r
  end.

(** *** The record of the best model *)

(** What the claim on the record says of a run that logged the validation
    accuracies [accs]: the record is built by the comparison [>=], the
    accuracies logged with it never decrease, no validation accuracy is
    above the record, and the record is either the initial one, every
    accuracy being below it, or the last of the epochs that reach the
    highest accuracy. *)
Definition record_laws {Self A : Type} (o : outcome Self A) : Prop :=
  let accs := val_accs (emitted o) in
  let b := best_of (vars (final o)) in
  b = best_record accs
  /\ logged_best (emitted o) = best_trace (0, 0%nat) 1 accs
  /\ nondecreasing (map snd (logged_best (emitted o)))
  /\ Forall (fun a => a <= fst b) accs
  /\ ((b = (0, 0%nat) /\ Forall (fun a => a < 0) accs)
      \/ (exists pre a post,
            accs = pre ++ a :: post
            /\ b = (a, (1 + length pre)%nat)
            /\ Forall (fun x => x <= a) pre
            /\ Forall (fun x => x < a) post)).

(** A phase leaves the record as it is, or, at the end of a validation
    phase, sets it from the comparison of the accuracy logged with the
    record before. *)
Definition record_step {Self A : Type} (epoch : nat) (phase : string)
  (before : state Self) (o : outcome Self A) : Prop :=
  let accs := val_accs (emitted o) in
  (phase = "train"%string -> best_of (vars (final o)) = best_of (vars before))
  /\ (phase = "val"%string ->
      (accs = [] /\ best_of (vars (final o)) = best_of (vars before))
      \/ (exists a, accs = [a]
            /\ best_of (vars (final o))
               = update_best (best_of (vars before)) epoch a)).

(** *** The dispatch on [train_mode] *)

(** The values of [train_mode] that no branch of the dispatch names. *)
Definition unrecognised (args : Args) : Prop :=
  train_mode args <> "supervised"%string
  /\ train_mode args <> "single_source"%string
  /\ train_mode args <> "source_combine"%string
  /\ train_mode args <> "multi_source"%string.

(** The run stops at the dispatch: the explicit exception is raised right
    after [_init_data()], nothing else has happened and [self] and the
    locals are as before. *)
Definition refused {Self : Type} (before : state Self)
  (o : outcome Self unit) : Prop :=
  result o
  = Raise (Exception "This model cannot be trained with multi-source data.")
  /\ emitted o = [EvInitData]
  /\ final o = before.

(** The last [n] events of a trace. *)
Definition last_events (n : nat) (t : list event) : list event :=
  skipn (length t - n) t.

(** The run stops in the first training iteration of the first epoch, on
    the read of the unbound [src]: the epoch is announced, the first target
    batch is fetched, and no backward pass was made. *)
Definition fails_in_first_iteration {Self : Type} (O : Oracle) (args : Args)
  (o : outcome Self unit) : Prop :=
  result o = Raise (UnboundLocalError "src")
  /\ In (EvLogEpoch 1 (max_epoch args)) (emitted o)
  /\ last_events 2 (emitted o)
     = [EvTqdm 0;
        EvNextBatch (PyStr "train")
          (fst (next_batch O 0 (PyStr "train")))
          (snd (next_batch O 0 (PyStr "train")))]
  /\ count_tqdm (emitted o) = 1%nat
  /\ count_backward (emitted o) = 0%nat.

(** ** Examples *)

Definition tiny_batch : tensor := [[1; 0]; [0; 1]].
Definition tiny_labels : labels := [0%nat; 1%nat].

(** Collaborators that answer the same at every call: one batch per
    phase, networks that return their input. *)
Definition example_oracle : Oracle :=
  {| len_iters := fun _ => 1%nat;
     next_batch := fun _ _ => (tiny_batch, tiny_labels);
     net_forward := fun _ _ x => x;
     base_model_forward := fun _ x => (x, x);
     mkmmd := fun _ _ => 0;
     get_accuracy := fun _ _ => 1;
     tradeoff_at := fun _ => [1; 1];
     lr_scheduler_of := fun _ => false;
     optim_update := fun _ x _ => x |}.

Definition example_args : Args :=
  {| train_mode := "supervised"; source_name := []; max_epoch := 2 |}.

Definition multi_source_args : Args :=
  {| train_mode := "multi_source"; source_name := ["A"; "B"]%string;
     max_epoch := 1 |}.

(** A value of [train_mode] that no branch of the dispatch names. *)
Definition unknown_mode_args : Args :=
  {| train_mode := "semi_supervised"; source_name := ["A"]%string;
     max_epoch := 1 |}.

(** A state in the middle of a training phase: [src] and [tradeoff] are
    bound. *)
Definition mid_training {Self : Type} (me : Self) : state Self :=
  {| self := me; clock := 0;
     vars := {| src := Some (PyStr "A"); best_acc := 0; best_epoch := 0;
                epoch_acc := []; epoch_loss := []; tradeoff := [1; 1] |} |}.

(** Collaborators for a phase of two iterations whose contributions
    differ: the batches fetched from the third call on carry other labels,
    and the accuracy depends on the labels. *)
Definition two_batch_oracle : Oracle :=
  {| len_iters := fun _ => 2%nat;
     next_batch := fun c _ =>
       if (c <? 2)%nat then (tiny_batch, tiny_labels)
       else (tiny_batch, [1%nat; 0%nat]);
     net_forward := fun _ _ x => x;
     base_model_forward := fun _ x => (x, x);
     mkmmd := fun _ _ => 0;
     get_accuracy := fun _ l => if Nat.eqb (hd 0%nat l) 0 then 1 else 1 / 2;
     tradeoff_at := fun _ => [1; 1];
     lr_scheduler_of := fun _ => false;
     optim_update := fun _ x _ => x |}.

(** * Properties *)

Lemma IRM_run_phase_eq (O : Oracle) (lr : bool) :
  IRM.run_phase O = Orchestration.run_phase O (IRM_pieces O lr).
Proof. reflexivity. Qed.

Lemma IRM_run_epoch_eq (O : Oracle) (args : Args) (lr : bool) :
  IRM.run_epoch O args lr
  = Orchestration.run_epoch O (IRM_pieces O lr) (max_epoch args).
Proof. reflexivity. Qed.

Lemma MCD_run_epoch_eq (O : Oracle) (args : Args) (lg lc : bool) :
  MCD.run_epoch O args lg lc
  = Orchestration.run_epoch O (MCD_pieces O lg lc) (max_epoch args).
Proof. reflexivity. Qed.

Lemma MDD_run_epoch_eq (O : Oracle) (args : Args) (lr : bool) :
  MDD.run_epoch O args lr
  = Orchestration.run_epoch O (MDD_pieces O lr) (max_epoch args).
Proof. reflexivity. Qed.

Lemma MCD_run_phase_eq (O : Oracle) (lg lc : bool) :
  MCD.run_phase O = Orchestration.run_phase O (MCD_pieces O lg lc).
Proof. reflexivity. Qed.

Lemma MDD_run_phase_eq (O : Oracle) (lr : bool) :
  MDD.run_phase O = Orchestration.run_phase O (MDD_pieces O lr).
Proof. reflexivity. Qed.

(** ** Facts on lists and sums *)

Lemma sum_R_nil : torch.sum (@nil R) = 0.
Proof. reflexivity. Qed.

Lemma sum_R_cons (x : R) (l : list R) :
  torch.sum (x :: l) = x + torch.sum l.
Proof. reflexivity. Qed.

Lemma sum_R_nonneg (l : list R) :
  Forall (fun x => 0 <= x) l -> 0 <= torch.sum l.
Proof.
  induction 1 as [|x l Hx _ IH].
  - rewrite sum_R_nil. lra.
  - rewrite sum_R_cons. lra.
Qed.

Lemma sum_R_zero (l : list R) :
  Forall (fun x => x = 0) l -> torch.sum l = 0.
Proof.
  induction 1 as [|x l Hx _ IH].
  - reflexivity.
  - rewrite sum_R_cons, IH, Hx. lra.
Qed.

Lemma sum_exp_pos (row : list R) :
  row <> [] -> 0 < torch.sum (map exp row).
Proof.
  destruct row as [|x r]; [congruence|intros _].
  simpl map. rewrite sum_R_cons.
  assert (H : 0 <= torch.sum (map exp r)).
  { apply sum_R_nonneg. apply Forall_forall. intros y Hy.
    apply in_map_iff in Hy. destruct Hy as [z [<- _]].
    left. apply exp_pos. }
  pose proof (exp_pos x). lra.
Qed.

Lemma abs_diff_sym_flat (a b : list R) :
  map (fun p => Rabs (fst p - snd p)) (combine a b)
  = map (fun p => Rabs (fst p - snd p)) (combine b a).
Proof.
  revert b. induction a as [|x a IH]; intros [|y b]; simpl; try reflexivity.
  rewrite IH. f_equal. apply Rabs_minus_sym.
Qed.

Lemma abs_diff_nonneg (a b : tensor) :
  Forall (fun x => 0 <= x) (torch.abs_diff a b).
Proof.
  unfold torch.abs_diff. apply Forall_forall. intros x Hx.
  apply in_map_iff in Hx. destruct Hx as [p [<- _]]. apply Rabs_pos.
Qed.

Lemma abs_diff_self (a : tensor) :
  Forall (fun x => x = 0) (torch.abs_diff a a).
Proof.
  unfold torch.abs_diff. generalize (concat a). intros l.
  induction l as [|x l IH]; simpl; constructor; auto.
  replace (x - x) with 0 by lra. apply Rabs_R0.
Qed.

Lemma stride2_Forall2 {A B : Type} (P : A -> B -> Prop) (l : list A)
  (m : list B) :
  Forall2 P l m -> Forall2 P (stride2 l) (stride2 m).
Proof.
  intros H.
  enough (HH : Forall2 P (stride2 l) (stride2 m)
               /\ Forall2 P (stride2 (tl l)) (stride2 (tl m)))
    by apply HH.
  induction H as [|x y l m Hxy H [IH1 IH2]]; simpl.
  - split; constructor.
  - split; [|exact IH1].
    constructor; [exact Hxy|].
    destruct H; simpl in *; [constructor|exact IH2].
Qed.

Lemma skipn_Forall2 {A B : Type} (P : A -> B -> Prop) (n : nat) (l : list A)
  (m : list B) :
  Forall2 P l m -> Forall2 P (skipn n l) (skipn n m).
Proof.
  revert l m. induction n as [|n IH]; intros l m H; simpl; [exact H|].
  destruct H; [constructor|]. apply IH. assumption.
Qed.

Lemma valid_batch_evens (y : tensor) (l : labels) :
  valid_batch y l -> valid_batch (evens y) (evens l).
Proof. apply stride2_Forall2. Qed.

Lemma valid_batch_odds (y : tensor) (l : labels) :
  valid_batch y l -> valid_batch (odds y) (odds l).
Proof. intros H. apply stride2_Forall2. apply skipn_Forall2. exact H. Qed.

Lemma evens_nonempty {A : Type} (l : list A) :
  (1 <= length l)%nat -> evens l <> [].
Proof. destruct l; simpl; [lia|discriminate]. Qed.

Lemma odds_nonempty {A : Type} (l : list A) :
  (2 <= length l)%nat -> odds l <> [].
Proof. destruct l as [|a [|b l]]; simpl; try lia. discriminate. Qed.

(** ** The autograd graph computes derivatives *)

Lemma eval_sum (s : R) (l : list autograd.node) :
  autograd.eval s (torch.sum l) = torch.sum (map (autograd.eval s) l).
Proof.
  induction l as [|n l IH]; [reflexivity|].
  change (torch.sum (n :: l)) with (autograd.add n (torch.sum l)).
  simpl autograd.eval. rewrite IH. reflexivity.
Qed.

Lemma eval_cross_entropy (s : R) (t : list (list autograd.node))
  (l : labels) :
  autograd.eval s (F.cross_entropy t l)
  = F.cross_entropy (map (map (autograd.eval s)) t) l.
Proof.
  unfold F.cross_entropy, torch.mean. simpl.
  rewrite eval_sum. unfold F.cross_entropy_none.
  rewrite !length_map, !length_combine, !length_map. f_equal. f_equal.
  revert l. induction t as [|row t IH]; intros [|k l]; simpl;
    try reflexivity.
  rewrite IH. f_equal. unfold F.nll_row, F.logsumexp. simpl.
  rewrite eval_sum. rewrite !map_map.
  change 0 with (autograd.eval s (autograd.const 0)) at 2.
  rewrite map_nth. reflexivity.
Qed.

Lemma eval_scale_by (s : R) (t : tensor) :
  map (map (autograd.eval s)) (torch.scale_by t autograd.leaf)
  = torch.scale_by t s.
Proof.
  unfold torch.scale_by. rewrite map_map. apply map_ext. intros row.
  rewrite map_map. reflexivity.
Qed.

Lemma backward_graph_correct (s : R) (n : autograd.node) :
  autograd.defined_at s n ->
  derivable_pt_lim (fun x => autograd.eval x n) s
    (autograd.eval s (autograd.backward_graph n)).
Proof.
  induction n as [|c|a IHa b IHb|a IHa b IHb|a IHa b IHb|a IHa b IHb
                 |a IHa|a IHa]; simpl; intros D.
  - apply derivable_pt_lim_id.
  - apply derivable_pt_lim_const.
  - destruct D as [Da Db].
    apply (derivable_pt_lim_plus (fun x => autograd.eval x a)
             (fun x => autograd.eval x b)); auto.
  - destruct D as [Da Db].
    apply (derivable_pt_lim_minus (fun x => autograd.eval x a)
             (fun x => autograd.eval x b)); auto.
  - destruct D as [Da Db].
    apply (derivable_pt_lim_mult (fun x => autograd.eval x a)
             (fun x => autograd.eval x b)); auto.
  - destruct D as [Da [Db Hb]].
    apply (derivable_pt_lim_div (fun x => autograd.eval x a)
             (fun x => autograd.eval x b)); auto.
  - apply (derivable_pt_lim_comp (fun x => autograd.eval x a) exp); auto.
    apply derivable_pt_lim_exp.
  - destruct D as [Da Ha].
    replace (autograd.eval s (autograd.backward_graph a) / autograd.eval s a)
      with (/ autograd.eval s a * autograd.eval s (autograd.backward_graph a))
      by (unfold Rdiv; ring).
    apply (derivable_pt_lim_comp (fun x => autograd.eval x a) ln); auto.
    apply derivable_pt_lim_ln. exact Ha.
Qed.

Lemma backward_graph_defined (s : R) (n : autograd.node) :
  autograd.defined_at s n ->
  autograd.defined_at s (autograd.backward_graph n).
Proof.
  induction n as [|c|a IHa b IHb|a IHa b IHb|a IHa b IHb|a IHa b IHb
                 |a IHa|a IHa]; simpl; try tauto.
  - intros [Da [Db Hb]].
    repeat split; auto;
      try (apply Rmult_integral_contrapositive; split; assumption).
  - intros [Da Ha]. repeat split; auto; try lra.
Qed.

Lemma defined_sum (s : R) (l : list autograd.node) :
  Forall (autograd.defined_at s) l -> autograd.defined_at s (torch.sum l).
Proof.
  induction 1 as [|n l Hn _ IH]; simpl; [exact I|]. split; assumption.
Qed.

Lemma nth_Forall {A : Type} (P : A -> Prop) (l : list A) (k : nat) (d : A) :
  Forall P l -> P d -> P (nth k l d).
Proof.
  intros H Hd. revert k. induction H as [|x l Hx _ IH]; intros [|k]; simpl;
    auto.
Qed.

Lemma defined_cross_entropy (s : R) (t : tensor) (l : labels) :
  valid_batch t l -> t <> [] ->
  autograd.defined_at s (F.cross_entropy (torch.scale_by t autograd.leaf) l).
Proof.
  intros V Hne. unfold F.cross_entropy, torch.mean. simpl.
  split; [|split].
  - apply defined_sum. unfold F.cross_entropy_none, torch.scale_by.
    induction V as [|row k t l Hk V IH]; simpl; constructor.
    + unfold F.nll_row, F.logsumexp. simpl. repeat split.
      * apply defined_sum. rewrite map_map. apply Forall_forall.
        intros n Hn. apply in_map_iff in Hn. destruct Hn as [x [<- _]].
        simpl. auto.
      * rewrite eval_sum, !map_map. simpl.
        rewrite <- (map_map (fun x => x * s) exp).
        apply sum_exp_pos. destruct row; simpl in *; [lia|discriminate].
      * apply nth_Forall; [|exact I].
        apply Forall_forall. intros n Hn. apply in_map_iff in Hn.
        destruct Hn as [x [<- _]]. simpl. auto.
    + destruct t as [|row' t'].
      * inversion V. simpl. constructor.
      * apply IH. discriminate.
  - exact I.
  - unfold F.cross_entropy_none. rewrite length_map, length_combine.
    unfold torch.scale_by. rewrite length_map.
    pose proof (Forall2_length V) as HL. rewrite <- HL, Nat.min_id.
    apply not_0_INR. destruct t; simpl; [congruence|lia].
Qed.

Lemma half_loss_derivative (s : R) (t : tensor) (l : labels) :
  valid_batch t l -> t <> [] ->
  derivable_pt_lim (half_loss t l) s
    (autograd.eval s
       (autograd.backward_graph
          (F.cross_entropy (torch.scale_by t autograd.leaf) l))).
Proof.
  intros V Hne.
  pose proof (backward_graph_correct s _ (defined_cross_entropy s V Hne))
    as H.
  intros eps Heps. destruct (H eps Heps) as [delta Hd]. exists delta.
  intros h Hh Hlt. specialize (Hd h Hh Hlt).
  rewrite !eval_cross_entropy, !eval_scale_by in Hd. exact Hd.
Qed.

(** ** [shift_log] *)

Lemma shift_log_unfold (x offset : R) :
  MDD.shift_log x offset = ln (Rmin (x + offset) 1).
Proof. reflexivity. Qed.

(** C1, as the claim states it, fails: an input below zero is not lifted to
    [log(1e-6)].  At [x = -5e-7] the clamp leaves [x + 1e-6 = 5e-7], whose
    logarithm is below [log(1e-6)]. *)
Lemma shift_log_no_floor_below_zero :
  - (1 / 2000000) <= 0
  /\ MDD.shift_log (- (1 / 2000000)) MDD.default_offset <> ln (1 / 1000000)
  /\ MDD.shift_log (- (1 / 2000000)) MDD.default_offset < ln (1 / 1000000).
Proof.
  assert (E : MDD.shift_log (- (1 / 2000000)) MDD.default_offset
              = ln (1 / 2000000)).
  { rewrite shift_log_unfold. unfold MDD.default_offset. f_equal.
    rewrite Rmin_left; lra. }
  assert (L : ln (1 / 2000000) < ln (1 / 1000000))
    by (apply ln_increasing; lra).
  rewrite E. repeat split; lra.
Qed.

(** C1, amended: [shift_log(x) = log(min(x + 1e-6, 1))] for every [x]; it
    is [0] for every [x >= 1], it is [log(1e-6)] at [x = 0], and on the
    inputs that are not negative it stays between [log(1e-6)] and [0].  The
    offset is no floor: for [-1e-6 < x < 0] the output is [log(x + 1e-6)],
    which is below [log(1e-6)], and for [x <= -1e-6] the clamped argument of
    the logarithm is not positive.  At [0], [1] and [2] the outputs are
    [log(1e-6)], [0] and [0]. *)
Theorem shift_log_boundaries (x : R) :
  MDD.shift_log x MDD.default_offset = ln (Rmin (x + 1 / 1000000) 1)
  /\ (1 <= x -> MDD.shift_log x MDD.default_offset = 0)
  /\ (x = 0 -> MDD.shift_log x MDD.default_offset = ln (1 / 1000000))
  /\ (0 <= x ->
      ln (1 / 1000000) <= MDD.shift_log x MDD.default_offset <= 0)
  /\ (- (1 / 1000000) < x < 0 ->
      MDD.shift_log x MDD.default_offset = ln (x + 1 / 1000000)
      /\ MDD.shift_log x MDD.default_offset < ln (1 / 1000000))
  /\ (x <= - (1 / 1000000) ->
      torch.clamp_max (x + MDD.default_offset) 1 <= 0)
  /\ MDD.shift_log 0 MDD.default_offset = ln (1 / 1000000)
  /\ MDD.shift_log 1 MDD.default_offset = 0
  /\ MDD.shift_log 2 MDD.default_offset = 0.
Proof.
  assert (One : forall z, 1 <= z -> MDD.shift_log z MDD.default_offset = 0).
  { intros z Hz. rewrite shift_log_unfold. unfold MDD.default_offset.
    rewrite Rmin_right by lra. apply ln_1. }
  assert (Zero : MDD.shift_log 0 MDD.default_offset = ln (1 / 1000000)).
  { rewrite shift_log_unfold. unfold MDD.default_offset.
    rewrite Rmin_left by lra. f_equal. lra. }
  split; [reflexivity|].
  split; [apply One|].
  split; [intros ->; exact Zero|].
  split; [|split; [|split; [|split; [exact Zero|split; apply One; lra]]]].
  - intros Hx. rewrite shift_log_unfold. unfold MDD.default_offset.
    destruct (Rle_lt_dec 1 (x + 1 / 1000000)) as [Hge|Hlt].
    + rewrite Rmin_right by lra. rewrite ln_1. split; [|lra].
      rewrite <- ln_1. left. apply ln_increasing; lra.
    + rewrite Rmin_left by lra. split.
      * destruct (Req_dec x 0) as [->|Hne].
        -- right. f_equal. lra.
        -- left. apply ln_increasing; lra.
      * rewrite <- ln_1. left. apply ln_increasing; lra.
  - intros [Hlo Hhi]. rewrite shift_log_unfold. unfold MDD.default_offset.
    rewrite Rmin_left by lra.
    split; [reflexivity|]. apply ln_increasing; lra.
  - intros Hx. unfold torch.clamp_max, MDD.default_offset.
    eapply Rle_trans; [apply Rmin_l|lra].
Qed.

Lemma shift_log_boundaries_witness :
  MDD.shift_log 0 MDD.default_offset = ln (1 / 1000000)
  /\ MDD.shift_log 2 MDD.default_offset = 0
  /\ MDD.shift_log (- (1 / 2000000)) MDD.default_offset < ln (1 / 1000000).
Proof.
  destruct (shift_log_boundaries (- (1 / 2000000)))
    as (_ & _ & _ & _ & Hneg & _ & H0 & _ & H2).
  split; [exact H0|]. split; [exact H2|].
  apply Hneg. lra.
Defined.

(** ** [classifier_discrepancy] *)

(** C10: [classifier_discrepancy] is symmetric, is not negative, and is [0]
    when its two arguments are the same tensor. *)
Theorem classifier_discrepancy_symmetric_nonneg (p1 p2 : tensor) :
  same_shape p1 p2 -> (0 < numel p1)%nat ->
  MCD.classifier_discrepancy p1 p2 = MCD.classifier_discrepancy p2 p1
  /\ 0 <= MCD.classifier_discrepancy p1 p2
  /\ (p1 = p2 -> MCD.classifier_discrepancy p1 p2 = 0)
  /\ MCD.classifier_discrepancy p1 p1 = 0.
Proof.
  intros _ Hn.
  assert (Z : forall p, MCD.classifier_discrepancy p p = 0).
  { intros p. unfold MCD.classifier_discrepancy, torch.mean.
    rewrite (sum_R_zero (abs_diff_self p)). simpl. unfold Rdiv. ring. }
  split; [|split; [|split]].
  - unfold MCD.classifier_discrepancy, torch.abs_diff.
    rewrite (abs_diff_sym_flat (concat p1) (concat p2)). reflexivity.
  - unfold MCD.classifier_discrepancy, torch.mean. simpl.
    pose proof (sum_R_nonneg (abs_diff_nonneg p1 p2)) as Hs.
    pose proof (pos_INR (length (torch.abs_diff p1 p2))) as Hl.
    destruct Hl as [Hl|Hl].
    + apply Rinv_0_lt_compat in Hl.
      unfold Rdiv. apply Rmult_le_pos; [exact Hs|left; exact Hl].
    + rewrite <- Hl. unfold Rdiv. rewrite Rinv_0. right. ring.
  - intros ->. apply Z.
  - apply Z.
Qed.

Lemma classifier_discrepancy_witness :
  MCD.classifier_discrepancy [[1; 0]] [[0; 1]]
  = MCD.classifier_discrepancy [[0; 1]] [[1; 0]]
  /\ 0 <= MCD.classifier_discrepancy [[1; 0]] [[0; 1]].
Proof.
  destruct (@classifier_discrepancy_symmetric_nonneg [[1; 0]] [[0; 1]])
    as [H1 [H2 _]].
  - repeat constructor.
  - unfold numel. simpl. lia.
  - split; [exact H1|exact H2].
Defined.

(** ** [InvariancePenaltyLoss.forward] *)

Lemma forward_value (self : IRM.InvariancePenaltyLoss) (y : tensor)
  (l : labels) :
  IRM.item self (IRM.forward self y l)
  = IRM.item self (IRM.grad_1 self y l) * IRM.item self (IRM.grad_2 self y l).
Proof.
  unfold IRM.item, IRM.forward. simpl. ring.
Qed.

Lemma eval_forward (self : IRM.InvariancePenaltyLoss) (y : tensor)
  (l : labels) (x : R) :
  autograd.eval x (IRM.forward self y l)
  = autograd.eval x (IRM.grad_1 self y l)
    * autograd.eval x (IRM.grad_2 self y l).
Proof. unfold IRM.forward. simpl. ring. Qed.

Lemma backward_forward (self : IRM.InvariancePenaltyLoss) (y : tensor)
  (l : labels) (x : R) :
  autograd.eval x (autograd.backward_graph (IRM.forward self y l))
  = autograd.eval x (autograd.backward_graph (IRM.grad_1 self y l))
    * autograd.eval x (IRM.grad_2 self y l)
    + autograd.eval x (IRM.grad_1 self y l)
      * autograd.eval x (autograd.backward_graph (IRM.grad_2 self y l)).
Proof. unfold IRM.forward. simpl. ring. Qed.

(** C6: the penalty is [sum(grad_1 * grad_2)], where [grad_1] is the
    derivative in the scalar of the cross-entropy of the even-indexed rows
    scaled by it, [grad_2] the same for the odd-indexed rows.  Both
    gradients are kept as graphs in the scalar ([create_graph=True]): at
    every value [x] of the scalar, and not only at the one it holds, the
    graph of [grad_1] computes the derivative of the loss of its sub-batch
    at [x], and so for [grad_2]; the penalty is their product at every [x];
    the gradients and the penalty can be differentiated again, and the
    derivative of the penalty is the one the product rule gives from the
    derivatives of the two gradients. *)
Theorem invariance_penalty_is_gradient_product
  (self : IRM.InvariancePenaltyLoss) (y : tensor) (l : labels) :
  valid_batch y l -> (2 <= length y)%nat ->
  let s := data (IRM.scale self) in
  derivable_pt_lim (half_loss (evens y) (evens l)) s
    (IRM.item self (IRM.grad_1 self y l))
  /\ derivable_pt_lim (half_loss (odds y) (odds l)) s
       (IRM.item self (IRM.grad_2 self y l))
  /\ IRM.item self (IRM.forward self y l)
     = torch.sum [IRM.item self (IRM.grad_1 self y l)
                  * IRM.item self (IRM.grad_2 self y l)]
  /\ derivable_pt_lim (fun x => autograd.eval x (IRM.forward self y l)) s
       (autograd.eval s (autograd.backward_graph (IRM.forward self y l)))
  /\ (forall x,
        derivable_pt_lim (half_loss (evens y) (evens l)) x
          (autograd.eval x (IRM.grad_1 self y l))
        /\ derivable_pt_lim (half_loss (odds y) (odds l)) x
             (autograd.eval x (IRM.grad_2 self y l))
        /\ autograd.eval x (IRM.forward self y l)
           = torch.sum [autograd.eval x (IRM.grad_1 self y l)
                        * autograd.eval x (IRM.grad_2 self y l)]
        /\ derivable_pt_lim
             (fun z => autograd.eval z (IRM.grad_1 self y l)) x
             (autograd.eval x
                (autograd.backward_graph (IRM.grad_1 self y l)))
        /\ derivable_pt_lim
             (fun z => autograd.eval z (IRM.grad_2 self y l)) x
             (autograd.eval x
                (autograd.backward_graph (IRM.grad_2 self y l)))
        /\ derivable_pt_lim
             (fun z => autograd.eval z (IRM.forward self y l)) x
             (autograd.eval x
                (autograd.backward_graph (IRM.grad_1 self y l))
              * autograd.eval x (IRM.grad_2 self y l)
              + autograd.eval x (IRM.grad_1 self y l)
                * autograd.eval x
                    (autograd.backward_graph (IRM.grad_2 self y l)))).
Proof.
  intros V Hlen s.
  assert (Ve := valid_batch_evens V). assert (Vo := valid_batch_odds V).
  assert (Ne : evens y <> []) by (apply evens_nonempty; lia).
  assert (No : odds y <> []) by (apply odds_nonempty; lia).
  assert (D : forall x,
            autograd.defined_at x
              (autograd.backward_graph (IRM.loss_1 y l))
            /\ autograd.defined_at x
                 (autograd.backward_graph (IRM.loss_2 y l))).
  { intros x. split; apply backward_graph_defined;
      apply defined_cross_entropy; assumption. }
  assert (DF : forall x, autograd.defined_at x (IRM.forward self y l)).
  { intros x. unfold IRM.forward. apply defined_sum.
    constructor; [|constructor]. exact (D x). }
  split; [|split; [|split; [|split]]].
  - apply half_loss_derivative; assumption.
  - apply half_loss_derivative; assumption.
  - rewrite forward_value. rewrite sum_R_cons, sum_R_nil. ring.
  - apply backward_graph_correct. apply DF.
  - intros x. split; [|split; [|split; [|split; [|split]]]].
    + apply half_loss_derivative; assumption.
    + apply half_loss_derivative; assumption.
    + rewrite eval_forward, sum_R_cons, sum_R_nil. ring.
    + apply backward_graph_correct. apply (D x).
    + apply backward_graph_correct. apply (D x).
    + rewrite <- backward_forward. apply backward_graph_correct. apply DF.
Qed.

(** On the batch [tiny_batch] the two gradients are the function
    [x |-> exp(x) / (exp(x) + 1) - 1] of the scalar: their value moves with
    the scalar, and the second backward pass through the penalty gives a
    gradient that is not zero. *)
Lemma gradient_value (x : R) :
  autograd.eval x
    (IRM.grad_1 IRM.InvariancePenaltyLoss_init tiny_batch tiny_labels)
  = exp x / (exp x + 1) - 1
  /\ autograd.eval x
       (IRM.grad_2 IRM.InvariancePenaltyLoss_init tiny_batch tiny_labels)
     = exp x / (1 + exp x) - 1.
Proof.
  pose proof (exp_pos x) as He.
  unfold IRM.grad_1, IRM.grad_2, IRM.loss_1, IRM.loss_2, autograd.grad,
    tiny_batch, tiny_labels, evens, odds, F.cross_entropy, torch.mean,
    F.cross_entropy_none, torch.scale_by, F.nll_row, F.logsumexp, torch.sum.
  cbn. rewrite Rmult_1_l, Rmult_0_l, exp_0. split; field; lra.
Qed.

Lemma gradient_depends_on_scalar :
  autograd.eval 0
    (IRM.grad_1 IRM.InvariancePenaltyLoss_init tiny_batch tiny_labels)
  <> autograd.eval 1
       (IRM.grad_1 IRM.InvariancePenaltyLoss_init tiny_batch tiny_labels).
Proof.
  destruct (gradient_value 0) as [E0 _]. destruct (gradient_value 1) as [E1 _].
  rewrite E0, E1, exp_0.
  assert (H : 1 < exp 1) by (rewrite <- exp_0 at 1; apply exp_increasing; lra).
  intros E.
  assert (E' : exp 1 / (exp 1 + 1) = 1 / 2) by lra.
  apply (f_equal (fun z => z * (2 * (exp 1 + 1)))) in E'.
  field_simplify in E'; lra.
Qed.

Lemma second_backward_negative :
  IRM.item IRM.InvariancePenaltyLoss_init
    (autograd.backward_graph
       (IRM.forward IRM.InvariancePenaltyLoss_init tiny_batch tiny_labels))
  < 0.
Proof.
  assert (He : 0 < exp 1) by apply exp_pos.
  unfold IRM.item, IRM.forward, IRM.grad_1, IRM.grad_2, IRM.loss_1,
    IRM.loss_2, autograd.grad, IRM.InvariancePenaltyLoss_init, new_leaf,
    tiny_batch, tiny_labels, evens, odds, F.cross_entropy, torch.mean,
    F.cross_entropy_none, torch.scale_by, F.nll_row, F.logsumexp, torch.sum.
  cbn. rewrite !Rmult_1_l, !Rmult_1_r, !Rmult_0_l, !Rmult_0_r, exp_0.
  set (e := exp 1) in *.
  match goal with
  | |- ?v < 0 =>
      replace v with (- (2 * e) / ((e + 1) * (e + 1) * (e + 1)))
        by (field; lra)
  end.
  apply Rmult_lt_reg_r with ((e + 1) * (e + 1) * (e + 1)).
  - repeat apply Rmult_lt_0_compat; lra.
  - unfold Rdiv. rewrite Rmult_assoc, Rinv_l, Rmult_0_l.
    + lra.
    + apply Rgt_not_eq. repeat apply Rmult_lt_0_compat; lra.
Qed.

Lemma invariance_penalty_witness :
  IRM.item IRM.InvariancePenaltyLoss_init
    (IRM.forward IRM.InvariancePenaltyLoss_init tiny_batch tiny_labels)
  = torch.sum
      [IRM.item IRM.InvariancePenaltyLoss_init
         (IRM.grad_1 IRM.InvariancePenaltyLoss_init tiny_batch tiny_labels)
       * IRM.item IRM.InvariancePenaltyLoss_init
           (IRM.grad_2 IRM.InvariancePenaltyLoss_init tiny_batch tiny_labels)]
  /\ derivable_pt_lim (half_loss (evens tiny_batch) (evens tiny_labels)) 0
       (exp 0 / (exp 0 + 1) - 1)
  /\ derivable_pt_lim (half_loss (evens tiny_batch) (evens tiny_labels)) 1
       (exp 1 / (exp 1 + 1) - 1)
  /\ derivable_pt_lim
       (fun z =>
          autograd.eval z
            (IRM.forward IRM.InvariancePenaltyLoss_init tiny_batch
               tiny_labels))
       1
       (IRM.item IRM.InvariancePenaltyLoss_init
          (autograd.backward_graph
             (IRM.forward IRM.InvariancePenaltyLoss_init tiny_batch
                tiny_labels))).
Proof.
  destruct (@invariance_penalty_is_gradient_product
              IRM.InvariancePenaltyLoss_init tiny_batch tiny_labels)
    as (_ & _ & H & D & A).
  - repeat constructor.
  - simpl. lia.
  - split; [exact H|].
    destruct (A 0) as (A0 & _). destruct (A 1) as (A1 & _).
    destruct (gradient_value 0) as [E0 _].
    destruct (gradient_value 1) as [E1 _].
    rewrite E0 in A0. rewrite E1 in A1.
    split; [exact A0|]. split; [exact A1|exact D].
Defined.

(** C7: exchanging the sub-batch that gives [grad_1] with the one that gives
    [grad_2] does not change the value of the penalty. *)
Theorem invariance_penalty_swap (self : IRM.InvariancePenaltyLoss)
  (y : tensor) (l : labels) :
  IRM.item self (IRM.forward_swapped self y l)
  = IRM.item self (IRM.forward self y l).
Proof.
  unfold IRM.item, IRM.forward_swapped, IRM.forward, IRM.grad_1, IRM.grad_2,
    IRM.loss_1, IRM.loss_2.
  simpl. ring.
Qed.

(** ** Reasoning on computations *)

Section MonadFacts.
Context {Self : Type}.
Implicit Types s : state Self.

Lemma wp_bind {A B : Type} (m : M Self A) (k : A -> M Self B) s Qok Qex :
  wp m s
    (fun a s1 e1 =>
       wp (k a) s1 (fun b s2 e2 => Qok b s2 (e1 ++ e2))
         (fun x s2 e2 => Qex x s2 (e1 ++ e2)))
    Qex ->
  wp (bind m k) s Qok Qex.
Proof.
  unfold wp, bind. destruct (result (m s)) as [a|x]; simpl; [|auto].
  destruct (result (k a (final (m s)))); auto.
Qed.

Lemma wp_bind_inv {A B : Type} (m : M Self A) (k : A -> M Self B) s Qok Qex :
  wp (bind m k) s Qok Qex ->
  wp m s
    (fun a s1 e1 =>
       wp (k a) s1 (fun b s2 e2 => Qok b s2 (e1 ++ e2))
         (fun x s2 e2 => Qex x s2 (e1 ++ e2)))
    Qex.
Proof.
  unfold wp, bind. destruct (result (m s)) as [a|x]; simpl; [|auto].
  destruct (result (k a (final (m s)))); auto.
Qed.

Lemma wp_conseq {A : Type} (m : M Self A) s
  (Qok Qok' : A -> state Self -> list event -> Prop)
  (Qex Qex' : exn -> state Self -> list event -> Prop) :
  wp m s Qok Qex ->
  (forall a s' e, Qok a s' e -> Qok' a s' e) ->
  (forall x s' e, Qex x s' e -> Qex' x s' e) ->
  wp m s Qok' Qex'.
Proof. unfold wp. destruct (result (m s)); auto. Qed.

Lemma wp_ret {A : Type} (a : A) s
  (Qok : A -> state Self -> list event -> Prop) Qex :
  Qok a s [] -> wp (ret a) s Qok Qex.
Proof. auto. Qed.

Lemma wp_raise {A : Type} (x : exn) s
  (Qok : A -> state Self -> list event -> Prop)
  (Qex : exn -> state Self -> list event -> Prop) :
  Qex x s [] -> wp (@raise Self A x) s Qok Qex.
Proof. auto. Qed.

Lemma wp_emit (ev : event) s
  (Qok : unit -> state Self -> list event -> Prop) Qex :
  Qok tt s [ev] -> wp (emit ev) s Qok Qex.
Proof. auto. Qed.

Lemma wp_intro {A : Type} (m : M Self A) s
  (Qok : A -> state Self -> list event -> Prop)
  (Qex : exn -> state Self -> list event -> Prop) :
  (forall a, result (m s) = Ok a -> Qok a (final (m s)) (emitted (m s))) ->
  (forall x, result (m s) = Raise x ->
             Qex x (final (m s)) (emitted (m s))) ->
  wp m s Qok Qex.
Proof. unfold wp. destruct (result (m s)); auto. Qed.

Lemma wp_ok {A : Type} (m : M Self A) s Qok Qex (a : A) :
  wp m s Qok Qex -> result (m s) = Ok a ->
  Qok a (final (m s)) (emitted (m s)).
Proof. unfold wp. intros H E. rewrite E in H. exact H. Qed.

Lemma wp_ex {A : Type} (m : M Self A) s Qok Qex (x : exn) :
  wp m s Qok Qex -> result (m s) = Raise x ->
  Qex x (final (m s)) (emitted (m s)).
Proof. unfold wp. intros H E. rewrite E in H. exact H. Qed.

Lemma bind_ok {A B : Type} (m : M Self A) (k : A -> M Self B) s (a : A) :
  result (m s) = Ok a ->
  result (bind m k s) = result (k a (final (m s)))
  /\ final (bind m k s) = final (k a (final (m s)))
  /\ emitted (bind m k s) = emitted (m s) ++ emitted (k a (final (m s))).
Proof. unfold bind. intros ->. repeat split. Qed.

Lemma bind_raise {A B : Type} (m : M Self A) (k : A -> M Self B) s
  (x : exn) :
  result (m s) = Raise x ->
  result (bind m k s) = Raise x
  /\ final (bind m k s) = final (m s)
  /\ emitted (bind m k s) = emitted (m s).
Proof. unfold bind. intros ->. repeat split. Qed.

Lemma wp_elim {A : Type} (m : M Self A) s
  (Q : res A -> state Self -> list event -> Prop) :
  wp m s (fun a => Q (Ok a)) (fun x => Q (Raise x)) ->
  Q (result (m s)) (final (m s)) (emitted (m s)).
Proof. unfold wp. destruct (result (m s)); auto. Qed.

(** The rule of the loop: [Inv done s e] holds after the elements [done]
    with [e] emitted since the start. *)
Lemma wp_for_each_from {A : Type} (body : A -> M Self unit)
  (Inv : list A -> state Self -> list event -> Prop)
  (Qex : exn -> state Self -> list event -> Prop) :
  (forall done x s e,
      Inv done s e ->
      wp (body x) s (fun _ s' e' => Inv (done ++ [x]) s' (e ++ e'))
        (fun ex s' e' => Qex ex s' (e ++ e'))) ->
  forall rest done s e,
    Inv done s e ->
    wp (for_each rest body) s
      (fun _ s' e' => Inv (done ++ rest) s' (e ++ e'))
      (fun ex s' e' => Qex ex s' (e ++ e')).
Proof.
  intros Hbody. induction rest as [|x rest IH]; intros done s e HI.
  - simpl. apply wp_ret. rewrite !app_nil_r. exact HI.
  - simpl. apply wp_bind.
    eapply wp_conseq; [apply (Hbody done x s e HI)| |].
    + intros u s1 e1 HI1. cbv beta.
      eapply wp_conseq; [apply (IH (done ++ [x]) s1 (e ++ e1) HI1)| |].
      * intros u2 s2 e2 H2. cbv beta in *.
        rewrite <- ?app_assoc in H2. rewrite <- ?app_assoc. exact H2.
      * intros ex s2 e2 H2. cbv beta in *.
        rewrite <- ?app_assoc in H2. rewrite <- ?app_assoc. exact H2.
    + auto.
Qed.

Lemma wp_for_each {A : Type} (body : A -> M Self unit) (l : list A)
  (Inv : list A -> state Self -> list event -> Prop)
  (Qex : exn -> state Self -> list event -> Prop) s :
  Inv [] s [] ->
  (forall done x s e,
      Inv done s e ->
      wp (body x) s (fun _ s' e' => Inv (done ++ [x]) s' (e ++ e'))
        (fun ex s' e' => Qex ex s' (e ++ e'))) ->
  wp (for_each l body) s (fun _ s' e' => Inv l s' e') Qex.
Proof.
  intros H0 Hbody.
  exact (wp_for_each_from body Inv Qex Hbody l [] s [] H0).
Qed.

Section Sat.
Variable Rel : state Self -> state Self -> list event -> Prop.
Hypothesis R_refl : forall s, Rel s s [].
Hypothesis R_trans :
  forall s1 s2 s3 e1 e2,
    Rel s1 s2 e1 -> Rel s2 s3 e2 -> Rel s1 s3 (e1 ++ e2).

Lemma sat_ret {A : Type} (a : A) : sat Rel (ret a).
Proof. intros s. apply R_refl. Qed.

Lemma sat_raise {A : Type} (x : exn) : sat Rel (@raise Self A x).
Proof. intros s. apply R_refl. Qed.

Lemma sat_bind {A B : Type} (m : M Self A) (k : A -> M Self B) :
  sat Rel m -> (forall a, sat Rel (k a)) -> sat Rel (bind m k).
Proof.
  intros Hm Hk s. unfold bind.
  destruct (result (m s)) as [a|x] eqn:E; simpl.
  - eapply R_trans; [apply Hm|apply Hk].
  - apply Hm.
Qed.

Lemma sat_for_each {A : Type} (l : list A) (body : A -> M Self unit) :
  (forall x, sat Rel (body x)) -> sat Rel (for_each l body).
Proof.
  intros Hb. induction l as [|x l IH]; simpl.
  - apply sat_ret.
  - apply sat_bind; auto.
Qed.

Lemma sat_if {A : Type} (b : bool) (m1 m2 : M Self A) :
  sat Rel m1 -> sat Rel m2 -> sat Rel (if b then m1 else m2).
Proof. destruct b; auto. Qed.

Lemma sat_get_vars : sat Rel get_vars.
Proof. intros s. apply R_refl. Qed.

Lemma sat_get_self : sat Rel get_self.
Proof. intros s. apply R_refl. Qed.

Lemma sat_index {A : Type} (l : list A) (i : nat) : sat Rel (index l i).
Proof. unfold index. destruct (nth_error l i); [apply sat_ret|apply sat_raise]. Qed.

Lemma sat_float_div (x : R) (n : nat) : sat Rel (float_div x n).
Proof.
  unfold float_div. destruct (Nat.eqb n 0); [apply sat_raise|apply sat_ret].
Qed.
End Sat.
End MonadFacts.

Arguments sat_ret {Self} [Rel] R_refl {A} a s.
Arguments sat_raise {Self} [Rel] R_refl {A} x s.
Arguments sat_get_vars {Self} [Rel] R_refl s.
Arguments sat_get_self {Self} [Rel] R_refl s.
Arguments sat_index {Self} [Rel] R_refl {A} l i s.
Arguments sat_float_div {Self} [Rel] R_refl x n s.

(** ** Frame facts *)

Lemma apply_accums_app (d : metrics) (t1 t2 : list event) (start : dict) :
  apply_accums d (t1 ++ t2) start
  = apply_accums d t2 (apply_accums d t1 start).
Proof.
  revert start. induction t1 as [|e t1 IH]; intros start; simpl; auto.
  destruct e; auto.
Qed.

Lemma apply_accums_admin (d : metrics) (t : list event) (start : dict) :
  forallb admin t = true -> apply_accums d t start = start.
Proof.
  revert start. induction t as [|e t IH]; intros start H; simpl; auto.
  simpl in H. apply andb_true_iff in H. destruct H as [He Ht].
  destruct e; simpl in He; try discriminate; auto.
Qed.

Lemma admin_quiet (t : list event) :
  forallb admin t = true -> forallb quiet t = true.
Proof.
  induction t as [|e t IH]; simpl; auto. intros H.
  apply andb_true_iff in H. destruct H as [He Ht].
  rewrite (IH Ht). destruct e; simpl in *; auto.
Qed.

Section Frame.
Context {Self : Type}.
Implicit Types s : state Self.

Lemma batch_step_refl s : batch_step s s [].
Proof. repeat split. Qed.

Lemma batch_step_trans s1 s2 s3 e1 e2 :
  batch_step s1 s2 e1 -> batch_step s2 s3 e2 -> batch_step s1 s3 (e1 ++ e2).
Proof.
  intros (A1 & A2 & A3 & A4 & A5 & A6 & A7)
         (B1 & B2 & B3 & B4 & B5 & B6 & B7).
  repeat split; try congruence.
  - rewrite forallb_app, A5, B5. reflexivity.
  - rewrite apply_accums_app, <- A6. exact B6.
  - rewrite apply_accums_app, <- A7. exact B7.
Qed.

Lemma admin_step_refl s : admin_step s s [].
Proof. split; reflexivity. Qed.

Lemma admin_step_trans s1 s2 s3 e1 e2 :
  admin_step s1 s2 e1 -> admin_step s2 s3 e2 -> admin_step s1 s3 (e1 ++ e2).
Proof.
  intros [A1 A2] [B1 B2]. split; [congruence|].
  rewrite forallb_app, A2, B2. reflexivity.
Qed.

Lemma admin_batch_step s s' e : admin_step s s' e -> batch_step s s' e.
Proof.
  intros [A1 A2]. unfold batch_step. rewrite A1.
  rewrite !apply_accums_admin by exact A2.
  repeat split. apply admin_quiet. exact A2.
Qed.

Lemma sat_admin_batch {A : Type} (m : M Self A) :
  sat admin_step m -> sat batch_step m.
Proof. intros H s. apply admin_batch_step. apply H. Qed.

(** The calls to the collaborators leave the locals alone. *)
Lemma admin_emit (ev : event) : admin ev = true -> sat admin_step (@emit Self ev).
Proof. intros H s. split; simpl; [reflexivity|rewrite H; reflexivity]. Qed.

Lemma admin_tick : sat admin_step (@tick Self).
Proof. intros s. split; reflexivity. Qed.

Lemma admin_put_self (x : Self) : sat admin_step (put_self x).
Proof. intros s. split; reflexivity. Qed.

Lemma admin_get_next_batch (O : Oracle) (key : pyval) :
  sat admin_step (@get_next_batch Self O key).
Proof. intros s. split; reflexivity. Qed.

Lemma admin_call (O : Oracle) (n : net) (x : tensor) :
  sat admin_step (@call Self O n x).
Proof. intros s. split; reflexivity. Qed.

Lemma admin_read_src : sat admin_step (@read_src Self).
Proof.
  intros s. unfold read_src, bind. simpl.
  destruct (src (vars s)); split; reflexivity.
Qed.

Lemma admin_read_tradeoff (i : nat) : sat admin_step (@read_tradeoff Self i).
Proof.
  intros s. unfold read_tradeoff, bind, index. simpl.
  destruct (nth_error (tradeoff (vars s)) i); split; reflexivity.
Qed.

Lemma admin_source_batch (O : Oracle) (target : tensor * labels) :
  sat admin_step (@source_batch Self O target).
Proof.
  unfold source_batch.
  apply (sat_bind admin_step_trans); [apply admin_read_src|].
  intros v. destruct (not_None v).
  - apply admin_get_next_batch.
  - apply (sat_ret admin_step_refl).
Qed.

Lemma batch_acc_add (key : string) (v : R) :
  sat batch_step (@acc_add Self key v).
Proof. intros s. repeat split. Qed.

Lemma batch_loss_add (key : string) (v : R) :
  sat batch_step (@loss_add Self key v).
Proof. intros s. repeat split. Qed.
End Frame.

Create HintDb admin_db.
Create HintDb batch_db.

#[export] Hint Resolve admin_tick admin_put_self admin_get_next_batch
  admin_call admin_read_src admin_read_tradeoff admin_source_batch
  : admin_db.
#[export] Hint Resolve batch_acc_add batch_loss_add : batch_db.

(** Steps through a computation built from [bind]: the relation holds of
    each piece. *)
Ltac sat_split :=
  match goal with
  | |- sat _ (let _ := _ in _) => cbv zeta
  | |- sat _ (if ?b then _ else _) => destruct b
  | |- sat _ (match ?x with _ => _ end) => destruct x
  | |- sat _ (let (_, _) := ?x in _) => destruct x
  end.

Ltac admin_auto :=
  repeat first
    [ solve [apply admin_emit; reflexivity]
    | solve [auto with admin_db]
    | apply (sat_bind (@admin_step_trans _)); [|intro]
    | apply (sat_ret (@admin_step_refl _))
    | apply (sat_raise (@admin_step_refl _))
    | apply (sat_get_vars (@admin_step_refl _))
    | apply (sat_get_self (@admin_step_refl _))
    | apply (sat_index (@admin_step_refl _))
    | apply (sat_for_each (@admin_step_refl _) (@admin_step_trans _)); intro
    | sat_split ].

Ltac batch_auto :=
  repeat first
    [ solve [auto with batch_db]
    | solve [apply sat_admin_batch;
             first [apply admin_emit; reflexivity | auto with admin_db]]
    | apply (sat_bind (@batch_step_trans _)); [|intro]
    | apply (sat_ret (@batch_step_refl _))
    | apply (sat_raise (@batch_step_refl _))
    | apply (sat_get_vars (@batch_step_refl _))
    | apply (sat_get_self (@batch_step_refl _))
    | apply (sat_index (@batch_step_refl _))
    | apply (sat_for_each (@batch_step_refl _) (@batch_step_trans _)); intro
    | sat_split ].

Lemma MCD_train_batch_frame (O : Oracle) (target : tensor * labels) :
  sat batch_step (MCD.train_batch O target).
Proof.
  unfold MCD.train_batch, MCD.minimize_discrepancy, zero_grad, step, backward.
  destruct target as [target_data target_labels].
  batch_auto.
Qed.

Lemma MCD_val_batch_frame (O : Oracle) (target : tensor * labels) :
  sat batch_step (MCD.val_batch O target).
Proof.
  unfold MCD.val_batch. destruct target as [target_data target_labels].
  batch_auto.
Qed.

Lemma admin_set_mode {Self : Type} (n : net) (b : bool) :
  sat admin_step (@set_mode Self n b).
Proof. apply admin_emit. reflexivity. Qed.

#[export] Hint Resolve admin_set_mode : admin_db.

Lemma MCD_modes_frame (b : bool) :
  sat admin_step
    (set_mode (Self := MCD.Trainset) G b ;; set_mode C1 b ;; set_mode C2 b).
Proof. admin_auto. Qed.

(** *** IRM *)

Lemma IRM_read_optimizer_frame : sat admin_step IRM.read_optimizer.
Proof. unfold IRM.read_optimizer. admin_auto. Qed.

Lemma IRM_set_scale_frame (t : leaf_tensor) : sat admin_step (IRM.set_scale t).
Proof. unfold IRM.set_scale. admin_auto. Qed.

#[export] Hint Resolve IRM_read_optimizer_frame IRM_set_scale_frame : admin_db.

Lemma IRM_zero_grad_frame : sat admin_step IRM.optimizer_zero_grad.
Proof. unfold IRM.optimizer_zero_grad, zero_grad. admin_auto. Qed.

Lemma IRM_step_frame (O : Oracle) : sat admin_step (IRM.optimizer_step O).
Proof. unfold IRM.optimizer_step, step. admin_auto. Qed.

Lemma IRM_backward_frame (loss : autograd.node) :
  sat admin_step (IRM.loss_backward loss).
Proof. unfold IRM.loss_backward, backward. admin_auto. Qed.

Lemma IRM_call_model_frame (O : Oracle) (x : tensor) :
  sat admin_step (IRM.call_model O x).
Proof. intros s. split; reflexivity. Qed.

#[export] Hint Resolve IRM_zero_grad_frame IRM_step_frame IRM_backward_frame
  IRM_call_model_frame : admin_db.

Lemma IRM_train_batch_frame (O : Oracle) (target : tensor * labels) :
  sat batch_step (IRM.train_batch O target).
Proof.
  unfold IRM.train_batch. destruct target as [target_data target_labels].
  batch_auto.
Qed.

Lemma IRM_val_batch_frame (O : Oracle) (target : tensor * labels) :
  sat batch_step (IRM.val_batch O target).
Proof.
  unfold IRM.val_batch. destruct target as [target_data target_labels].
  batch_auto.
Qed.

(** *** MDD *)

Lemma MDD_set_grl_frame (g : MDD.WarmStartGradientReverseLayer) :
  sat admin_step (MDD.set_grl g).
Proof. unfold MDD.set_grl. admin_auto. Qed.

#[export] Hint Resolve MDD_set_grl_frame : admin_db.

Lemma MDD_grl_step_frame : sat admin_step MDD.grl_step.
Proof. unfold MDD.grl_step. admin_auto. Qed.

#[export] Hint Resolve MDD_grl_step_frame : admin_db.

Lemma MDD_grl_forward_frame (x : tensor) : sat admin_step (MDD.grl_forward x).
Proof. unfold MDD.grl_forward. admin_auto. Qed.

#[export] Hint Resolve MDD_grl_forward_frame : admin_db.

Lemma MDD_forward_frame (O : Oracle) (x : tensor) :
  sat admin_step (MDD.GeneralModule_forward O x).
Proof. unfold MDD.GeneralModule_forward. admin_auto. Qed.

Lemma MDD_model_mode_frame (b : bool) : sat admin_step (MDD.model_mode b).
Proof. unfold MDD.model_mode. admin_auto. Qed.

#[export] Hint Resolve MDD_forward_frame MDD_model_mode_frame : admin_db.

Lemma MDD_train_batch_frame (O : Oracle) (target : tensor * labels) :
  sat batch_step (MDD.train_batch O target).
Proof.
  unfold MDD.train_batch, MDD.GeneralModule_step, zero_grad, step, backward.
  destruct target as [target_data target_labels].
  batch_auto.
Qed.

Lemma MDD_val_batch_frame (O : Oracle) (target : tensor * labels) :
  sat batch_step (MDD.val_batch O target).
Proof.
  unfold MDD.val_batch. destruct target as [target_data target_labels].
  batch_auto.
Qed.

(** ** Dictionaries and traces *)

Lemma dict_get_add (d : dict) (k k' : string) (v : R) :
  dict_get (dict_add d k v) k'
  = if String.eqb k k' then dict_get d k' + v else dict_get d k'.
Proof.
  induction d as [|[k0 x] d IH]; simpl.
  - destruct (String.eqb k k'); lra.
  - destruct (String.eqb k0 k) eqn:E0; simpl.
    + apply String.eqb_eq in E0. subst k0.
      destruct (String.eqb k k'); reflexivity.
    + destruct (String.eqb k0 k') eqn:E1.
      * apply String.eqb_eq in E1. subst k0.
        rewrite String.eqb_sym, E0. reflexivity.
      * exact IH.
Qed.

Lemma keys_dict_add (d : dict) (k : string) (v : R) :
  keys (dict_add d k v) = if existsb (String.eqb k) (keys d) then keys d
                          else keys d ++ [k].
Proof.
  induction d as [|[k0 x] d IH]; simpl; [reflexivity|].
  rewrite (String.eqb_sym k k0).
  destruct (String.eqb k0 k); simpl; [reflexivity|].
  change (map fst (dict_add d k v)) with (keys (dict_add d k v)).
  rewrite IH. change (map fst d) with (keys d).
  destruct (existsb (String.eqb k) (keys d)); reflexivity.
Qed.

Lemma existsb_eqb_In (k : string) (l : list string) :
  existsb (String.eqb k) l = true <-> In k l.
Proof.
  rewrite existsb_exists. split.
  - intros [x [Hx E]]. apply String.eqb_eq in E. subst x. exact Hx.
  - intros H. exists k. split; [exact H|apply String.eqb_refl].
Qed.

Lemma keys_dict_add_In (d : dict) (k : string) (v : R) :
  In k (keys (dict_add d k v)).
Proof.
  rewrite keys_dict_add.
  destruct (existsb (String.eqb k) (keys d)) eqn:E.
  - apply existsb_eqb_In. exact E.
  - apply in_or_app. right. left. reflexivity.
Qed.

Lemma keys_dict_add_incl (d : dict) (k k' : string) (v : R) :
  In k' (keys d) -> In k' (keys (dict_add d k v)).
Proof.
  rewrite keys_dict_add.
  destruct (existsb (String.eqb k) (keys d)); [auto|].
  intros H. apply in_or_app. left. exact H.
Qed.

Lemma keys_dict_add_NoDup (d : dict) (k : string) (v : R) :
  NoDup (keys d) -> NoDup (keys (dict_add d k v)).
Proof.
  intros H. rewrite keys_dict_add.
  destruct (existsb (String.eqb k) (keys d)) eqn:E; [exact H|].
  apply NoDup_app; [exact H|constructor; [simpl; tauto|constructor]|].
  intros x Hx [<-|[]].
  apply existsb_eqb_In in Hx. congruence.
Qed.

Lemma apply_accums_NoDup (m : metrics) (t : list event) (d : dict) :
  NoDup (keys d) -> NoDup (keys (apply_accums m t d)).
Proof.
  revert d. induction t as [|e t IH]; intros d H; simpl; [exact H|].
  destruct e; auto.
  destruct (metrics_eqb m d0); auto. apply IH.
  apply keys_dict_add_NoDup. exact H.
Qed.

Lemma apply_accums_incl (m : metrics) (t : list event) (d : dict) (k : string) :
  In k (keys d) -> In k (keys (apply_accums m t d)).
Proof.
  revert d. induction t as [|e t IH]; intros d H; simpl; [exact H|].
  destruct e; auto.
  destruct (metrics_eqb m d0); auto. apply IH.
  apply keys_dict_add_incl. exact H.
Qed.

Lemma sum_accum_app (m : metrics) (k : string) (t1 t2 : list event) :
  sum_accum m k (t1 ++ t2) = sum_accum m k t1 + sum_accum m k t2.
Proof.
  induction t1 as [|e t1 IH]; simpl; [lra|].
  destruct e; auto.
  destruct (metrics_eqb m d && String.eqb key k); lra.
Qed.

Lemma dict_get_apply_accums (m : metrics) (t : list event) (d : dict)
  (k : string) :
  dict_get (apply_accums m t d) k = dict_get d k + sum_accum m k t.
Proof.
  revert d. induction t as [|e t IH]; intros d; simpl; [lra|].
  destruct e; auto.
  rewrite IH.
  destruct (metrics_eqb m d0); simpl; [|reflexivity].
  rewrite dict_get_add. destruct (String.eqb key k); lra.
Qed.

Lemma sum_accum_none (m : metrics) (k : string) (t : list event) :
  forallb (fun e => match e with EvAccum _ _ _ => false | _ => true end) t
  = true ->
  sum_accum m k t = 0.
Proof.
  induction t as [|e t IH]; simpl; [reflexivity|].
  intros H. apply andb_true_iff in H. destruct H as [He Ht].
  destruct e; try discriminate; auto.
Qed.

Lemma admin_no_accum (t : list event) :
  forallb admin t = true ->
  forallb (fun e => match e with EvAccum _ _ _ => false | _ => true end) t
  = true.
Proof.
  induction t as [|e t IH]; simpl; [reflexivity|].
  intros H. apply andb_true_iff in H. destruct H as [He Ht].
  rewrite (IH Ht). destruct e; simpl in *; auto.
Qed.

Lemma count_tqdm_app (t1 t2 : list event) :
  count_tqdm (t1 ++ t2) = (count_tqdm t1 + count_tqdm t2)%nat.
Proof. unfold count_tqdm. rewrite filter_app, length_app. reflexivity. Qed.

Lemma count_tqdm_quiet (t : list event) :
  forallb quiet t = true -> count_tqdm t = 0%nat.
Proof.
  unfold count_tqdm. induction t as [|e t IH]; simpl; [reflexivity|].
  intros H. apply andb_true_iff in H. destruct H as [He Ht].
  destruct e; simpl in *; try discriminate; auto.
Qed.

Lemma quiet_nolog (t : list event) :
  forallb quiet t = true -> forallb nolog t = true.
Proof.
  induction t as [|e t IH]; simpl; [reflexivity|].
  intros H. apply andb_true_iff in H. destruct H as [He Ht].
  rewrite (IH Ht). destruct e; simpl in *; auto.
Qed.

Lemma val_accs_app (t1 t2 : list event) :
  val_accs (t1 ++ t2) = val_accs t1 ++ val_accs t2.
Proof.
  induction t1 as [|e t1 IH]; simpl; [reflexivity|].
  destruct e; auto.
  destruct (String.eqb phase "val" && String.eqb key "Target Data"); simpl;
    congruence.
Qed.

Lemma val_accs_nolog (t : list event) :
  forallb nolog t = true -> val_accs t = [].
Proof.
  induction t as [|e t IH]; simpl; [reflexivity|].
  intros H. apply andb_true_iff in H. destruct H as [He Ht].
  destruct e; simpl in *; try discriminate; auto.
Qed.

Lemma logged_best_app (t1 t2 : list event) :
  logged_best (t1 ++ t2) = logged_best t1 ++ logged_best t2.
Proof.
  induction t1 as [|e t1 IH]; simpl; [reflexivity|].
  destruct e; auto. simpl. congruence.
Qed.

Lemma logged_best_nolog (t : list event) :
  forallb nolog t = true -> logged_best t = [].
Proof.
  induction t as [|e t IH]; simpl; [reflexivity|].
  intros H. apply andb_true_iff in H. destruct H as [He Ht].
  destruct e; simpl in *; try discriminate; auto.
Qed.

Lemma admin_nolog (t : list event) :
  forallb admin t = true -> forallb nolog t = true.
Proof. intros H. apply quiet_nolog. apply admin_quiet. exact H. Qed.

(** ** The loop over the batches *)

Section LoopFacts.
Context {Self : Type}.
Implicit Types s : state Self.

Lemma loop_step_refl s : loop_step s s [].
Proof. repeat split. Qed.

Lemma loop_step_trans s1 s2 s3 e1 e2 :
  loop_step s1 s2 e1 -> loop_step s2 s3 e2 -> loop_step s1 s3 (e1 ++ e2).
Proof.
  intros (A1 & A2 & A3 & A4 & A5 & A6 & A7)
         (B1 & B2 & B3 & B4 & B5 & B6 & B7).
  repeat split; try congruence.
  - rewrite forallb_app, A5, B5. reflexivity.
  - rewrite apply_accums_app, <- A6. exact B6.
  - rewrite apply_accums_app, <- A7. exact B7.
Qed.

Lemma batch_loop_step s s' e : batch_step s s' e -> loop_step s s' e.
Proof.
  intros (A1 & A2 & A3 & A4 & A5 & A6 & A7).
  repeat split; auto. apply quiet_nolog. exact A5.
Qed.

Lemma wp_of_sat {A : Type} (Rel : state Self -> state Self -> list event -> Prop)
  (m : M Self A) s
  (Qok : A -> state Self -> list event -> Prop)
  (Qex : exn -> state Self -> list event -> Prop) :
  sat Rel m ->
  (forall a s' e, Rel s s' e -> Qok a s' e) ->
  (forall x s' e, Rel s s' e -> Qex x s' e) ->
  wp m s Qok Qex.
Proof.
  intros H Hok Hex. unfold wp. specialize (H s).
  destruct (result (m s)); auto.
Qed.

Lemma for_each_emit {A : Type} (l : list A) (f : locals -> A -> event) s :
  for_each l (fun x => v <- get_vars ;; emit (f v x)) s
  = {| result := Ok tt; final := s; emitted := map (f (vars s)) l |}.
Proof.
  induction l as [|x l IH]; [reflexivity|].
  simpl for_each. unfold bind at 1. simpl.
  rewrite IH. reflexivity.
Qed.

Lemma log_accs_run (phase : string) (n : nat) s :
  log_accs phase n s
  = {| result := Ok tt; final := s;
       emitted := acc_lines phase n (epoch_acc (vars s)) |}.
Proof.
  unfold log_accs, bind at 1. simpl.
  rewrite (for_each_emit (keys (epoch_acc (vars s)))
             (fun v key => EvLogAcc phase key
                             (dict_get (epoch_acc v) key / INR n))).
  reflexivity.
Qed.
End LoopFacts.

(** ** One phase *)

Section PhaseFacts.
Context {Self : Type}.
Variable O : Oracle.
Variable P : Orchestration.Pieces Self.
Implicit Types s : state Self.

Hypothesis H_tb : forall t, sat batch_step (Orchestration.train_batch P t).
Hypothesis H_vb : forall t, sat batch_step (Orchestration.val_batch P t).
Hypothesis H_on : sat admin_step (Orchestration.train_mode_on P).
Hypothesis H_off : sat admin_step (Orchestration.train_mode_off P).
Hypothesis H_ll :
  forall phase n s,
    result (Orchestration.log_losses P phase n s) = Ok tt
    /\ final (Orchestration.log_losses P phase n s) = s
    /\ loss_lines phase n (epoch_loss (vars s))
         (emitted (Orchestration.log_losses P phase n s)).

Hypothesis H_vk :
  forall t s,
    result (Orchestration.val_batch P t s) = Ok tt ->
    In "Target Data"%string
      (keys (epoch_acc (vars (final (Orchestration.val_batch P t s))))).

Lemma run_batch_step (phase : string) (i : nat) s :
  let o := Orchestration.run_batch O P phase i s in
  loop_step s (final o) (emitted o) /\ count_tqdm (emitted o) = 1%nat
  /\ (String.eqb phase "train" = false -> result o = Ok tt ->
      In "Target Data"%string (keys (epoch_acc (vars (final o))))).
Proof.
  unfold Orchestration.run_batch.
  set (s1 := {| self := self s; clock := S (clock s); vars := vars s |}).
  set (b := next_batch O (clock s) (PyStr phase)).
  set (hook := if String.eqb phase "train"
               then Orchestration.train_batch P b
               else Orchestration.val_batch P b).
  assert (Hh : batch_step s1 (final (hook s1)) (emitted (hook s1))).
  { unfold hook. destruct (String.eqb phase "train");
      [apply H_tb|apply H_vb]. }
  assert (E : emitted
                ((emit (EvTqdm i) ;;
                  target <- get_next_batch O (PyStr phase) ;;
                  (if String.eqb phase "train"
                   then Orchestration.train_batch P target
                   else Orchestration.val_batch P target)) s)
              = EvTqdm i :: EvNextBatch (PyStr phase) (fst b) (snd b)
                  :: emitted (hook s1)).
  { unfold bind, emit, get_next_batch, tick, ret. simpl.
    fold s1 b hook. destruct (result (hook s1)); reflexivity. }
  assert (F : final
                ((emit (EvTqdm i) ;;
                  target <- get_next_batch O (PyStr phase) ;;
                  (if String.eqb phase "train"
                   then Orchestration.train_batch P target
                   else Orchestration.val_batch P target)) s)
              = final (hook s1)).
  { unfold bind, emit, get_next_batch, tick, ret. simpl.
    fold s1 b hook. destruct (result (hook s1)); reflexivity. }
  assert (Rs : result
                ((emit (EvTqdm i) ;;
                  target <- get_next_batch O (PyStr phase) ;;
                  (if String.eqb phase "train"
                   then Orchestration.train_batch P target
                   else Orchestration.val_batch P target)) s)
              = result (hook s1)).
  { unfold bind, emit, get_next_batch, tick, ret. simpl.
    fold s1 b hook. destruct (result (hook s1)); reflexivity. }
  cbv zeta. rewrite E, F, Rs.
  destruct Hh as (A1 & A2 & A3 & A4 & A5 & A6 & A7).
  split; [|split].
  - repeat split; auto.
    simpl. apply quiet_nolog. exact A5.
  - unfold count_tqdm. simpl. f_equal. apply count_tqdm_quiet. exact A5.
  - intros Hp Hr. unfold hook in *. rewrite Hp in *. apply H_vk. exact Hr.
Qed.

Lemma batches_loop (phase : string) (n : nat) s :
  wp (for_each (range n) (Orchestration.run_batch O P phase)) s
    (fun _ s' e =>
       loop_step s s' e /\ count_tqdm e = n
       /\ (String.eqb phase "train" = false -> n <> 0%nat ->
           In "Target Data"%string (keys (epoch_acc (vars s'))))
       /\ (n = 0%nat -> e = []))
    (fun _ s' e => loop_step s s' e).
Proof.
  eapply wp_conseq.
  - apply (wp_for_each (Orchestration.run_batch O P phase) (range n)
             (fun done s' e =>
                loop_step s s' e /\ count_tqdm e = length done
                /\ (String.eqb phase "train" = false -> done <> [] ->
                    In "Target Data"%string (keys (epoch_acc (vars s'))))
                /\ (done = [] -> e = []))
             (fun _ s' e => loop_step s s' e)).
    + split; [apply loop_step_refl|]. split; [reflexivity|].
      split; [intros _ H; congruence|reflexivity].
    + intros done x s1 e (L & C & K & Z).
      destruct (run_batch_step phase x s1) as (L1 & C1 & K1).
      apply wp_intro.
      * intros [] Hr. split; [|split; [|split]].
        -- eapply loop_step_trans; eassumption.
        -- rewrite count_tqdm_app, C, C1, length_app. reflexivity.
        -- intros Hp _. apply K1; assumption.
        -- intros H. destruct done; discriminate.
      * intros ex Hr. eapply loop_step_trans; eassumption.
  - intros _ s' e (L & C & K & Z). split; [exact L|]. split; [|split].
    + rewrite C. unfold range. apply length_seq.
    + intros Hp Hn. apply K; [exact Hp|].
      unfold range. destruct n; [congruence|discriminate].
    + intros ->. apply Z. reflexivity.
  - auto.
Qed.

Lemma acc_lookup_run (key : string) s :
  acc_lookup key s
  = {| result := Ok (dict_get (epoch_acc (vars s)) key);
       final :=
         {| self := self s; clock := clock s;
            vars := {| src := src (vars s); best_acc := best_acc (vars s);
                       best_epoch := best_epoch (vars s);
                       epoch_acc := dict_touch (epoch_acc (vars s)) key;
                       epoch_loss := epoch_loss (vars s);
                       tradeoff := tradeoff (vars s) |} |};
       emitted := [] |}.
Proof. reflexivity. Qed.

Lemma log_best_model_zero (epoch : nat) s :
  let o := log_best_model (Self := Self) epoch 0 s in
  result o = Raise ZeroDivisionError /\ emitted o = []
  /\ best_of (vars (final o)) = best_of (vars s)
  /\ src (vars (final o)) = src (vars s).
Proof. repeat split. Qed.

Lemma log_best_model_pos (epoch n : nat) s :
  n <> 0%nat ->
  let o := log_best_model (Self := Self) epoch n s in
  let b := update_best (best_of (vars s)) epoch
             (dict_get (epoch_acc (vars s)) "Target Data" / INR n) in
  result o = Ok tt
  /\ best_of (vars (final o)) = b
  /\ emitted o = [EvLogBest (snd b) (fst b)]
  /\ src (vars (final o)) = src (vars s).
Proof.
  intros Hn. unfold log_best_model, float_div.
  destruct n as [|n]; [congruence|].
  unfold update_best, best_of, bind. simpl.
  destruct (Rge_dec _ _); simpl; repeat split.
Qed.

(** The set-up of a phase, after [epoch_acc] is reset. *)
Lemma setup_block (epoch : nat) (phase : string) s :
  wp (if String.eqb phase "train"
      then Orchestration.train_mode_on P ;;
           set_epoch_loss [] ;;
           t <- _get_tradeoff O epoch ;; set_tradeoff t
      else Orchestration.train_mode_off P) s
    (fun _ s1 e1 =>
       forallb admin e1 = true /\ src (vars s1) = src (vars s)
       /\ best_of (vars s1) = best_of (vars s)
       /\ epoch_acc (vars s1) = epoch_acc (vars s)
       /\ (String.eqb phase "train" = true -> epoch_loss (vars s1) = []))
    (fun _ s1 e1 =>
       forallb admin e1 = true /\ src (vars s1) = src (vars s)
       /\ best_of (vars s1) = best_of (vars s)).
Proof.
  destruct (String.eqb phase "train").
  - apply wp_bind.
    apply (wp_of_sat (Rel := admin_step)); [exact H_on| |].
    + intros _ s1 e1 [V A]. unfold wp, bind. simpl.
      rewrite forallb_app, A, V. simpl. repeat split.
    + intros _ s1 e1 [V A]. rewrite V. repeat split. exact A.
  - apply (wp_of_sat (Rel := admin_step)); [exact H_off| |].
    + intros _ s1 e1 [V A]. rewrite V. repeat split; [exact A|].
      discriminate.
    + intros _ s1 e1 [V A]. rewrite V. repeat split. exact A.
Qed.

(** The end of a phase, after the loop. *)
Lemma post_block (n epoch : nat) (phase : string) s :
  let o := ((if String.eqb phase "train"
             then Orchestration.log_losses P phase n else ret tt) ;;
            log_accs phase n ;;
            (if String.eqb phase "val" then log_best_model epoch n
             else ret tt)) s in
  exists e_ll e_best,
    emitted o = e_ll ++ acc_lines phase n (epoch_acc (vars s)) ++ e_best
    /\ (if String.eqb phase "train"
        then loss_lines phase n (epoch_loss (vars s)) e_ll
        else e_ll = [])
    /\ src (vars (final o)) = src (vars s)
    /\ (if String.eqb phase "val"
        then (n = 0%nat /\ e_best = []
              /\ result o = Raise ZeroDivisionError
              /\ best_of (vars (final o)) = best_of (vars s))
             \/ (n <> 0%nat /\ result o = Ok tt
                 /\ best_of (vars (final o))
                    = update_best (best_of (vars s)) epoch
                        (dict_get (epoch_acc (vars s)) "Target Data"
                         / INR n)
                 /\ e_best
                    = [EvLogBest (snd (best_of (vars (final o))))
                         (fst (best_of (vars (final o))))])
        else e_best = [] /\ result o = Ok tt
             /\ best_of (vars (final o)) = best_of (vars s)).
Proof.
  set (m1 := if String.eqb phase "train"
             then Orchestration.log_losses P phase n else ret tt).
  set (m3 := if String.eqb phase "val" then log_best_model epoch n
             else ret tt).
  assert (H1 : result (m1 s) = Ok tt /\ final (m1 s) = s
               /\ (if String.eqb phase "train"
                   then loss_lines phase n (epoch_loss (vars s))
                          (emitted (m1 s))
                   else emitted (m1 s) = [])).
  { unfold m1. destruct (String.eqb phase "train").
    - apply H_ll.
    - repeat split. }
  destruct H1 as (R1 & F1 & E1).
  destruct (bind_ok m1 (fun _ => log_accs phase n ;; m3) s R1)
    as (Rb & Fb & Eb).
  rewrite F1 in Rb, Fb, Eb.
  assert (R2 : result (log_accs phase n s) = Ok tt)
    by (rewrite log_accs_run; reflexivity).
  destruct (bind_ok (log_accs phase n) (fun _ => m3) s R2)
    as (Rc & Fc & Ec).
  rewrite log_accs_run in Rc, Fc, Ec. simpl in Rc, Fc, Ec.
  cbv zeta. rewrite Rb, Fb, Eb, Rc, Fc, Ec.
  exists (emitted (m1 s)), (emitted (m3 s)).
  split; [reflexivity|]. split; [exact E1|].
  unfold m3. destruct (String.eqb phase "val").
  - destruct (Nat.eq_dec n 0) as [->|Hn].
    + destruct (log_best_model_zero epoch s) as (A & B & C & D).
      split; [exact D|]. left. repeat split; assumption.
    + destruct (log_best_model_pos epoch s Hn) as (A & B & C & D).
      split; [exact D|]. right. split; [exact Hn|]. split; [exact A|].
      split; [exact B|]. rewrite C, B. reflexivity.
  - repeat split.
Qed.

(** The outcome of a phase has the shape [phase_shape]. *)
Lemma run_phase_shape (epoch : nat) (phase : string) s :
  let o := Orchestration.run_phase O P epoch phase s in
  phase_shape (len_iters O phase) epoch phase (vars s)
    (result o) (vars (final o)) (emitted o).
Proof.
  cbv zeta.
  apply (wp_elim (Orchestration.run_phase O P epoch phase) s
           (fun r s' e =>
              phase_shape (len_iters O phase) epoch phase (vars s) r
                (vars s') e)).
  unfold Orchestration.run_phase.
  apply wp_bind. unfold wp at 1. simpl result. simpl final. simpl emitted.
  cbv beta iota.
  apply wp_bind.
  eapply wp_conseq; [apply setup_block| |].
  - intros _ s1 e1 (A1 & S1 & B1 & EA1 & EL1).
    unfold best_of in B1. simpl in S1, B1, EA1.
    cbv zeta. apply wp_bind.
    eapply wp_conseq; [apply batches_loop| |].
    + intros _ s2 e2 (L2 & C2 & K2 & ZE).
      destruct L2 as (L21 & L22 & L23 & L24 & L25 & L26 & L27).
      rewrite EA1 in L26.
      assert (HB : best_of (vars s2) = best_of (vars s))
        by (unfold best_of; congruence).
      assert (HS : src (vars s2) = src (vars s)) by congruence.
      destruct (post_block (len_iters O phase) epoch phase s2)
        as (e_ll & e_best & E & LL & SR & BB).
      cbv zeta in E, SR, BB. rewrite HB, L26 in BB. rewrite L26 in E.
      assert (LL' : if String.eqb phase "train"
                    then loss_lines phase (len_iters O phase)
                           (apply_accums epoch_loss_dict e2 []) e_ll
                    else e_ll = []).
      { destruct (String.eqb phase "train"); [|exact LL].
        rewrite L27, (EL1 eq_refl) in LL. exact LL. }
      apply wp_intro.
      * intros a Hr. cbv beta. rewrite Hr in BB.
        exists e1, e2. split; [exact A1|]. split; [exact L25|].
        split; [congruence|]. right. split; [exact C2|].
        split; [exact ZE|].
        split; [rewrite <- L26; exact K2|].
        exists e_ll, e_best.
        split; [simpl; rewrite E; reflexivity|]. split; [exact LL'|].
        destruct (String.eqb phase "val").
        -- destruct BB as [(Z1 & Z2 & Z3 & Z4)|(Z1 & Z2 & Z3 & Z4)];
             [discriminate|].
           right. destruct a. repeat split; assumption.
        -- destruct BB as (Z1 & Z2 & Z3). destruct a.
           repeat split; assumption.
      * intros x Hr. cbv beta. rewrite Hr in BB.
        exists e1, e2. split; [exact A1|]. split; [exact L25|].
        split; [congruence|]. right. split; [exact C2|].
        split; [exact ZE|].
        split; [rewrite <- L26; exact K2|].
        exists e_ll, e_best.
        split; [simpl; rewrite E; reflexivity|]. split; [exact LL'|].
        destruct (String.eqb phase "val").
        -- destruct BB as [(Z1 & Z2 & Z3 & Z4)|(Z1 & Z2 & Z3 & Z4)];
             [|discriminate].
           left. repeat split; assumption.
        -- destruct BB as (Z1 & Z2 & Z3). discriminate.
    + intros x s2 e2 L2.
      destruct L2 as (L21 & L22 & L23 & L24 & L25 & L26 & L27).
      exists e1, e2. split; [exact A1|]. split; [exact L25|].
      split; [congruence|]. left. split; [reflexivity|].
      split; [exists x; reflexivity|].
      unfold best_of. congruence.
  - intros x s1 e1 (A1 & S1 & B1). unfold best_of in B1.
    simpl in S1, B1.
    exists e1, []. split; [exact A1|]. split; [reflexivity|].
    split; [exact S1|]. left. rewrite app_nil_r. split; [reflexivity|].
    split; [exists x; reflexivity|exact B1].
Qed.

Lemma only_logs_app (t1 t2 : list event) :
  only_logs t1 -> only_logs t2 -> only_logs (t1 ++ t2).
Proof. unfold only_logs. intros H1 H2. rewrite forallb_app, H1, H2. reflexivity. Qed.

Lemma only_logs_sum (m : metrics) (k : string) (t : list event) :
  only_logs t -> sum_accum m k t = 0.
Proof.
  unfold only_logs. induction t as [|e t IH]; simpl; [reflexivity|].
  intros H. apply andb_true_iff in H. destruct H as [He Ht].
  destruct e; simpl in He; try discriminate; auto.
Qed.

Lemma only_logs_tqdm (t : list event) : only_logs t -> count_tqdm t = 0%nat.
Proof.
  unfold only_logs, count_tqdm. induction t as [|e t IH]; simpl;
    [reflexivity|].
  intros H. apply andb_true_iff in H. destruct H as [He Ht].
  destruct e; simpl in He; try discriminate; auto.
Qed.

Lemma acc_lines_only_logs (phase : string) (n : nat) (d : dict) :
  only_logs (acc_lines phase n d).
Proof.
  unfold only_logs, acc_lines. induction (keys d); simpl; auto.
Qed.

Lemma loss_lines_only_logs (phase : string) (n : nat) (d : dict)
  (t : list event) :
  loss_lines phase n d t -> only_logs t.
Proof.
  unfold only_logs, loss_lines. induction 1 as [|e t [k ->] _ IH]; simpl;
    auto.
Qed.

Lemma nolog_not_log (t : list event) (ev : event) :
  forallb nolog t = true -> In ev t -> nolog ev = true.
Proof. intros H Hin. rewrite forallb_forall in H. apply H. exact Hin. Qed.

Lemma nolog_count_sum (t : list event) (m : metrics) (k : string) :
  forallb admin t = true -> sum_accum m k t = 0 /\ count_tqdm t = 0%nat.
Proof.
  intros H. split.
  - apply sum_accum_none. apply admin_no_accum. exact H.
  - apply count_tqdm_quiet. apply admin_quiet. exact H.
Qed.

(** What a phase reports. *)
Lemma run_phase_reported (epoch : nat) (phase : string) s :
  let o := Orchestration.run_phase O P epoch phase s in
  reported_ok (len_iters O phase) phase (emitted o)
  /\ (result o = Ok tt -> count_tqdm (emitted o) = len_iters O phase).
Proof.
  cbv zeta. set (n := len_iters O phase).
  destruct (run_phase_shape epoch phase s)
    as (e_pre & e_loop & A & L & S
        & [(E & [x Rx] & B)|(C & Z & K & Rest)]).
  - split.
    + intros ev Hin. rewrite E in Hin.
      assert (N : nolog ev = true).
      { apply in_app_or in Hin. destruct Hin as [Hin|Hin].
        - eapply nolog_not_log; [apply admin_nolog; exact A|exact Hin].
        - eapply nolog_not_log; eassumption. }
      destruct ev; try exact I; discriminate.
    + rewrite Rx. discriminate.
  - destruct Rest as (e_ll & e_best & E & LL & BB).
    fold n in C, E, LL, BB, K.
    set (acc := apply_accums epoch_acc_dict e_loop []) in *.
    set (loss := apply_accums epoch_loss_dict e_loop []) in *.
    assert (OL : only_logs e_ll).
    { destruct (String.eqb phase "train").
      - eapply loss_lines_only_logs. exact LL.
      - rewrite LL. reflexivity. }
    assert (OB : only_logs e_best).
    { destruct (String.eqb phase "val").
      - destruct BB as [(_ & -> & _)|(_ & _ & _ & ->)]; reflexivity.
      - destruct BB as (-> & _). reflexivity. }
    assert (OA := acc_lines_only_logs phase n acc).
    assert (CT : count_tqdm
                   (e_pre ++ e_loop ++ e_ll ++ acc_lines phase n acc
                    ++ e_best) = n).
    { rewrite !count_tqdm_app, C.
      rewrite (@only_logs_tqdm _ OL), (@only_logs_tqdm _ OB),
        (@only_logs_tqdm _ OA).
      destruct (@nolog_count_sum e_pre epoch_acc_dict EmptyString A) as [_ ->]. lia. }
    assert (SM : forall m k,
               sum_accum m k
                 (e_pre ++ e_loop ++ e_ll ++ acc_lines phase n acc
                  ++ e_best)
               = sum_accum m k e_loop).
    { intros m k. rewrite !sum_accum_app.
      rewrite (@only_logs_sum m k _ OL), (@only_logs_sum m k _ OB),
        (@only_logs_sum m k _ OA).
      destruct (@nolog_count_sum e_pre m k A) as [-> _]. lra. }
    split; [|intros _; rewrite E; exact CT].
    intros ev Hin. rewrite E in Hin. rewrite E.
    destruct ev; try exact I.
    + (* a loss line *)
      apply in_app_or in Hin. destruct Hin as [Hin|Hin].
      { apply (@nolog_not_log _ _ (admin_nolog _ A)) in Hin. discriminate. }
      apply in_app_or in Hin. destruct Hin as [Hin|Hin].
      { apply (@nolog_not_log _ _ L) in Hin. discriminate. }
      apply in_app_or in Hin. destruct Hin as [Hin|Hin].
      * destruct (String.eqb phase "train"); [|rewrite LL in Hin; destruct Hin].
        unfold loss_lines in LL. rewrite Forall_forall in LL.
        destruct (LL _ Hin) as [k' Ek]. injection Ek as E1 E2 E3.
        subst phase0 key v.
        split; [reflexivity|]. split; [|exact CT].
        rewrite SM. unfold loss. rewrite dict_get_apply_accums. simpl.
        f_equal. lra.
      * apply in_app_or in Hin. destruct Hin as [Hin|Hin].
        -- unfold acc_lines in Hin. apply in_map_iff in Hin.
           destruct Hin as [k' [Ek _]]. discriminate.
        -- destruct (String.eqb phase "val").
           ++ destruct BB as [(_ & -> & _)|(_ & _ & _ & ->)];
                [destruct Hin|].
              destruct Hin as [Hin|[]]. discriminate.
           ++ destruct BB as (-> & _). destruct Hin.
    + (* an accuracy line *)
      apply in_app_or in Hin. destruct Hin as [Hin|Hin].
      { apply (@nolog_not_log _ _ (admin_nolog _ A)) in Hin. discriminate. }
      apply in_app_or in Hin. destruct Hin as [Hin|Hin].
      { apply (@nolog_not_log _ _ L) in Hin. discriminate. }
      apply in_app_or in Hin. destruct Hin as [Hin|Hin].
      * destruct (String.eqb phase "train"); [|rewrite LL in Hin; destruct Hin].
        unfold loss_lines in LL. rewrite Forall_forall in LL.
        destruct (LL _ Hin) as [k' Ek]. discriminate.
      * apply in_app_or in Hin. destruct Hin as [Hin|Hin].
        -- unfold acc_lines in Hin. apply in_map_iff in Hin.
           destruct Hin as [k' [Ek _]]. injection Ek as E1 E2 E3.
           subst phase0 key v.
           split; [reflexivity|]. split; [|exact CT].
           rewrite SM. unfold acc. rewrite dict_get_apply_accums. simpl.
           f_equal. lra.
        -- destruct (String.eqb phase "val").
           ++ destruct BB as [(_ & -> & _)|(_ & _ & _ & ->)];
                [destruct Hin|].
              destruct Hin as [Hin|[]]. discriminate.
           ++ destruct BB as (-> & _). destruct Hin.
Qed.

(** *** The record of the best model *)

Lemma val_accs_lines (phase : string) (n : nat) (d : dict)
  (ks : list string) :
  NoDup ks ->
  val_accs (map (fun k => EvLogAcc phase k (dict_get d k / INR n)) ks)
  = if String.eqb phase "val" && existsb (String.eqb "Target Data") ks
    then [dict_get d "Target Data" / INR n] else [].
Proof.
  induction 1 as [|k ks Hk _ IH]; cbn [map val_accs existsb].
  - rewrite andb_false_r. reflexivity.
  - rewrite IH. rewrite (String.eqb_sym "Target Data" k).
    destruct (String.eqb phase "val"); cbn [andb orb]; [|reflexivity].
    destruct (String.eqb k "Target Data") eqn:E; cbn [andb orb];
      [|reflexivity].
    apply String.eqb_eq in E. subst k.
    destruct (existsb (String.eqb "Target Data") ks) eqn:X;
      [|reflexivity].
    apply existsb_eqb_In in X. contradiction.
Qed.

Lemma val_accs_only_best (t : list event) :
  (t = [] \/ exists e a, t = [EvLogBest e a]) -> val_accs t = [].
Proof. intros [->|[e [a ->]]]; reflexivity. Qed.

Lemma val_accs_loss_lines (phase : string) (n : nat) (d : dict)
  (t : list event) :
  loss_lines phase n d t -> val_accs t = [] /\ logged_best t = [].
Proof.
  unfold loss_lines. induction 1 as [|e t [k ->] _ [IH1 IH2]]; simpl; auto.
Qed.

Lemma logged_best_acc_lines (phase : string) (n : nat) (d : dict) :
  logged_best (acc_lines phase n d) = [].
Proof. unfold acc_lines. induction (keys d); simpl; auto. Qed.

Lemma run_phase_best (epoch : nat) (phase : string) s :
  phase = "train"%string \/ phase = "val"%string ->
  let o := Orchestration.run_phase O P epoch phase s in
  let accs := val_accs (emitted o) in
  src (vars (final o)) = src (vars s)
  /\ best_of (vars (final o)) = best_from (best_of (vars s)) epoch accs
  /\ logged_best (emitted o) = best_trace (best_of (vars s)) epoch accs
  /\ (length accs <= 1)%nat
  /\ (phase = "train"%string -> accs = [])
  /\ (phase = "val"%string -> result o = Ok tt -> length accs = 1%nat).
Proof.
  intros Hph. cbv zeta. set (n := len_iters O phase).
  destruct (run_phase_shape epoch phase s)
    as (e_pre & e_loop & A & L & S
        & [(E & [x Rx] & B)|(C & Z & K & Rest)]).
  - (* the phase raised before its log *)
    assert (V : val_accs (emitted (Orchestration.run_phase O P epoch phase s))
                = []).
    { rewrite E, val_accs_app.
      rewrite (val_accs_nolog _ (admin_nolog _ A)), (val_accs_nolog _ L).
      reflexivity. }
    assert (LB : logged_best
                   (emitted (Orchestration.run_phase O P epoch phase s))
                 = []).
    { rewrite E, logged_best_app.
      rewrite (logged_best_nolog _ (admin_nolog _ A)),
        (logged_best_nolog _ L). reflexivity. }
    rewrite V, LB, Rx. simpl.
    repeat split; auto; try lia. intros _ H. discriminate.
  - destruct Rest as (e_ll & e_best & E & LL & BB).
    fold n in C, Z, K, E, LL, BB.
    set (acc := apply_accums epoch_acc_dict e_loop []) in *.
    assert (ND : NoDup (keys acc)).
    { unfold acc. apply apply_accums_NoDup. constructor. }
    assert (VL : val_accs e_ll = [] /\ logged_best e_ll = []).
    { destruct (String.eqb phase "train").
      - eapply val_accs_loss_lines. exact LL.
      - rewrite LL. split; reflexivity. }
    destruct VL as [VL1 VL2].
    assert (V : val_accs (emitted (Orchestration.run_phase O P epoch phase s))
                = val_accs (acc_lines phase n acc) ++ val_accs e_best).
    { rewrite E, !val_accs_app.
      rewrite (val_accs_nolog _ (admin_nolog _ A)), (val_accs_nolog _ L),
        VL1. reflexivity. }
    assert (LB : logged_best
                   (emitted (Orchestration.run_phase O P epoch phase s))
                 = logged_best e_best).
    { rewrite E, !logged_best_app.
      rewrite (logged_best_nolog _ (admin_nolog _ A)),
        (logged_best_nolog _ L), VL2, logged_best_acc_lines.
      reflexivity. }
    rewrite V, LB. unfold acc_lines. rewrite (val_accs_lines phase n acc ND).
    destruct Hph as [-> | ->].
    + (* train *)
      change (String.eqb "train" "val") with false in *.
      cbn [andb app]. destruct BB as (-> & Rr & Bb).
      cbn [val_accs logged_best best_from best_trace length].
      rewrite Bb. repeat split; auto; try lia. discriminate.
    + (* val *)
      change (String.eqb "val" "val") with true in *.
      change (String.eqb "val" "train") with false in *.
      cbn [andb].
      destruct BB as [(Z1 & -> & Rr & Bb)|(Z1 & Rr & Bb & ->)].
      * assert (Ke : keys acc = []).
        { unfold acc. rewrite (Z Z1). reflexivity. }
        rewrite Ke. cbn [existsb app val_accs logged_best best_from
                         best_trace length].
        rewrite Bb, Rr.
        repeat split; auto; try lia; discriminate.
      * assert (Kin : In "Target Data"%string (keys acc))
          by (apply K; [reflexivity|exact Z1]).
        apply existsb_eqb_In in Kin. rewrite Kin.
        cbn [app val_accs logged_best best_from best_trace length].
        rewrite Bb. repeat split; auto; try lia. discriminate.
Qed.

Lemma best_from_app (b : R * nat) (first : nat) (l1 l2 : list R) :
  best_from b first (l1 ++ l2)
  = best_from (best_from b first l1) (first + length l1) l2.
Proof.
  revert b first. induction l1 as [|a l1 IH]; intros b first; simpl.
  - rewrite Nat.add_0_r. reflexivity.
  - rewrite IH. f_equal. lia.
Qed.

Lemma best_trace_app (b : R * nat) (first : nat) (l1 l2 : list R) :
  best_trace b first (l1 ++ l2)
  = best_trace b first l1
    ++ best_trace (best_from b first l1) (first + length l1) l2.
Proof.
  revert b first. induction l1 as [|a l1 IH]; intros b first; simpl.
  - rewrite Nat.add_0_r. reflexivity.
  - rewrite IH. do 3 f_equal. lia.
Qed.

Hypothesis H_lr : sat admin_step (Orchestration.log_lr P).
Hypothesis H_sched : sat admin_step (Orchestration.sched_step P).

Lemma run_epoch_best (max_epoch epoch : nat) s :
  let o := Orchestration.run_epoch O P max_epoch epoch s in
  epoch_best epoch (vars s) (result o) (vars (final o)) (emitted o).
Proof.
  cbv zeta.
  apply (wp_elim (Orchestration.run_epoch O P max_epoch epoch) s
           (fun r s' e => epoch_best epoch (vars s) r (vars s') e)).
  unfold Orchestration.run_epoch.
  apply wp_bind. apply wp_emit. cbv beta.
  apply wp_bind.
  apply (wp_of_sat (Rel := admin_step)); [exact H_lr| |];
    intros u1 s1 e1 [V1 A1];
    pose proof (val_accs_nolog _ (admin_nolog _ A1)) as Pe1;
    pose proof (logged_best_nolog _ (admin_nolog _ A1)) as Le1.
  2:{ unfold epoch_best. rewrite V1.
      repeat (rewrite val_accs_app || rewrite logged_best_app).
      cbn [val_accs logged_best]. rewrite Pe1, Le1.
      cbn [app best_from best_trace length].
      repeat split; auto. discriminate. }
  cbv beta.
  apply wp_bind. simpl for_each.
  apply wp_bind.
  destruct (run_phase_best epoch s1 (or_introl eq_refl))
    as (PS & PB & PL & PN & PT & _).
  specialize (PT eq_refl). rewrite PT in PB, PL.
  cbn [best_from best_trace] in PB, PL.
  apply wp_intro.
  2:{ intros x Hr. cbv beta. unfold epoch_best.
      repeat (rewrite val_accs_app || rewrite logged_best_app).
      cbn [val_accs logged_best]. rewrite Pe1, Le1, PT, PL, PS, PB, V1.
      cbn [app best_from best_trace length].
      repeat split; auto. discriminate. }
  intros [] Hr. cbv beta.
  set (s2 := final (Orchestration.run_phase O P epoch "train" s1)) in *.
  set (e2 := emitted (Orchestration.run_phase O P epoch "train" s1)) in *.
  apply wp_bind.
  destruct (run_phase_best epoch s2 (or_intror eq_refl))
    as (QS & QB & QL & QN & _ & QV).
  specialize (QV eq_refl).
  set (s3 := final (Orchestration.run_phase O P epoch "val" s2)) in *.
  set (e3 := emitted (Orchestration.run_phase O P epoch "val" s2)) in *.
  assert (HB : best_of (vars s2) = best_of (vars s)) by congruence.
  rewrite HB in QB, QL.
  assert (HS : src (vars s3) = src (vars s)) by congruence.
  apply wp_intro.
  2:{ intros x Hr3. cbv beta. unfold epoch_best.
      repeat (rewrite val_accs_app || rewrite logged_best_app).
      cbn [val_accs logged_best]. rewrite Pe1, Le1, PT, PL.
      cbn [app]. repeat split; auto. discriminate. }
  intros [] Hr3. cbv beta. apply wp_ret.
  apply (wp_of_sat (Rel := admin_step)); [exact H_sched| |];
    intros u4 s4 e4 [V4 A4]; unfold epoch_best; rewrite V4;
    repeat (rewrite val_accs_app || rewrite logged_best_app);
    cbn [val_accs logged_best];
    rewrite Pe1, Le1, PT, PL,
      (val_accs_nolog _ (admin_nolog _ A4)),
      (logged_best_nolog _ (admin_nolog _ A4));
    cbn [app]; rewrite !app_nil_r; repeat split; auto.
Qed.

(** What the loop over the epochs does to the record. *)
Lemma epochs_loop_best (max_epoch k first : nat) s :
  let o := for_each (seq first k) (Orchestration.run_epoch O P max_epoch) s in
  src (vars (final o)) = src (vars s)
  /\ best_of (vars (final o))
     = best_from (best_of (vars s)) first (val_accs (emitted o))
  /\ logged_best (emitted o)
     = best_trace (best_of (vars s)) first (val_accs (emitted o))
  /\ (result o = Ok tt -> length (val_accs (emitted o)) = k).
Proof.
  revert first s. induction k as [|k IH]; intros first s.
  - simpl. repeat split.
  - cbn [seq for_each]. cbv zeta.
    destruct (run_epoch_best max_epoch first s) as (ES & EB & EL & EN & EO).
    set (m := Orchestration.run_epoch O P max_epoch first) in *.
    destruct (result (m s)) as [[]|x] eqn:Rm.
    + destruct (bind_ok m
                  (fun _ => for_each (seq (S first) k)
                              (Orchestration.run_epoch O P max_epoch))
                  s Rm) as (Rb & Fb & Eb).
      rewrite Rb, Fb, Eb.
      destruct (IH (S first) (final (m s))) as (IS & IB & IL & IO).
      specialize (EO eq_refl).
      rewrite val_accs_app, logged_best_app, best_from_app, best_trace_app.
      rewrite EO, <- EB, Nat.add_1_r.
      split; [congruence|]. split; [exact IB|].
      split; [rewrite EL, IL; reflexivity|].
      intros Hr. rewrite length_app, EO, (IO Hr). reflexivity.
    + destruct (bind_raise m
                  (fun _ => for_each (seq (S first) k)
                              (Orchestration.run_epoch O P max_epoch))
                  s Rm) as (Rb & Fb & Eb).
      rewrite Rb, Fb, Eb.
      split; [exact ES|]. split; [exact EB|]. split; [exact EL|].
      discriminate.
Qed.

(** The statements from [best_acc = 0.0] on. *)
Lemma epochs_record (max_epoch : nat) s :
  let o := (set_best 0 0 ;;
            for_each (range2 1 (max_epoch + 1))
              (Orchestration.run_epoch O P max_epoch)) s in
  record_ok o
  /\ (result o = Ok tt -> length (val_accs (emitted o)) = max_epoch).
Proof.
  cbv zeta. unfold range2. rewrite Nat.add_sub.
  set (s1 := final (set_best 0 0 s)).
  assert (R1 : result (set_best (Self := Self) 0 0 s) = Ok tt)
    by reflexivity.
  destruct (bind_ok (set_best 0 0)
              (fun _ => for_each (seq 1 max_epoch)
                          (Orchestration.run_epoch O P max_epoch)) s R1)
    as (Rb & Fb & Eb).
  unfold record_ok. rewrite Rb, Fb, Eb.
  destruct (epochs_loop_best max_epoch max_epoch 1 s1)
    as (_ & LB & LL & LO).
  cbn [emitted set_best bind get_vars put_vars app] in *.
  split; [split|]; assumption.
Qed.
End PhaseFacts.

Section PrefixFacts.
Context {Self : Type}.
Implicit Types s : state Self.

Lemma prefix_step_refl s : prefix_step s s [].
Proof. split; reflexivity. Qed.

Lemma prefix_step_trans s1 s2 s3 e1 e2 :
  prefix_step s1 s2 e1 -> prefix_step s2 s3 e2 ->
  prefix_step s1 s3 (e1 ++ e2).
Proof.
  intros [A1 B1] [A2 B2]. split; [|congruence].
  rewrite forallb_app, A1, A2. reflexivity.
Qed.

Lemma sat_admin_prefix {A : Type} (m : M Self A) :
  sat admin_step m -> sat prefix_step m.
Proof.
  intros H s. destruct (H s) as [V A1]. split; [exact A1|].
  rewrite V. reflexivity.
Qed.

Lemma prefix_set_src (v : pyval) : sat prefix_step (@set_src Self v).
Proof. intros s. split; reflexivity. Qed.

(** A prefix that logs nothing and keeps the record keeps [record_ok]. *)
Lemma record_ok_prefix {A : Type} (pre : M Self A) (k : A -> M Self unit)
  s :
  sat prefix_step pre ->
  best_of (vars s) = (0, 0%nat) ->
  (forall a s1, best_of (vars s1) = (0, 0%nat) -> record_ok (k a s1)) ->
  record_ok (bind pre k s).
Proof.
  intros Hp Hb Hk. destruct (Hp s) as [A1 B1].
  pose proof (val_accs_nolog _ (admin_nolog _ A1)) as V1.
  pose proof (logged_best_nolog _ (admin_nolog _ A1)) as L1.
  destruct (result (pre s)) as [a|x] eqn:Rp.
  - destruct (bind_ok pre k s Rp) as (Rb & Fb & Eb).
    unfold record_ok. rewrite Fb, Eb, val_accs_app, logged_best_app, V1, L1.
    apply Hk. congruence.
  - destruct (bind_raise pre k s Rp) as (Rb & Fb & Eb).
    unfold record_ok. rewrite Fb, Eb, V1, L1, B1, Hb. split; reflexivity.
Qed.
End PrefixFacts.

(** ** The record of the best model, as a function of the accuracies *)

Lemma update_best_ge (b : R * nat) (e : nat) (a : R) :
  fst b <= fst (update_best b e a) /\ a <= fst (update_best b e a).
Proof.
  unfold update_best. destruct (Rge_dec a (fst b)) as [H|H]; simpl; lra.
Qed.

Lemma best_from_ge (accs : list R) (b : R * nat) (first : nat) :
  fst b <= fst (best_from b first accs)
  /\ Forall (fun a => a <= fst (best_from b first accs)) accs.
Proof.
  revert b first. induction accs as [|a accs IH]; intros b first; simpl.
  - split; [lra|constructor].
  - destruct (IH (update_best b first a) (S first)) as [I1 I2].
    destruct (update_best_ge b first a) as [U1 U2].
    split; [lra|]. constructor; [lra|exact I2].
Qed.

(** The record is either the one before, every accuracy being below it, or
    the last accuracy that is not below any other. *)
Lemma best_from_latest (accs : list R) (b : R * nat) (first : nat) :
  (best_from b first accs = b /\ Forall (fun a => a < fst b) accs)
  \/ (exists pre a post,
        accs = pre ++ a :: post
        /\ best_from b first accs = (a, (first + length pre)%nat)
        /\ fst b <= a
        /\ Forall (fun x => x <= a) pre
        /\ Forall (fun x => x < a) post).
Proof.
  revert b first. induction accs as [|a accs IH]; intros b first.
  - left. split; [reflexivity|constructor].
  - cbn [best_from].
    assert (U : (update_best b first a = (a, first) /\ fst b <= a)
                \/ (update_best b first a = b /\ a < fst b)).
    { unfold update_best. destruct (Rge_dec a (fst b)) as [H|H];
        [left|right]; split; auto; lra. }
    destruct (IH (update_best b first a) (S first))
      as [[E F]|(pre & a' & post & E1 & E2 & E3 & E4 & E5)].
    + destruct U as [[U H]|[U H]]; rewrite U in E, F; rewrite U, E.
      * right. exists [], a, accs. cbn [app length fst] in *.
        rewrite Nat.add_0_r. repeat split; auto.
      * left. split; [reflexivity|].
        constructor; [exact H|exact F].
    + right. exists (a :: pre), a', post. rewrite E2, E1.
      destruct (update_best_ge b first a) as [U1 U2].
      cbn [app length].
      split; [reflexivity|]. split; [f_equal; lia|].
      split; [lra|]. split; [|exact E5].
      constructor; [lra|exact E4].
Qed.

(** The lines of the log carry accuracies that never decrease. *)
Lemma best_trace_bounds (accs : list R) (b : R * nat) (first : nat) :
  Forall (fun x => fst b <= x) (map snd (best_trace b first accs))
  /\ nondecreasing (map snd (best_trace b first accs)).
Proof.
  revert b first. induction accs as [|a accs IH]; intros b first; simpl.
  - split; [constructor|exact I].
  - destruct (IH (update_best b first a) (S first)) as [I1 I2].
    destruct (update_best_ge b first a) as [U1 U2].
    split.
    + constructor; [exact U1|].
      eapply Forall_impl; [|exact I1]. cbv beta. intros x Hx. lra.
    + split; assumption.
Qed.

(** ** The three strategies are instances of the orchestration *)

(** Runs a computation on a symbolic state: only the monad and the
    assignments are unfolded, the arithmetic on tensors is left as it is. *)
Ltac run_monad :=
  cbv beta iota zeta delta
    [bind ret raise emit get_self put_self get_vars put_vars tick
     for_each range seq index nth_error set_src set_best set_epoch_acc
     set_epoch_loss set_tradeoff read_src read_tradeoff acc_add loss_add
     acc_lookup _init_data _get_tradeoff get_next_batch call zero_grad step
     backward set_mode _get_optimizer_ _get_lr_scheduler source_batch
     not_None result final emitted self clock vars src best_acc best_epoch
     epoch_acc epoch_loss tradeoff chunk2 app fst snd
     IRM.train_batch IRM.val_batch IRM.call_model IRM.loss_backward
     IRM.optimizer_step IRM.optimizer_zero_grad IRM.read_optimizer
     IRM.set_scale IRM.set_optimizer IRM._get_optimizer IRM.irm
     IRM.self_optimizer IRM.param_groups IRM.scale existsb IRM.is_irm_scale
     map
     MCD.train_batch MCD.val_batch MCD.minimize_discrepancy
     MDD.train_batch MDD.val_batch MDD.GeneralModule_forward
     MDD.GeneralModule_step MDD.grl_forward MDD.grl_step MDD.set_grl
     MDD.model_mode MDD.self_model MDD.grl_layer MDD.training
     MDD.auto_step MDD.grl_advance MDD.iter_num MDD.alpha MDD.lo MDD.hi
     MDD.max_iters].

Lemma for_each_lines {Self A : Type} (l : list A)
  (g : locals -> A -> M Self unit) (f : locals -> A -> event)
  (s : state Self) :
  (forall v x s', g v x s' = {| result := Ok tt; final := s';
                                emitted := [f v x] |}) ->
  for_each l (fun x => v <- get_vars ;; g v x) s
  = {| result := Ok tt; final := s; emitted := map (f (vars s)) l |}.
Proof.
  intros Hg. induction l as [|x l IH]; [reflexivity|].
  simpl for_each. unfold bind at 1. unfold bind at 1. simpl.
  rewrite Hg. simpl. rewrite IH. reflexivity.
Qed.

Lemma IRM_log_losses_lines (phase : string) (n : nat)
  (s : state IRM.Trainset) :
  result (IRM.log_losses phase n s) = Ok tt
  /\ final (IRM.log_losses phase n s) = s
  /\ loss_lines phase n (epoch_loss (vars s))
       (emitted (IRM.log_losses phase n s)).
Proof.
  unfold IRM.log_losses, bind at 1. simpl.
  rewrite (for_each_emit (keys (epoch_loss (vars s)))
             (fun v key => EvLogLoss phase key
                             (dict_get (epoch_loss v) key / INR n))).
  simpl. repeat split.
  unfold loss_lines. apply Forall_forall. intros ev Hin.
  apply in_map_iff in Hin. destruct Hin as [k [<- _]]. exists k. reflexivity.
Qed.

Lemma step3_lines {Self : Type} (phase : string) (n : nat)
  (s : state Self) :
  let m : M Self unit :=
    l <- get_vars ;;
    for_each (keys (epoch_loss l)) (fun key =>
      l <- get_vars ;;
      if String.eqb key "Step 3: Minimize discrepancy" then
        emit (EvLogLoss phase key
                (dict_get (epoch_loss l) key / (1 * INR n)))
      else
        emit (EvLogLoss phase key
                (dict_get (epoch_loss l) key / INR n))) in
  result (m s) = Ok tt /\ final (m s) = s
  /\ loss_lines phase n (epoch_loss (vars s)) (emitted (m s)).
Proof.
  cbv zeta. unfold bind at 1. simpl.
  rewrite (for_each_lines (keys (epoch_loss (vars s)))
             (fun l key =>
                if String.eqb key "Step 3: Minimize discrepancy" then
                  emit (EvLogLoss phase key
                          (dict_get (epoch_loss l) key / (1 * INR n)))
                else
                  emit (EvLogLoss phase key
                          (dict_get (epoch_loss l) key / INR n)))
             (fun l key =>
                EvLogLoss phase key
                  (if String.eqb key "Step 3: Minimize discrepancy" then
                     dict_get (epoch_loss l) key / (1 * INR n)
                   else dict_get (epoch_loss l) key / INR n))).
  - simpl. repeat split.
    unfold loss_lines. apply Forall_forall. intros ev Hin.
    apply in_map_iff in Hin. destruct Hin as [k [<- _]]. exists k.
    destruct (String.eqb k "Step 3: Minimize discrepancy");
      [rewrite Rmult_1_l|]; reflexivity.
  - intros v x s'.
    destruct (String.eqb x "Step 3: Minimize discrepancy"); reflexivity.
Qed.

Lemma MCD_log_losses_lines (phase : string) (n : nat)
  (s : state MCD.Trainset) :
  result (MCD.log_losses phase n s) = Ok tt
  /\ final (MCD.log_losses phase n s) = s
  /\ loss_lines phase n (epoch_loss (vars s))
       (emitted (MCD.log_losses phase n s)).
Proof. apply (step3_lines phase n s). Qed.

Lemma MDD_log_losses_lines (phase : string) (n : nat)
  (s : state MDD.Trainset) :
  result (MDD.log_losses phase n s) = Ok tt
  /\ final (MDD.log_losses phase n s) = s
  /\ loss_lines phase n (epoch_loss (vars s))
       (emitted (MDD.log_losses phase n s)).
Proof. apply (step3_lines phase n s). Qed.

Lemma IRM_val_batch_key (O : Oracle) (t : tensor * labels)
  (s : state IRM.Trainset) :
  result (IRM.val_batch O t s) = Ok tt ->
  In "Target Data"%string
    (keys (epoch_acc (vars (final (IRM.val_batch O t s))))).
Proof. intros _. destruct t as [d l]. run_monad. apply keys_dict_add_In. Qed.

Lemma MCD_val_batch_key (O : Oracle) (t : tensor * labels)
  (s : state MCD.Trainset) :
  result (MCD.val_batch O t s) = Ok tt ->
  In "Target Data"%string
    (keys (epoch_acc (vars (final (MCD.val_batch O t s))))).
Proof. intros _. destruct t as [d l]. run_monad. apply keys_dict_add_In. Qed.

Lemma MDD_val_batch_key (O : Oracle) (t : tensor * labels)
  (s : state MDD.Trainset) :
  result (MDD.val_batch O t s) = Ok tt ->
  In "Target Data"%string
    (keys (epoch_acc (vars (final (MDD.val_batch O t s))))).
Proof.
  destruct t as [d l]. destruct s as [[[g tr]] c v].
  destruct g as [al lo hi mi [|] it]; destruct tr; run_monad;
    try discriminate; intros _; apply keys_dict_add_In.
Qed.

Lemma IRM_pieces_ok (O : Oracle) (lr : bool) : PiecesOk (IRM_pieces O lr).
Proof.
  constructor; simpl.
  - apply IRM_train_batch_frame.
  - apply IRM_val_batch_frame.
  - admin_auto.
  - admin_auto.
  - apply IRM_log_losses_lines.
  - apply IRM_val_batch_key.
  - admin_auto.
  - admin_auto.
Qed.

Lemma MCD_pieces_ok (O : Oracle) (lg lc : bool) :
  PiecesOk (MCD_pieces O lg lc).
Proof.
  constructor; simpl.
  - apply MCD_train_batch_frame.
  - apply MCD_val_batch_frame.
  - apply MCD_modes_frame.
  - apply MCD_modes_frame.
  - apply MCD_log_losses_lines.
  - apply MCD_val_batch_key.
  - admin_auto.
  - admin_auto.
Qed.

Lemma MDD_pieces_ok (O : Oracle) (lr : bool) : PiecesOk (MDD_pieces O lr).
Proof.
  constructor; simpl.
  - apply MDD_train_batch_frame.
  - apply MDD_val_batch_frame.
  - apply MDD_model_mode_frame.
  - apply MDD_model_mode_frame.
  - apply MDD_log_losses_lines.
  - apply MDD_val_batch_key.
  - admin_auto.
  - admin_auto.
Qed.

Section Instances.
Context {Self : Type}.
Variable O : Oracle.
Variable P : Orchestration.Pieces Self.
Hypothesis HP : PiecesOk P.

Lemma phase_reported (epoch : nat) (phase : string) (s : state Self) :
  let o := Orchestration.run_phase O P epoch phase s in
  reported_ok (len_iters O phase) phase (emitted o)
  /\ (result o = Ok tt -> count_tqdm (emitted o) = len_iters O phase).
Proof.
  destruct HP. apply run_phase_reported; assumption.
Qed.

Lemma phase_best (epoch : nat) (phase : string) (s : state Self) :
  phase = "train"%string \/ phase = "val"%string ->
  let o := Orchestration.run_phase O P epoch phase s in
  let accs := val_accs (emitted o) in
  src (vars (final o)) = src (vars s)
  /\ best_of (vars (final o)) = best_from (best_of (vars s)) epoch accs
  /\ logged_best (emitted o) = best_trace (best_of (vars s)) epoch accs
  /\ (length accs <= 1)%nat
  /\ (phase = "train"%string -> accs = [])
  /\ (phase = "val"%string -> result o = Ok tt -> length accs = 1%nat).
Proof.
  destruct HP. apply run_phase_best; assumption.
Qed.

Lemma loop_record (max_epoch : nat) (s : state Self) :
  let o := (set_best 0 0 ;;
            for_each (range2 1 (max_epoch + 1))
              (Orchestration.run_epoch O P max_epoch)) s in
  record_ok o
  /\ (result o = Ok tt -> length (val_accs (emitted o)) = max_epoch).
Proof.
  destruct HP. apply epochs_record; assumption.
Qed.
End Instances.

(** *** The record after [train] *)

Lemma prefix_dispatch {Self : Type} (args : Args) :
  sat prefix_step
    (if String.eqb (train_mode args) "supervised" then
       set_src (Self := Self) PyNone
     else if String.eqb (train_mode args) "single_source" then
       x <- index (source_name args) 0 ;; set_src (PyStr x)
     else if String.eqb (train_mode args) "source_combine" then
       set_src (PyList (source_name args))
     else if String.eqb (train_mode args) "multi_source" then
       raise (Exception "This model cannot be trained with multi-source data.")
     else ret tt).
Proof.
  repeat first
    [ apply prefix_set_src
    | apply (sat_bind (@prefix_step_trans _)); [|intro]
    | apply (sat_ret (@prefix_step_refl _))
    | apply (sat_raise (@prefix_step_refl _))
    | apply (sat_index (@prefix_step_refl _))
    | sat_split ].
Qed.

Lemma IRM_train_record (O : Oracle) (args : Args) :
  record_ok (IRM.train O args IRM.init).
Proof.
  unfold IRM.train.
  apply record_ok_prefix;
    [apply sat_admin_prefix; apply admin_emit; reflexivity|reflexivity|].
  intros _ s1 B1.
  apply record_ok_prefix; [apply prefix_dispatch|exact B1|].
  intros _ s2 B2.
  apply record_ok_prefix; [|exact B2|].
  { apply sat_admin_prefix. unfold IRM._get_optimizer, IRM.set_optimizer,
      _get_optimizer_. admin_auto. }
  intros _ s3 B3.
  apply record_ok_prefix; [|exact B3|].
  { apply sat_admin_prefix. unfold _get_lr_scheduler. admin_auto. }
  intros lr s4 B4.
  apply (loop_record O (IRM_pieces_ok O lr) (max_epoch args) s4).
Qed.

Lemma MCD_train_record (O : Oracle) (args : Args) :
  record_ok (MCD.train O args MCD.init).
Proof.
  unfold MCD.train.
  apply record_ok_prefix;
    [apply sat_admin_prefix; apply admin_emit; reflexivity|reflexivity|].
  intros _ s1 B1.
  apply record_ok_prefix; [apply prefix_dispatch|exact B1|].
  intros _ s2 B2.
  apply record_ok_prefix;
    [apply sat_admin_prefix; apply admin_emit; reflexivity|exact B2|].
  intros _ s3 B3.
  apply record_ok_prefix;
    [apply sat_admin_prefix; apply admin_emit; reflexivity|exact B3|].
  intros _ s4 B4.
  apply record_ok_prefix; [|exact B4|].
  { apply sat_admin_prefix. unfold _get_lr_scheduler. admin_auto. }
  intros lg s5 B5.
  apply record_ok_prefix; [|exact B5|].
  { apply sat_admin_prefix. unfold _get_lr_scheduler. admin_auto. }
  intros lc s6 B6.
  apply (loop_record O (MCD_pieces_ok O lg lc) (max_epoch args) s6).
Qed.

Lemma MDD_train_record (O : Oracle) (args : Args) :
  record_ok (MDD.train O args MDD.init).
Proof.
  unfold MDD.train.
  apply record_ok_prefix;
    [apply sat_admin_prefix; apply admin_emit; reflexivity|reflexivity|].
  intros _ s1 B1.
  apply record_ok_prefix; [apply prefix_dispatch|exact B1|].
  intros _ s2 B2.
  apply record_ok_prefix;
    [apply sat_admin_prefix; apply admin_emit; reflexivity|exact B2|].
  intros _ s3 B3.
  apply record_ok_prefix; [|exact B3|].
  { apply sat_admin_prefix. unfold _get_lr_scheduler. admin_auto. }
  intros lr s4 B4.
  apply (loop_record O (MDD_pieces_ok O lr) (max_epoch args) s4).
Qed.
(** ** Every metric of a phase is reported *)

Lemma apply_accums_keys (m : metrics) (t : list event) (d : dict)
  (k : string) (v : R) :
  In (EvAccum m k v) t -> In k (keys (apply_accums m t d)).
Proof.
  revert d. induction t as [|e t IH]; intros d; simpl; [tauto|].
  intros [->|H].
  - assert (E : metrics_eqb m m = true) by (destruct m; reflexivity).
    rewrite E. apply apply_accums_incl. apply keys_dict_add_In.
  - destruct e; auto.
Qed.

Lemma IRM_log_losses_report (phase : string) (n : nat)
  (s : state IRM.Trainset) :
  emitted (IRM.log_losses phase n s)
  = loss_report phase n (epoch_loss (vars s)).
Proof.
  unfold IRM.log_losses, bind at 1. simpl.
  rewrite (for_each_emit (keys (epoch_loss (vars s)))
             (fun v key => EvLogLoss phase key
                             (dict_get (epoch_loss v) key / INR n))).
  reflexivity.
Qed.

Lemma step3_report {Self : Type} (phase : string) (n : nat)
  (s : state Self) :
  let m : M Self unit :=
    l <- get_vars ;;
    for_each (keys (epoch_loss l)) (fun key =>
      l <- get_vars ;;
      if String.eqb key "Step 3: Minimize discrepancy" then
        emit (EvLogLoss phase key
                (dict_get (epoch_loss l) key / (1 * INR n)))
      else
        emit (EvLogLoss phase key
                (dict_get (epoch_loss l) key / INR n))) in
  emitted (m s) = loss_report phase n (epoch_loss (vars s)).
Proof.
  cbv zeta. unfold bind at 1. simpl.
  rewrite (for_each_lines (keys (epoch_loss (vars s)))
             (fun l key =>
                if String.eqb key "Step 3: Minimize discrepancy" then
                  emit (EvLogLoss phase key
                          (dict_get (epoch_loss l) key / (1 * INR n)))
                else
                  emit (EvLogLoss phase key
                          (dict_get (epoch_loss l) key / INR n)))
             (fun l key =>
                EvLogLoss phase key
                  (if String.eqb key "Step 3: Minimize discrepancy" then
                     dict_get (epoch_loss l) key / (1 * INR n)
                   else dict_get (epoch_loss l) key / INR n))).
  - simpl. unfold loss_report. apply map_ext. intros k.
    destruct (String.eqb k "Step 3: Minimize discrepancy");
      [rewrite Rmult_1_l|]; reflexivity.
  - intros v x s'.
    destruct (String.eqb x "Step 3: Minimize discrepancy"); reflexivity.
Qed.

Lemma MCD_log_losses_report (phase : string) (n : nat)
  (s : state MCD.Trainset) :
  emitted (MCD.log_losses phase n s)
  = loss_report phase n (epoch_loss (vars s)).
Proof. apply (step3_report phase n s). Qed.

Lemma MDD_log_losses_report (phase : string) (n : nat)
  (s : state MDD.Trainset) :
  emitted (MDD.log_losses phase n s)
  = loss_report phase n (epoch_loss (vars s)).
Proof. apply (step3_report phase n s). Qed.

Section PhaseReport.
Context {Self : Type}.
Variable O : Oracle.
Variable P : Orchestration.Pieces Self.
Implicit Types s : state Self.
Hypothesis HP : PiecesOk P.
Hypothesis H_rep :
  forall phase n s,
    emitted (Orchestration.log_losses P phase n s)
    = loss_report phase n (epoch_loss (vars s)).

(** The end of a phase, after the loop: the lines of the losses, the lines
    of the accuracies, then the line of the best model. *)
Lemma post_block_report (n epoch : nat) (phase : string) s :
  let o := ((if String.eqb phase "train"
             then Orchestration.log_losses P phase n else ret tt) ;;
            log_accs phase n ;;
            (if String.eqb phase "val" then log_best_model epoch n
             else ret tt)) s in
  exists e_best,
    emitted o
    = (if String.eqb phase "train"
       then loss_report phase n (epoch_loss (vars s)) else [])
      ++ acc_lines phase n (epoch_acc (vars s)) ++ e_best
    /\ (e_best = [] \/ exists e a, e_best = [EvLogBest e a]).
Proof.
  set (m1 := if String.eqb phase "train"
             then Orchestration.log_losses P phase n else ret tt).
  set (m3 := if String.eqb phase "val" then log_best_model epoch n
             else ret tt).
  assert (H1 : result (m1 s) = Ok tt /\ final (m1 s) = s
               /\ emitted (m1 s)
                  = if String.eqb phase "train"
                    then loss_report phase n (epoch_loss (vars s))
                    else []).
  { unfold m1. destruct (String.eqb phase "train").
    - destruct (ok_log_losses HP phase n s) as (A & B & _).
      split; [exact A|]. split; [exact B|]. apply H_rep.
    - repeat split. }
  destruct H1 as (R1 & F1 & E1).
  destruct (bind_ok m1 (fun _ => log_accs phase n ;; m3) s R1)
    as (Rb & Fb & Eb).
  rewrite F1 in Rb, Fb, Eb.
  assert (R2 : result (log_accs phase n s) = Ok tt)
    by (rewrite log_accs_run; reflexivity).
  destruct (bind_ok (log_accs phase n) (fun _ => m3) s R2)
    as (Rc & Fc & Ec).
  rewrite log_accs_run in Rc, Fc, Ec. simpl in Rc, Fc, Ec.
  cbv zeta. rewrite Eb, Ec, E1.
  exists (emitted (m3 s)). split; [reflexivity|].
  unfold m3. destruct (String.eqb phase "val"); [|left; reflexivity].
  destruct (Nat.eq_dec n 0) as [->|Hn].
  - left. reflexivity.
  - destruct (log_best_model_pos epoch s Hn) as (_ & _ & C & _).
    right. rewrite C. eauto.
Qed.

(** The trace of a phase that returns: the set-up, the iterations, then
    the lines of the sums of the iterations. *)
Lemma run_phase_report_shape (epoch : nat) (phase : string) s :
  let o := Orchestration.run_phase O P epoch phase s in
  let n := len_iters O phase in
  result o = Ok tt ->
  exists e_pre e_loop e_best,
    forallb admin e_pre = true
    /\ forallb nolog e_loop = true
    /\ (e_best = [] \/ exists e a, e_best = [EvLogBest e a])
    /\ emitted o
       = e_pre ++ e_loop
         ++ (if String.eqb phase "train"
             then loss_report phase n
                    (apply_accums epoch_loss_dict e_loop [])
             else [])
         ++ acc_lines phase n (apply_accums epoch_acc_dict e_loop [])
         ++ e_best.
Proof.
  cbv zeta.
  apply (wp_elim (Orchestration.run_phase O P epoch phase) s
           (fun r s' e =>
              r = Ok tt ->
              exists e_pre e_loop e_best,
                forallb admin e_pre = true
                /\ forallb nolog e_loop = true
                /\ (e_best = [] \/ exists e a, e_best = [EvLogBest e a])
                /\ e = e_pre ++ e_loop
                       ++ (if String.eqb phase "train"
                           then loss_report phase (len_iters O phase)
                                  (apply_accums epoch_loss_dict e_loop [])
                           else [])
                       ++ acc_lines phase (len_iters O phase)
                            (apply_accums epoch_acc_dict e_loop [])
                       ++ e_best)).
  unfold Orchestration.run_phase.
  apply wp_bind. unfold wp at 1. simpl result. simpl final. simpl emitted.
  cbv beta iota.
  apply wp_bind.
  eapply wp_conseq;
    [apply (setup_block O P (ok_mode_on HP) (ok_mode_off HP))| |].
  - intros _ s1 e1 (A1 & S1 & B1 & EA1 & EL1).
    simpl in EA1.
    cbv zeta. apply wp_bind.
    eapply wp_conseq;
      [apply (batches_loop O P (ok_train_batch HP) (ok_val_batch HP)
                (ok_val_key HP))| |].
    + intros _ s2 e2 (L2 & C2 & K2 & ZE).
      destruct L2 as (L21 & L22 & L23 & L24 & L25 & L26 & L27).
      rewrite EA1 in L26.
      destruct (post_block_report (len_iters O phase) epoch phase s2)
        as (e_best & E & BB).
      cbv zeta in E. rewrite L26 in E.
      apply wp_intro; [|intros x _; discriminate].
      intros a Hr _. exists e1, e2, e_best.
      split; [exact A1|]. split; [exact L25|]. split; [exact BB|].
      simpl. rewrite E. do 2 f_equal.
      destruct (String.eqb phase "train"); [|reflexivity].
      rewrite L27, (EL1 eq_refl). reflexivity.
    + intros x s2 e2 _. discriminate.
  - intros x s1 e1 _. discriminate.
Qed.

(** A phase that returns reports every metric it added to. *)
Lemma run_phase_reports_all (epoch : nat) (phase : string) s :
  let o := Orchestration.run_phase O P epoch phase s in
  result o = Ok tt -> reports_all (len_iters O phase) phase (emitted o).
Proof.
  cbv zeta. intros Hr. set (n := len_iters O phase).
  destruct (run_phase_report_shape epoch phase s Hr)
    as (e_pre & e_loop & e_best & A & L & B & E).
  cbv zeta in E. fold n in E. rewrite E.
  set (acc := apply_accums epoch_acc_dict e_loop []) in *.
  set (loss := apply_accums epoch_loss_dict e_loop []) in *.
  set (e_ll := if String.eqb phase "train" then loss_report phase n loss
               else []) in *.
  assert (OL : only_logs e_ll).
  { unfold e_ll, only_logs, loss_report.
    destruct (String.eqb phase "train"); [|reflexivity].
    induction (keys loss); simpl; auto. }
  assert (OB : only_logs e_best).
  { destruct B as [->|(e & a & ->)]; reflexivity. }
  assert (OA := acc_lines_only_logs phase n acc).
  assert (SM : forall m k,
             sum_accum m k
               (e_pre ++ e_loop ++ e_ll ++ acc_lines phase n acc ++ e_best)
             = sum_accum m k e_loop).
  { intros m k. rewrite !sum_accum_app.
    rewrite (@only_logs_sum m k _ OL), (@only_logs_sum m k _ OB),
      (@only_logs_sum m k _ OA).
    destruct (@nolog_count_sum e_pre m k A) as [-> _]. lra. }
  assert (IN : forall m k v,
             In (EvAccum m k v)
               (e_pre ++ e_loop ++ e_ll ++ acc_lines phase n acc ++ e_best)
             -> In (EvAccum m k v) e_loop).
  { intros m k v Hin.
    apply in_app_or in Hin. destruct Hin as [Hin|Hin].
    { rewrite forallb_forall in A. apply A in Hin. discriminate. }
    apply in_app_or in Hin. destruct Hin as [Hin|Hin]; [exact Hin|].
    assert (OO : only_logs (e_ll ++ acc_lines phase n acc ++ e_best))
      by (repeat apply only_logs_app; assumption).
    unfold only_logs in OO. rewrite forallb_forall in OO.
    apply OO in Hin. discriminate. }
  split; [|split].
  - intros k v Hin. apply IN in Hin. rewrite SM.
    apply in_or_app. right. apply in_or_app. right.
    apply in_or_app. right. apply in_or_app. left.
    unfold acc_lines. apply in_map_iff. exists k. split.
    + unfold acc. rewrite dict_get_apply_accums. simpl.
      do 2 f_equal. lra.
    + eapply apply_accums_keys. exact Hin.
  - intros Hp k v Hin. apply IN in Hin. rewrite SM.
    apply in_or_app. right. apply in_or_app. right.
    apply in_or_app. left.
    unfold e_ll. subst phase. change (String.eqb "train" "train") with true.
    cbv iota. unfold loss_report. apply in_map_iff. exists k. split.
    + unfold loss. rewrite dict_get_apply_accums. simpl.
      do 2 f_equal. lra.
    + eapply apply_accums_keys. exact Hin.
  - intros Hp p k v Hin.
    assert (Ef : String.eqb phase "train" = false)
      by (apply String.eqb_neq; exact Hp).
    unfold e_ll in Hin. rewrite Ef in Hin.
    apply in_app_or in Hin. destruct Hin as [Hin|Hin].
    { rewrite forallb_forall in A. apply A in Hin. discriminate. }
    apply in_app_or in Hin. destruct Hin as [Hin|Hin].
    { rewrite forallb_forall in L. apply L in Hin. discriminate. }
    simpl in Hin.
    apply in_app_or in Hin. destruct Hin as [Hin|Hin].
    { unfold acc_lines in Hin. apply in_map_iff in Hin.
      destruct Hin as (k' & Ek & _). discriminate. }
    destruct B as [->|(e & a & ->)]; [destruct Hin|].
    destruct Hin as [Hin|[]]. discriminate.
Qed.
End PhaseReport.

(** ** Relations on [self] through the orchestration *)

Section NeutralFacts.
Context {Self : Type}.
Implicit Types s : state Self.

Lemma neutral_step_refl s : neutral_step s s [].
Proof. split; reflexivity. Qed.

Lemma neutral_step_trans s1 s2 s3 e1 e2 :
  neutral_step s1 s2 e1 -> neutral_step s2 s3 e2 ->
  neutral_step s1 s3 (e1 ++ e2).
Proof.
  intros [A1 B1] [A2 B2]. split; [congruence|].
  rewrite forallb_app, B1, B2. reflexivity.
Qed.

Lemma neutral_emit (ev : event) :
  neutral ev = true -> sat neutral_step (@emit Self ev).
Proof. intros H s. split; simpl; [reflexivity|rewrite H; reflexivity]. Qed.

Lemma neutral_tick : sat neutral_step (@tick Self).
Proof. intros s. split; reflexivity. Qed.

Lemma neutral_put_vars (v : locals) : sat neutral_step (@put_vars Self v).
Proof. intros s. split; reflexivity. Qed.
End NeutralFacts.

Create HintDb neutral_db.
#[export] Hint Resolve neutral_tick neutral_put_vars : neutral_db.

Ltac neutral_auto :=
  repeat first
    [ solve [apply neutral_emit; reflexivity]
    | solve [auto with neutral_db]
    | apply (sat_bind (@neutral_step_trans _)); [|intro]
    | apply (sat_ret (@neutral_step_refl _))
    | apply (sat_raise (@neutral_step_refl _))
    | apply (sat_get_vars (@neutral_step_refl _))
    | apply (sat_get_self (@neutral_step_refl _))
    | apply (sat_index (@neutral_step_refl _))
    | apply (sat_float_div (@neutral_step_refl _))
    | apply (sat_for_each (@neutral_step_refl _) (@neutral_step_trans _));
      intro
    | sat_split ].

Section SelfRelation.
Context {Self : Type}.
Variable O : Oracle.
Variable P : Orchestration.Pieces Self.
Variable Rel : state Self -> state Self -> list event -> Prop.

Hypothesis Rel_refl : forall s, Rel s s [].
Hypothesis Rel_trans :
  forall s1 s2 s3 e1 e2,
    Rel s1 s2 e1 -> Rel s2 s3 e2 -> Rel s1 s3 (e1 ++ e2).
Hypothesis Rel_neutral : forall s s' e, neutral_step s s' e -> Rel s s' e.

Hypothesis R_tb : forall t, sat Rel (Orchestration.train_batch P t).
Hypothesis R_vb : forall t, sat Rel (Orchestration.val_batch P t).
Hypothesis R_on : sat Rel (Orchestration.train_mode_on P).
Hypothesis R_off : sat Rel (Orchestration.train_mode_off P).
Hypothesis R_ll : forall phase n, sat Rel (Orchestration.log_losses P phase n).
Hypothesis R_lr : sat Rel (Orchestration.log_lr P).
Hypothesis R_sched : sat Rel (Orchestration.sched_step P).

Lemma sat_of_neutral {A : Type} (m : M Self A) :
  sat neutral_step m -> sat Rel m.
Proof. intros H s. apply Rel_neutral. apply H. Qed.

Ltac rel_auto :=
  repeat first
    [ solve [auto]
    | apply (sat_bind Rel_trans); [|intro]
    | apply (sat_ret Rel_refl)
    | apply (sat_raise Rel_refl)
    | apply (sat_for_each Rel_refl Rel_trans); intro
    | sat_split
    | solve [apply sat_of_neutral; neutral_auto] ].

Lemma sat_run_batch (phase : string) (i : nat) :
  sat Rel (Orchestration.run_batch O P phase i).
Proof.
  unfold Orchestration.run_batch.
  apply (sat_bind Rel_trans); [apply sat_of_neutral; neutral_auto|intro].
  apply (sat_bind Rel_trans);
    [apply sat_of_neutral; unfold get_next_batch; neutral_auto|intro].
  destruct (String.eqb phase "train"); auto.
Qed.

Lemma sat_run_phase (epoch : nat) (phase : string) :
  sat Rel (Orchestration.run_phase O P epoch phase).
Proof.
  unfold Orchestration.run_phase.
  apply (sat_bind Rel_trans);
    [apply sat_of_neutral; unfold set_epoch_acc; neutral_auto|intro].
  apply (sat_bind Rel_trans); [|intro].
  { destruct (String.eqb phase "train"); [|exact R_off].
    apply (sat_bind Rel_trans); [exact R_on|intro].
    apply sat_of_neutral.
    unfold set_epoch_loss, _get_tradeoff, set_tradeoff. neutral_auto. }
  cbv zeta.
  apply (sat_bind Rel_trans); [|intro].
  { apply (sat_for_each Rel_refl Rel_trans). intro. apply sat_run_batch. }
  apply (sat_bind Rel_trans); [|intro].
  { destruct (String.eqb phase "train"); [apply R_ll|apply (sat_ret Rel_refl)]. }
  apply (sat_bind Rel_trans); [|intro].
  { apply sat_of_neutral. unfold log_accs. neutral_auto. }
  destruct (String.eqb phase "val"); [|apply (sat_ret Rel_refl)].
  apply sat_of_neutral.
  unfold log_best_model, acc_lookup, set_epoch_acc, set_best. neutral_auto.
Qed.

Lemma sat_run_epoch (max_epoch epoch : nat) :
  sat Rel (Orchestration.run_epoch O P max_epoch epoch).
Proof.
  unfold Orchestration.run_epoch.
  apply (sat_bind Rel_trans); [apply sat_of_neutral; neutral_auto|intro].
  apply (sat_bind Rel_trans); [exact R_lr|intro].
  apply (sat_bind Rel_trans); [|intro; exact R_sched].
  apply (sat_for_each Rel_refl Rel_trans). intro. apply sat_run_phase.
Qed.

Lemma sat_epochs (max_epoch : nat) :
  sat Rel (set_best 0 0 ;;
           for_each (range2 1 (max_epoch + 1))
             (Orchestration.run_epoch O P max_epoch)).
Proof.
  apply (sat_bind Rel_trans);
    [apply sat_of_neutral; unfold set_best; neutral_auto|intro].
  apply (sat_for_each Rel_refl Rel_trans). intro. apply sat_run_epoch.
Qed.

Lemma sat_dispatch (args : Args) :
  sat Rel
    (if String.eqb (train_mode args) "supervised" then
       set_src (Self := Self) PyNone
     else if String.eqb (train_mode args) "single_source" then
       x <- index (source_name args) 0 ;; set_src (PyStr x)
     else if String.eqb (train_mode args) "source_combine" then
       set_src (PyList (source_name args))
     else if String.eqb (train_mode args) "multi_source" then
       raise (Exception "This model cannot be trained with multi-source data.")
     else ret tt).
Proof. apply sat_of_neutral. unfold set_src. neutral_auto. Qed.
End SelfRelation.

(** ** Counting the events of the runs that return *)

Lemma count_backward_app (t1 t2 : list event) :
  count_backward (t1 ++ t2) = (count_backward t1 + count_backward t2)%nat.
Proof. unfold count_backward. rewrite filter_app, length_app. reflexivity. Qed.

Lemma count_grl_app (t1 t2 : list event) :
  count_grl (t1 ++ t2) = (count_grl t1 + count_grl t2)%nat.
Proof. unfold count_grl. rewrite filter_app, length_app. reflexivity. Qed.

Lemma neutral_counts (t : list event) :
  forallb neutral t = true -> count_grl t = 0%nat /\ count_backward t = 0%nat.
Proof.
  unfold count_grl, count_backward.
  induction t as [|e t IH]; simpl; [auto|].
  intros H. apply andb_true_iff in H. destruct H as [He Ht].
  destruct (IH Ht) as [I1 I2].
  destruct e; simpl in *; try discriminate; auto.
Qed.

Section Counting.
Context {Self : Type}.
Implicit Types s : state Self.

Lemma counts_bind {A B : Type} (m : M Self A) (k : A -> M Self B)
  (n1 n2 : nat) :
  counts count_backward m n1 ->
  (forall a, counts count_backward (k a) n2) ->
  counts count_backward (bind m k) (n1 + n2).
Proof.
  intros Hm Hk s b Hr.
  destruct (result (m s)) as [a|x] eqn:Rm.
  - destruct (bind_ok m k s Rm) as (Rb & Fb & Eb).
    rewrite Eb, count_backward_app. rewrite Rb in Hr.
    rewrite (Hm s a Rm), (Hk a _ b Hr). reflexivity.
  - destruct (bind_raise m k s Rm) as (Rb & Fb & Eb).
    rewrite Rb in Hr. discriminate.
Qed.

Lemma counts_eq {A : Type} (m : M Self A) (n n' : nat) :
  counts count_backward m n -> n = n' -> counts count_backward m n'.
Proof. intros H <-. exact H. Qed.

Lemma counts_neutral {A : Type} (m : M Self A) :
  sat neutral_step m -> counts count_backward m 0.
Proof.
  intros H s a _. destruct (H s) as [_ N].
  apply (neutral_counts _ N).
Qed.

Lemma counts_raise {A : Type} (x : exn) (n : nat) :
  counts count_backward (@raise Self A x) n.
Proof. intros s a H. discriminate. Qed.

Lemma counts_for_each {A : Type} (l : list A) (body : A -> M Self unit)
  (n : nat) :
  (forall x, counts count_backward (body x) n) ->
  counts count_backward (for_each l body) (length l * n).
Proof.
  intros Hb. induction l as [|x l IH]; simpl.
  - intros s a _. reflexivity.
  - apply counts_bind; [apply Hb|intro; exact IH].
Qed.

Variable O : Oracle.
Variable P : Orchestration.Pieces Self.
Variable c_train : nat.

Hypothesis C_tb :
  forall t, counts count_backward (Orchestration.train_batch P t) c_train.
Hypothesis C_vb :
  forall t, counts count_backward (Orchestration.val_batch P t) 0.
Hypothesis C_on :
  counts count_backward (Orchestration.train_mode_on P) 0.
Hypothesis C_off :
  counts count_backward (Orchestration.train_mode_off P) 0.
Hypothesis C_ll :
  forall phase n,
    counts count_backward (Orchestration.log_losses P phase n) 0.
Hypothesis C_lr : counts count_backward (Orchestration.log_lr P) 0.
Hypothesis C_sched : counts count_backward (Orchestration.sched_step P) 0.

Lemma counts_train_phase (epoch : nat) :
  counts count_backward (Orchestration.run_phase O P epoch "train")
    (len_iters O "train" * c_train).
Proof.
  unfold Orchestration.run_phase.
  change (String.eqb "train" "train") with true.
  change (String.eqb "train" "val") with false. cbv iota zeta.
  eapply counts_eq.
  - apply counts_bind;
      [apply counts_neutral; unfold set_epoch_acc; neutral_auto|intro].
    apply counts_bind; [|intro].
    { apply counts_bind; [exact C_on|intro].
      apply counts_neutral.
      unfold set_epoch_loss, _get_tradeoff, set_tradeoff. neutral_auto. }
    apply counts_bind; [|intro].
    { apply counts_for_each. intro i. unfold Orchestration.run_batch.
      change (String.eqb "train" "train") with true. cbv iota.
      apply counts_bind; [apply counts_neutral; neutral_auto|intro].
      apply counts_bind;
        [apply counts_neutral; unfold get_next_batch; neutral_auto|intro].
      apply C_tb. }
    apply counts_bind; [apply C_ll|intro].
    apply counts_bind;
      [apply counts_neutral; unfold log_accs; neutral_auto|intro].
    apply counts_neutral. neutral_auto.
  - unfold range. rewrite length_seq. simpl. lia.
Qed.

Lemma counts_val_phase (epoch : nat) :
  counts count_backward (Orchestration.run_phase O P epoch "val") 0.
Proof.
  unfold Orchestration.run_phase.
  change (String.eqb "val" "train") with false.
  change (String.eqb "val" "val") with true. cbv iota zeta.
  eapply counts_eq.
  - apply counts_bind;
      [apply counts_neutral; unfold set_epoch_acc; neutral_auto|intro].
    apply counts_bind; [exact C_off|intro].
    apply counts_bind; [|intro].
    { apply counts_for_each. intro i. unfold Orchestration.run_batch.
      change (String.eqb "val" "train") with false. cbv iota.
      apply counts_bind; [apply counts_neutral; neutral_auto|intro].
      apply counts_bind;
        [apply counts_neutral; unfold get_next_batch; neutral_auto|intro].
      apply C_vb. }
    apply counts_bind; [apply counts_neutral; neutral_auto|intro].
    apply counts_bind;
      [apply counts_neutral; unfold log_accs; neutral_auto|intro].
    apply counts_neutral.
    unfold log_best_model, acc_lookup, set_epoch_acc, set_best.
    neutral_auto.
  - simpl. lia.
Qed.

Lemma counts_run_epoch (max_epoch epoch : nat) :
  counts count_backward (Orchestration.run_epoch O P max_epoch epoch)
    (len_iters O "train" * c_train).
Proof.
  unfold Orchestration.run_epoch. eapply counts_eq.
  - apply counts_bind; [apply counts_neutral; neutral_auto|intro].
    apply counts_bind; [exact C_lr|intro].
    apply counts_bind; [|intro; exact C_sched].
    simpl for_each.
    apply counts_bind; [apply counts_train_phase|intro].
    apply counts_bind; [apply counts_val_phase|intro].
    apply counts_neutral. neutral_auto.
  - simpl. lia.
Qed.

Lemma counts_epochs (max_epoch : nat) :
  counts count_backward
    (set_best 0 0 ;;
     for_each (range2 1 (max_epoch + 1))
       (Orchestration.run_epoch O P max_epoch))
    (max_epoch * (len_iters O "train" * c_train)).
Proof.
  eapply counts_eq.
  - apply counts_bind;
      [apply counts_neutral; unfold set_best; neutral_auto|intro].
    apply counts_for_each. intro. apply counts_run_epoch.
  - unfold range2. rewrite length_seq, Nat.add_sub. reflexivity.
Qed.
End Counting.

(** ** MDD: the gradient-reversal schedule *)

Lemma MDD_train_batch_run (O : Oracle) (td : tensor) (tl : labels)
  (s : state MDD.Trainset) (v : pyval) :
  src (vars s) = Some v ->
  MDD.auto_step (grl_of s) = false ->
  MDD.training (MDD.self_model (self s)) = true ->
  let o := MDD.train_batch O (td, tl) s in
  let src_c := source_of O (clock s) v (td, tl) in
  result o = Ok tt
  /\ emitted o
     = snd src_c ++ mdd_iteration O (snd (fst src_c)) (fst (fst src_c)) td
  /\ MDD.iter_num (grl_of (final o)) = S (MDD.iter_num (grl_of s))
  /\ mdd_ready true (final o).
Proof.
  destruct s as [[[g tr]] c [sr ba be ea el tf]].
  destruct g as [al lo hi mi au it].
  unfold grl_of.
  cbn [vars src self MDD.self_model MDD.grl_layer MDD.training
       MDD.auto_step].
  intros -> -> ->.
  unfold source_of, mdd_iteration, mdd_ready, grl_of.
  destruct v; run_monad; repeat split; discriminate.
Qed.

Lemma MDD_train_batch_unbound (O : Oracle) (t : tensor * labels)
  (s : state MDD.Trainset) :
  src (vars s) = None ->
  MDD.train_batch O t s
  = {| result := Raise (UnboundLocalError "src"); final := s;
       emitted := [] |}.
Proof.
  destruct s as [me c [sr ba be ea el tf]]. cbn [vars src]. intros ->.
  destruct t as [td tl]. reflexivity.
Qed.

Lemma MDD_val_batch_run (O : Oracle) (td : tensor) (tl : labels)
  (s : state MDD.Trainset) :
  MDD.auto_step (grl_of s) = false ->
  MDD.training (MDD.self_model (self s)) = false ->
  let o := MDD.val_batch O (td, tl) s in
  let features := net_forward O (clock s) G td in
  let pred := net_forward O (S (clock s)) C1 features in
  result o = Ok tt
  /\ emitted o
     = [EvForward G td features; EvForward C1 features pred;
        EvForward C2 features (net_forward O (S (S (clock s))) C2 features);
        EvAccum epoch_acc_dict "Target Data" (get_accuracy O pred tl)]
  /\ self (final o) = self s
  /\ src (vars (final o)) = src (vars s).
Proof.
  destruct s as [[[g tr]] c [sr ba be ea el tf]].
  destruct g as [al lo hi mi au it].
  unfold grl_of.
  cbn [vars src self MDD.self_model MDD.grl_layer MDD.training
       MDD.auto_step].
  intros -> ->.
  run_monad. repeat split.
Qed.

Lemma grl_sync_refl (s : state MDD.Trainset) : grl_sync s s [].
Proof. intros H. repeat split; auto. Qed.

Lemma grl_sync_trans (s1 s2 s3 : state MDD.Trainset) (e1 e2 : list event) :
  grl_sync s1 s2 e1 -> grl_sync s2 s3 e2 -> grl_sync s1 s3 (e1 ++ e2).
Proof.
  intros H1 H2 Ha. destruct (H1 Ha) as (A1 & B1 & C1).
  destruct (H2 A1) as (A2 & B2 & C2).
  rewrite count_grl_app, count_backward_app. repeat split; auto; lia.
Qed.

Lemma grl_sync_neutral (s s' : state MDD.Trainset) (e : list event) :
  neutral_step s s' e -> grl_sync s s' e.
Proof.
  intros [Hs Hn] Ha. destruct (neutral_counts _ Hn) as [N1 N2].
  unfold grl_of in *. rewrite Hs, N1, N2. repeat split; auto.
Qed.

Lemma MDD_train_batch_sync (O : Oracle) (t : tensor * labels) :
  sat grl_sync (MDD.train_batch O t).
Proof.
  intros s Ha. destruct t as [td tl].
  destruct s as [[[g tr]] c [sr ba be ea el tf]].
  destruct g as [al lo hi mi au it].
  unfold grl_sync, grl_of in *.
  cbn [vars src self MDD.self_model MDD.grl_layer MDD.training
       MDD.auto_step] in Ha.
  subst au.
  destruct sr as [[| |]|]; destruct tr; run_monad;
    cbv beta iota delta [count_grl count_backward filter length];
    repeat split; auto; lia.
Qed.

Lemma MDD_val_batch_sync (O : Oracle) (t : tensor * labels) :
  sat grl_sync (MDD.val_batch O t).
Proof.
  intros s Ha. destruct t as [td tl].
  destruct s as [[[g tr]] c [sr ba be ea el tf]].
  destruct g as [al lo hi mi au it].
  unfold grl_sync, grl_of in *.
  cbn [vars src self MDD.self_model MDD.grl_layer MDD.training
       MDD.auto_step] in Ha.
  subst au.
  destruct tr; run_monad;
    cbv beta iota delta [count_grl count_backward filter length];
    repeat split; auto; lia.
Qed.

Lemma MDD_model_mode_sync (b : bool) : sat grl_sync (MDD.model_mode b).
Proof.
  intros s Ha. unfold grl_of in *. run_monad.
  cbv beta iota delta [count_grl count_backward filter length].
  repeat split; auto; lia.
Qed.

Lemma MDD_log_losses_neutral (phase : string) (n : nat) :
  sat neutral_step (MDD.log_losses phase n).
Proof. unfold MDD.log_losses. neutral_auto. Qed.

Lemma MDD_run_epoch_sync (O : Oracle) (lr : bool) (max_epoch epoch : nat) :
  sat grl_sync (Orchestration.run_epoch O (MDD_pieces O lr) max_epoch epoch).
Proof.
  apply (sat_run_epoch O (MDD_pieces O lr) grl_sync_refl grl_sync_trans
           grl_sync_neutral); simpl.
  - apply MDD_train_batch_sync.
  - apply MDD_val_batch_sync.
  - apply MDD_model_mode_sync.
  - apply MDD_model_mode_sync.
  - intros phase n s. apply grl_sync_neutral. apply MDD_log_losses_neutral.
  - intros s. apply grl_sync_neutral. revert s.
    change (sat neutral_step
              (if lr then emit (Self := MDD.Trainset) (EvLogLr optimizer)
               else ret tt)).
    neutral_auto.
  - intros s. apply grl_sync_neutral. revert s.
    change (sat neutral_step
              (if lr then emit (Self := MDD.Trainset) (EvSchedStep optimizer)
               else ret tt)).
    neutral_auto.
Qed.

(** ** Runs that return *)

Section Returns.
Context {Self : Type}.
Implicit Types s : state Self.

Lemma returns_bind {A B : Type} (P Q R : state Self -> Prop)
  (m : M Self A) (k : A -> M Self B) :
  returns P m Q -> (forall a, returns Q (k a) R) -> returns P (bind m k) R.
Proof.
  intros Hm Hk s Hs. destruct (Hm s Hs) as (a & Ra & Qa).
  destruct (Hk a _ Qa) as (b & Rb & Qb).
  destruct (bind_ok m k s Ra) as (E1 & E2 & E3).
  exists b. rewrite E1, E2. split; assumption.
Qed.

Lemma returns_weaken {A : Type} (P P' Q Q' : state Self -> Prop)
  (m : M Self A) :
  returns P m Q -> (forall s, P' s -> P s) -> (forall s, Q s -> Q' s) ->
  returns P' m Q'.
Proof.
  intros H HP HQ s Hs. destruct (H s (HP s Hs)) as (a & Ra & Qa).
  exists a. split; auto.
Qed.

Lemma returns_for_each {A : Type} (I : state Self -> Prop) (l : list A)
  (body : A -> M Self unit) :
  (forall x, returns I (body x) I) -> returns I (for_each l body) I.
Proof.
  intros Hb. induction l as [|x l IH]; simpl.
  - intros s Hs. exists tt. split; [reflexivity|exact Hs].
  - eapply returns_bind; [apply Hb|intro; exact IH].
Qed.

Lemma steady_ret {A : Type} (a : A) : steady (@ret Self A a).
Proof. intros s. exists a. repeat split. Qed.

Lemma steady_bind {A B : Type} (m : M Self A) (k : A -> M Self B) :
  steady m -> (forall a, steady (k a)) -> steady (bind m k).
Proof.
  intros Hm Hk s. destruct (Hm s) as (a & Ra & Sa & Ca).
  destruct (Hk a (final (m s))) as (b & Rb & Sb & Cb).
  destruct (bind_ok m k s Ra) as (E1 & E2 & E3).
  exists b. rewrite E1, E2. repeat split; congruence.
Qed.

Lemma steady_for_each {A : Type} (l : list A) (body : A -> M Self unit) :
  (forall x, steady (body x)) -> steady (for_each l body).
Proof.
  intros Hb. induction l as [|x l IH]; simpl.
  - apply steady_ret.
  - apply steady_bind; [apply Hb|intro; exact IH].
Qed.

Lemma steady_emit (ev : event) : steady (@emit Self ev).
Proof. intros s. exists tt. repeat split. Qed.

Lemma steady_get_vars : steady (@get_vars Self).
Proof. intros s. eexists. repeat split. Qed.

Lemma steady_tick : steady (@tick Self).
Proof. intros s. eexists. repeat split. Qed.

Lemma steady_set_epoch_acc (d : dict) : steady (@set_epoch_acc Self d).
Proof. intros s. eexists. repeat split. Qed.

Lemma steady_set_epoch_loss (d : dict) : steady (@set_epoch_loss Self d).
Proof. intros s. eexists. repeat split. Qed.

Lemma steady_set_tradeoff (t : list R) : steady (@set_tradeoff Self t).
Proof. intros s. eexists. repeat split. Qed.

Lemma steady_set_best (a : R) (e : nat) : steady (@set_best Self a e).
Proof. intros s. eexists. repeat split. Qed.

Lemma steady_get_next_batch (O : Oracle) (key : pyval) :
  steady (@get_next_batch Self O key).
Proof. intros s. eexists. repeat split. Qed.

Lemma steady_log_accs (phase : string) (n : nat) :
  steady (@log_accs Self phase n).
Proof. intros s. rewrite log_accs_run. exists tt. repeat split. Qed.

Lemma steady_log_best_model (epoch n : nat) :
  n <> 0%nat -> steady (@log_best_model Self epoch n).
Proof.
  intros Hn s. unfold log_best_model, float_div.
  destruct n as [|n]; [congruence|].
  unfold bind. simpl. destruct (Rge_dec _ _); simpl; exists tt;
    repeat split.
Qed.

(** A predicate on [self] and [src] is kept by a steady computation. *)
Lemma returns_steady {A : Type} (J : state Self -> Prop) (m : M Self A) :
  (forall s s', self s' = self s -> src (vars s') = src (vars s) ->
                J s -> J s') ->
  steady m -> returns J m J.
Proof.
  intros HJ Hm s Hs. destruct (Hm s) as (a & Ra & Sa & Ca).
  exists a. split; [exact Ra|]. eapply HJ; eassumption.
Qed.
End Returns.

Create HintDb steady_db.
#[export] Hint Resolve steady_emit steady_get_vars steady_tick
  steady_set_epoch_acc steady_set_epoch_loss steady_set_tradeoff
  steady_set_best steady_get_next_batch steady_log_accs : steady_db.

Ltac steady_auto :=
  repeat first
    [ solve [auto with steady_db]
    | apply steady_ret
    | apply steady_bind; [|intro]
    | apply steady_for_each; intro
    | match goal with
      | |- steady (if ?b then _ else _) => destruct b
      end ].

Lemma mdd_ready_frame (b : bool) (s s' : state MDD.Trainset) :
  self s' = self s -> src (vars s') = src (vars s) ->
  mdd_ready b s -> mdd_ready b s'.
Proof.
  unfold mdd_ready, grl_of. intros -> ->. auto.
Qed.

Section MDDReturns.
Variable O : Oracle.
Variable lr : bool.

Lemma MDD_steady_ready {A : Type} (b : bool) (m : M MDD.Trainset A) :
  steady m -> returns (mdd_ready b) m (mdd_ready b).
Proof. apply returns_steady. apply mdd_ready_frame. Qed.

Lemma MDD_model_mode_returns (b b' : bool) :
  returns (mdd_ready b) (MDD.model_mode b') (mdd_ready b').
Proof.
  intros s (H1 & H2 & H3). exists tt.
  unfold mdd_ready, grl_of in *. repeat split; assumption.
Qed.

Lemma MDD_train_batch_returns (t : tensor * labels) :
  returns (mdd_ready true) (MDD.train_batch O t) (mdd_ready true).
Proof.
  intros s (H1 & H2 & H3). destruct t as [td tl].
  destruct (src (vars s)) as [v|] eqn:Hv; [|congruence].
  destruct (MDD_train_batch_run O td tl s Hv H2 H3) as (R1 & _ & _ & R4).
  exists tt. split; assumption.
Qed.

Lemma MDD_val_batch_returns (t : tensor * labels) :
  returns (mdd_ready false) (MDD.val_batch O t) (mdd_ready false).
Proof.
  intros s (H1 & H2 & H3). destruct t as [td tl].
  destruct (MDD_val_batch_run O td tl s H2 H3) as (R1 & _ & R3 & R4).
  exists tt. split; [exact R1|].
  apply (mdd_ready_frame (s := s)); [exact R3|exact R4|].
  repeat split; assumption.
Qed.

Lemma MDD_log_losses_steady (phase : string) (n : nat) :
  steady (MDD.log_losses phase n).
Proof.
  intros s. destruct (MDD_log_losses_lines phase n s) as (R1 & F1 & _).
  exists tt. rewrite F1. repeat split. exact R1.
Qed.

Lemma MDD_train_phase_returns (b : bool) (epoch : nat) :
  returns (mdd_ready b) (MDD.run_phase O epoch "train") (mdd_ready true).
Proof.
  unfold MDD.run_phase.
  change (String.eqb "train" "train") with true.
  change (String.eqb "train" "val") with false. cbv iota zeta.
  eapply returns_bind; [apply MDD_steady_ready; steady_auto|intro].
  eapply returns_bind; [|intro].
  { eapply returns_bind; [apply MDD_model_mode_returns|intro].
    apply MDD_steady_ready. unfold _get_tradeoff. steady_auto. }
  eapply returns_bind; [|intro].
  { apply returns_for_each. intro i.
    eapply returns_bind; [apply MDD_steady_ready; steady_auto|intro].
    eapply returns_bind; [apply MDD_steady_ready; steady_auto|intro].
    apply MDD_train_batch_returns. }
  eapply returns_bind;
    [apply MDD_steady_ready; apply MDD_log_losses_steady|intro].
  apply MDD_steady_ready. steady_auto.
Qed.

Lemma MDD_val_phase_returns (b : bool) (epoch : nat) :
  len_iters O "val" <> 0%nat ->
  returns (mdd_ready b) (MDD.run_phase O epoch "val") (mdd_ready false).
Proof.
  intros Hn. unfold MDD.run_phase.
  change (String.eqb "val" "train") with false.
  change (String.eqb "val" "val") with true. cbv iota zeta.
  eapply returns_bind; [apply MDD_steady_ready; steady_auto|intro].
  eapply returns_bind; [apply MDD_model_mode_returns|intro].
  eapply returns_bind; [|intro].
  { apply returns_for_each. intro i.
    eapply returns_bind; [apply MDD_steady_ready; steady_auto|intro].
    eapply returns_bind; [apply MDD_steady_ready; steady_auto|intro].
    apply MDD_val_batch_returns. }
  eapply returns_bind; [apply MDD_steady_ready; steady_auto|intro].
  eapply returns_bind; [apply MDD_steady_ready; steady_auto|intro].
  apply MDD_steady_ready. apply steady_log_best_model. exact Hn.
Qed.

Lemma MDD_epoch_returns (args : Args) (epoch : nat) :
  len_iters O "val" <> 0%nat ->
  returns (fun s => exists b, mdd_ready b s) (MDD.run_epoch O args lr epoch)
    (fun s => exists b, mdd_ready b s).
Proof.
  intros Hn s [b Hb]. revert s Hb.
  change (returns (mdd_ready b) (MDD.run_epoch O args lr epoch)
            (fun s => exists b, mdd_ready b s)).
  unfold MDD.run_epoch.
  eapply returns_bind; [apply MDD_steady_ready; steady_auto|intro].
  eapply returns_bind; [apply MDD_steady_ready; steady_auto|intro].
  eapply returns_bind; [|intro].
  { simpl for_each.
    eapply returns_bind; [apply MDD_train_phase_returns|intro].
    eapply returns_bind; [apply MDD_val_phase_returns; exact Hn|intro].
    apply MDD_steady_ready. steady_auto. }
  eapply returns_weaken;
    [apply (@MDD_steady_ready _ false); steady_auto|auto|].
  intros s Hs. exists false. exact Hs.
Qed.
End MDDReturns.

(** *** The whole run of the MDD strategy *)

Lemma MDD_dispatch_returns (args : Args) :
  supported args ->
  returns mdd_fresh
    (if String.eqb (train_mode args) "supervised" then
       set_src (Self := MDD.Trainset) PyNone
     else if String.eqb (train_mode args) "single_source" then
       x <- index (source_name args) 0 ;; set_src (PyStr x)
     else if String.eqb (train_mode args) "source_combine" then
       set_src (PyList (source_name args))
     else if String.eqb (train_mode args) "multi_source" then
       raise (Exception "This model cannot be trained with multi-source data.")
     else ret tt)
    (mdd_ready true).
Proof.
  intros Hsup s [H1 H2]. unfold mdd_ready, grl_of in *.
  destruct Hsup as [Hm|[[Hm Hn]|Hm]]; rewrite Hm.
  - exists tt. repeat split; try assumption. discriminate.
  - destruct (source_name args) as [|x l]; [congruence|].
    exists tt. repeat split; try assumption. discriminate.
  - exists tt. repeat split; try assumption. discriminate.
Qed.

Lemma mdd_fresh_frame (s s' : state MDD.Trainset) :
  self s' = self s -> src (vars s') = src (vars s) ->
  mdd_fresh s -> mdd_fresh s'.
Proof. unfold mdd_fresh, grl_of. intros -> _. auto. Qed.

Lemma MDD_train_returns (O : Oracle) (args : Args) :
  supported args -> len_iters O "val" <> 0%nat ->
  result (MDD.train O args MDD.init) = Ok tt.
Proof.
  intros Hsup Hn.
  assert (H : returns mdd_fresh (MDD.train O args)
                (fun s => exists b, mdd_ready b s)).
  { unfold MDD.train.
    eapply returns_bind;
      [apply returns_steady; [apply mdd_fresh_frame|steady_auto]|intro].
    eapply returns_bind; [apply MDD_dispatch_returns; exact Hsup|intro].
    eapply returns_bind; [apply (@MDD_steady_ready _ true); steady_auto|intro].
    eapply returns_bind;
      [apply (@MDD_steady_ready _ true); unfold _get_lr_scheduler;
       steady_auto|intro lr].
    eapply returns_bind; [apply (@MDD_steady_ready _ true); steady_auto|intro].
    eapply returns_weaken.
    - apply (@returns_for_each _ _ (fun s => exists b, mdd_ready b s)).
      intro epoch. apply MDD_epoch_returns. exact Hn.
    - intros s Hs. exists true. exact Hs.
    - auto. }
  destruct (H MDD.init) as ([] & Hr & _); [|exact Hr].
  split; reflexivity.
Qed.

Lemma MDD_train_batch_counts (O : Oracle) (t : tensor * labels) :
  counts count_backward (MDD.train_batch O t) 1.
Proof.
  intros s a. destruct t as [td tl].
  destruct s as [[[g tr]] c [sr ba be ea el tf]].
  destruct g as [al lo hi mi au it].
  destruct sr as [[| |]|]; destruct tr; destruct au; run_monad;
    cbv beta iota delta [count_backward filter length];
    intros H; try discriminate; reflexivity.
Qed.

Lemma MDD_val_batch_counts (O : Oracle) (t : tensor * labels) :
  counts count_backward (MDD.val_batch O t) 0.
Proof.
  intros s a. destruct t as [td tl].
  destruct s as [[[g tr]] c [sr ba be ea el tf]].
  destruct g as [al lo hi mi au it].
  destruct tr; destruct au; run_monad;
    cbv beta iota delta [count_backward filter length];
    intros H; try discriminate; reflexivity.
Qed.

Lemma MDD_model_mode_counts (b : bool) :
  counts count_backward (MDD.model_mode b) 0.
Proof. intros s a _. reflexivity. Qed.

Lemma neutral_if_emit {Self : Type} (b : bool) (ev : event) :
  neutral ev = true ->
  sat neutral_step (if b then emit (Self := Self) ev else ret tt).
Proof. intros H. destruct b; neutral_auto. apply neutral_emit. exact H. Qed.

Lemma MDD_epochs_counts (O : Oracle) (lr : bool) (max_epoch : nat) :
  counts count_backward
    (set_best 0 0 ;;
     for_each (range2 1 (max_epoch + 1))
       (Orchestration.run_epoch O (MDD_pieces O lr) max_epoch))
    (max_epoch * (len_iters O "train" * 1)).
Proof.
  apply counts_epochs; simpl.
  - apply MDD_train_batch_counts.
  - apply MDD_val_batch_counts.
  - apply MDD_model_mode_counts.
  - apply MDD_model_mode_counts.
  - intros phase n. apply counts_neutral. apply MDD_log_losses_neutral.
  - apply counts_neutral. apply neutral_if_emit. reflexivity.
  - apply counts_neutral. apply neutral_if_emit. reflexivity.
Qed.

Lemma MDD_train_counts (O : Oracle) (args : Args) :
  counts count_backward (MDD.train O args)
    (max_epoch args * len_iters O "train").
Proof.
  unfold MDD.train. eapply counts_eq.
  - apply counts_bind; [apply counts_neutral; neutral_auto|intro].
    apply counts_bind;
      [apply counts_neutral; unfold set_src; neutral_auto|intro].
    apply counts_bind; [apply counts_neutral; neutral_auto|intro].
    apply counts_bind;
      [apply counts_neutral; unfold _get_lr_scheduler; neutral_auto
      |intro lr].
    apply (MDD_epochs_counts O lr (max_epoch args)).
  - simpl. lia.
Qed.

Lemma MDD_train_sync (O : Oracle) (args : Args) :
  sat grl_sync (MDD.train O args).
Proof.
  unfold MDD.train.
  apply (sat_bind grl_sync_trans); [|intro].
  { intros s. apply grl_sync_neutral. revert s.
    change (sat neutral_step (@_init_data MDD.Trainset)). neutral_auto. }
  apply (sat_bind grl_sync_trans); [|intro].
  { apply sat_dispatch. exact grl_sync_neutral. }
  apply (sat_bind grl_sync_trans); [|intro].
  { intros s. apply grl_sync_neutral. revert s.
    change (sat neutral_step (@_get_optimizer_ MDD.Trainset optimizer [model])).
    neutral_auto. }
  apply (sat_bind grl_sync_trans); [|intro lr].
  { intros s. apply grl_sync_neutral. revert s.
    change (sat neutral_step (@_get_lr_scheduler MDD.Trainset O optimizer)).
    unfold _get_lr_scheduler. neutral_auto. }
  apply (sat_bind grl_sync_trans); [|intro].
  { intros s. apply grl_sync_neutral. revert s.
    change (sat neutral_step (@set_best MDD.Trainset 0 0)).
    unfold set_best. neutral_auto. }
  apply (sat_for_each grl_sync_refl grl_sync_trans). intro epoch.
  apply (MDD_run_epoch_sync O lr (max_epoch args) epoch).
Qed.

Lemma MDD_val_batch_no_step (O : Oracle) (t : tensor * labels)
  (s : state MDD.Trainset) :
  MDD.auto_step (grl_of s) = false ->
  count_grl (emitted (MDD.val_batch O t s)) = 0%nat
  /\ grl_of (final (MDD.val_batch O t s)) = grl_of s.
Proof.
  destruct t as [td tl].
  destruct s as [[[g tr]] c [sr ba be ea el tf]].
  destruct g as [al lo hi mi au it].
  unfold grl_of.
  cbn [vars src self MDD.self_model MDD.grl_layer MDD.training
       MDD.auto_step].
  intros ->.
  destruct tr; run_monad; cbv beta iota delta [count_grl filter length];
    split; reflexivity.
Qed.

(** ** IRM: the scalar of the penalty and the optimizer *)

Lemma scale_kept_refl (s : state IRM.Trainset) : scale_kept s s [].
Proof. intros H. exact H. Qed.

Lemma scale_kept_trans (s1 s2 s3 : state IRM.Trainset) (e1 e2 : list event) :
  scale_kept s1 s2 e1 -> scale_kept s2 s3 e2 -> scale_kept s1 s3 (e1 ++ e2).
Proof. unfold scale_kept. auto. Qed.

Lemma scale_kept_neutral (s s' : state IRM.Trainset) (e : list event) :
  neutral_step s s' e -> scale_kept s s' e.
Proof. intros [Hs _] H. rewrite Hs. exact H. Qed.

Ltac irm_paths :=
  let s := fresh "s" in
  let H1 := fresh "H" in
  let H2 := fresh "H" in
  let H3 := fresh "H" in
  intros s; destruct s as [[[[d rg gr]] so] c v];
  unfold scale_kept, scale_inv;
  cbn [self IRM.irm IRM.scale IRM.self_optimizer data requires_grad];
  intros (H1 & H2 & [H3|H3]); subst.

Lemma IRM_zero_grad_scale : sat scale_kept IRM.optimizer_zero_grad.
Proof. irm_paths; run_monad; repeat split; auto. Qed.

Lemma IRM_step_scale (O : Oracle) : sat scale_kept (IRM.optimizer_step O).
Proof. irm_paths; run_monad; repeat split; auto. Qed.

Lemma IRM_backward_scale (loss : autograd.node) :
  sat scale_kept (IRM.loss_backward loss).
Proof. irm_paths; run_monad; repeat split; auto. Qed.

Lemma IRM_set_optimizer_scale (O : Oracle) :
  sat scale_kept
    (opt <- IRM._get_optimizer optimizer [model] ;; IRM.set_optimizer opt).
Proof. irm_paths; run_monad; repeat split; auto. Qed.

Lemma IRM_call_model_neutral (O : Oracle) (x : tensor) :
  sat neutral_step (IRM.call_model O x).
Proof. intros s. split; reflexivity. Qed.

Lemma neutral_call {Self : Type} (O : Oracle) (n : net) (x : tensor) :
  sat neutral_step (@call Self O n x).
Proof. intros s. split; reflexivity. Qed.

Lemma neutral_get_next_batch {Self : Type} (O : Oracle) (key : pyval) :
  sat neutral_step (@get_next_batch Self O key).
Proof. intros s. split; reflexivity. Qed.

#[export] Hint Resolve IRM_call_model_neutral neutral_call
  neutral_get_next_batch : neutral_db.

Ltac scale_neutral :=
  let s := fresh "s" in
  intros s; apply scale_kept_neutral; revert s;
  match goal with
  | |- forall s, neutral_step s (final (?m s)) (emitted (?m s)) =>
      change (sat neutral_step m)
  end;
  unfold source_batch, read_src, read_tradeoff, acc_add, loss_add,
    set_epoch_acc, set_epoch_loss;
  neutral_auto.

Ltac scale_auto :=
  repeat lazymatch goal with
  | |- sat _ IRM.optimizer_zero_grad => apply IRM_zero_grad_scale
  | |- sat _ (IRM.optimizer_step _) => apply IRM_step_scale
  | |- sat _ (IRM.loss_backward _) => apply IRM_backward_scale
  | |- sat _ (bind _ _) => apply (sat_bind scale_kept_trans); [|intro]
  | |- sat _ (ret _) => apply (sat_ret scale_kept_refl)
  | |- sat _ (raise _) => apply (sat_raise scale_kept_refl)
  | |- sat _ (let _ := _ in _) => cbv zeta
  | |- sat _ (if ?b then _ else _) => destruct b
  | |- sat _ (match ?x with _ => _ end) => destruct x
  | |- sat _ _ => solve [scale_neutral]
  end.

Lemma IRM_train_batch_scale (O : Oracle) (t : tensor * labels) :
  sat scale_kept (IRM.train_batch O t).
Proof.
  unfold IRM.train_batch. destruct t as [target_data target_labels].
  scale_auto.
Qed.

Lemma IRM_val_batch_scale (O : Oracle) (t : tensor * labels) :
  sat scale_kept (IRM.val_batch O t).
Proof.
  intros s. apply scale_kept_neutral. revert s.
  change (sat neutral_step (IRM.val_batch O t)).
  unfold IRM.val_batch. destruct t as [target_data target_labels].
  unfold acc_add, set_epoch_acc. neutral_auto.
Qed.

Lemma IRM_log_losses_neutral (phase : string) (n : nat) :
  sat neutral_step (IRM.log_losses phase n).
Proof. unfold IRM.log_losses. neutral_auto. Qed.

Lemma sat_scale_of_neutral {A : Type} (m : M IRM.Trainset A) :
  sat neutral_step m -> sat scale_kept m.
Proof. intros H s. apply scale_kept_neutral. apply H. Qed.

Lemma IRM_run_epoch_scale (O : Oracle) (lr : bool) (max_epoch epoch : nat) :
  sat scale_kept (Orchestration.run_epoch O (IRM_pieces O lr) max_epoch epoch).
Proof.
  apply (sat_run_epoch O (IRM_pieces O lr) scale_kept_refl scale_kept_trans
           scale_kept_neutral); simpl.
  - apply IRM_train_batch_scale.
  - apply IRM_val_batch_scale.
  - apply sat_scale_of_neutral. unfold set_mode. neutral_auto.
  - apply sat_scale_of_neutral. unfold set_mode. neutral_auto.
  - intros phase n. apply sat_scale_of_neutral. apply IRM_log_losses_neutral.
  - apply sat_scale_of_neutral. apply neutral_if_emit. reflexivity.
  - apply sat_scale_of_neutral. apply neutral_if_emit. reflexivity.
Qed.

Lemma IRM_train_scale (O : Oracle) (args : Args) :
  sat scale_kept (IRM.train O args).
Proof.
  unfold IRM.train.
  apply (sat_bind scale_kept_trans); [|intro].
  { apply sat_scale_of_neutral. unfold _init_data. neutral_auto. }
  apply (sat_bind scale_kept_trans); [|intro].
  { apply sat_dispatch. exact scale_kept_neutral. }
  apply (sat_bind scale_kept_trans); [|intro].
  { apply IRM_set_optimizer_scale. exact O. }
  apply (sat_bind scale_kept_trans); [|intro lr].
  { apply sat_scale_of_neutral. unfold _get_lr_scheduler. neutral_auto. }
  apply (sat_bind scale_kept_trans); [|intro].
  { apply sat_scale_of_neutral. unfold set_best. neutral_auto. }
  apply (sat_for_each scale_kept_refl scale_kept_trans). intro epoch.
  apply (IRM_run_epoch_scale O lr (max_epoch args) epoch).
Qed.

(** An optimizer that did hold the scalar would move it: the frame above
    comes from what [train] builds the optimizer over. *)
Lemma IRM_step_moves_a_held_scalar (O : Oracle) (c : nat) (l : locals) :
  let s := {| self := {| IRM.irm := IRM.InvariancePenaltyLoss_init;
                         IRM.self_optimizer :=
                           Some {| IRM.param_groups := [IRM.irm_scale] |} |};
              clock := c; vars := l |} in
  data (IRM.scale (IRM.irm (self (final (IRM.optimizer_step O s)))))
  = optim_update O c 1 None.
Proof. reflexivity. Qed.

(** ** The claims on the three strategies *)

(** *** MDD: the schedule of the gradient-reversal layer *)

(** C5: in a run of the MDD strategy in a supported mode, every training
    iteration calls [step()] of the gradient-reversal layer once, after the
    forward pass and the losses and before [backward()]; a validation
    iteration never calls it; so at the end of the run the layer has
    advanced [max_epoch * len(iters['train'])] times, the number of
    training iterations of all the epochs. *)
Theorem grl_advances_once_per_training_batch (O : Oracle) (args : Args) :
  supported args -> len_iters O "val" <> 0%nat ->
  let o := MDD.train O args MDD.init in
  result o = Ok tt
  /\ count_grl (emitted o) = (max_epoch args * len_iters O "train")%nat
  /\ count_grl (emitted o) = count_backward (emitted o)
  /\ MDD.iter_num (grl_of (final o))
     = (max_epoch args * len_iters O "train")%nat
  /\ (forall td tl s v,
        src (vars s) = Some v ->
        MDD.auto_step (grl_of s) = false ->
        MDD.training (MDD.self_model (self s)) = true ->
        let b := MDD.train_batch O (td, tl) s in
        let src_c := source_of O (clock s) v (td, tl) in
        result b = Ok tt
        /\ emitted b
           = snd src_c
             ++ mdd_iteration O (snd (fst src_c)) (fst (fst src_c)) td
        /\ MDD.iter_num (grl_of (final b)) = S (MDD.iter_num (grl_of s)))
  /\ (forall t s,
        MDD.auto_step (grl_of s) = false ->
        count_grl (emitted (MDD.val_batch O t s)) = 0%nat
        /\ grl_of (final (MDD.val_batch O t s)) = grl_of s).
Proof.
  intros Hm Hv o.
  assert (R := MDD_train_returns O Hm Hv). fold o in R.
  assert (C := MDD_train_counts O args MDD.init R). fold o in C.
  destruct (MDD_train_sync O args MDD.init eq_refl) as (_ & I & E).
  fold o in I, E.
  split; [exact R|]. split; [rewrite E; exact C|]. split; [exact E|].
  split; [rewrite I, E, C; reflexivity|]. split.
  - intros td tl s v Hs Ha Ht.
    destruct (MDD_train_batch_run O td tl s Hs Ha Ht) as (A & B & D & _).
    repeat split; assumption.
  - intros t s Ha. apply MDD_val_batch_no_step. exact Ha.
Qed.

Lemma grl_advances_witness :
  result (MDD.train example_oracle example_args MDD.init) = Ok tt
  /\ count_grl (emitted (MDD.train example_oracle example_args MDD.init))
     = 2%nat
  /\ MDD.iter_num (grl_of (final (MDD.train example_oracle example_args
                                    MDD.init))) = 2%nat.
Proof.
  destruct (@grl_advances_once_per_training_batch example_oracle example_args)
    as (A & B & _ & D & _).
  - left. reflexivity.
  - simpl. discriminate.
  - split; [exact A|]. split; [exact B|exact D].
Defined.

(** *** IRM: the scalar of the penalty *)

(** C8: [InvariancePenaltyLoss.__init__] makes the scalar a leaf that holds
    [1.0] and requires gradient; the one optimizer [train] builds is over
    the parameters of [self.model] and does not hold the scalar; whatever
    the run does, and however it ends, the scalar still holds [1.0] and
    still requires gradient; every training iteration keeps it so. *)
Theorem irm_scale_is_never_updated (O : Oracle) (args : Args) :
  let o := IRM.train O args IRM.init in
  IRM.scale IRM.InvariancePenaltyLoss_init
  = {| data := 1; requires_grad := true; grad := None |}
  /\ IRM.self_optimizer (self IRM.init) = None
  /\ data (IRM.scale (IRM.irm (self (final o)))) = 1
  /\ requires_grad (IRM.scale (IRM.irm (self (final o)))) = true
  /\ (IRM.self_optimizer (self (final o)) = None
      \/ IRM.self_optimizer (self (final o))
         = Some {| IRM.param_groups := [IRM.parameters model] |})
  /\ (forall t s,
        scale_inv (self s) ->
        scale_inv (self (final (IRM.train_batch O t s))))
  /\ (forall s,
        scale_inv (self s) ->
        data (IRM.scale (IRM.irm (self (final (IRM.optimizer_step O s)))))
        = data (IRM.scale (IRM.irm (self s)))).
Proof.
  intros o.
  assert (I0 : scale_inv (self IRM.init)).
  { repeat split. left. reflexivity. }
  destruct (IRM_train_scale O args IRM.init I0) as (A & B & D).
  fold o in A, B, D.
  split; [reflexivity|]. split; [reflexivity|].
  split; [exact A|]. split; [exact B|]. split; [exact D|].
  split.
  - intros t s Hs. apply (IRM_train_batch_scale O t s Hs).
  - intros s Hs. destruct (IRM_step_scale O s Hs) as (E & _).
    destruct Hs as (E0 & _). rewrite E, E0. reflexivity.
Qed.

(** *** MCD: the three steps of a training iteration *)

Lemma optimizer_steps_app (a b : list event) :
  optimizer_steps (a ++ b) = optimizer_steps a ++ optimizer_steps b.
Proof.
  induction a as [|e a IH]; [reflexivity|].
  destruct e; simpl; rewrite IH; reflexivity.
Qed.

Lemma source_of_quiet (O : Oracle) (c : nat) (v : pyval)
  (target : tensor * labels) :
  optimizer_steps (snd (source_of O c v target)) = []
  /\ count_backward (snd (source_of O c v target)) = 0%nat.
Proof. unfold source_of. destruct v; split; reflexivity. Qed.

Lemma MCD_train_batch_run (O : Oracle) (td : tensor) (tl : labels)
  (s : state MCD.Trainset) (v : pyval) (t0 : R) (rest : list R) :
  src (vars s) = Some v ->
  tradeoff (vars s) = t0 :: rest ->
  let o := MCD.train_batch O (td, tl) s in
  let src_c := source_of O (clock s) v (td, tl) in
  result o = Ok tt
  /\ emitted o
     = snd src_c ++ mcd_iteration O (snd (fst src_c)) (fst (fst src_c)) td t0.
Proof.
  destruct s as [[] c [sr ba be ea el tf]].
  cbn [vars src tradeoff]. intros -> ->.
  cbv beta iota zeta delta
    [source_of mcd_iteration mcd_step1 mcd_step2 mcd_step3 mcd_step3_times
     Nat.add].
  destruct v; run_monad; split; reflexivity.
Qed.

(** C4: a training iteration of the MCD strategy that finds [src] and
    [tradeoff[0]] bound runs step 1, then step 2, then step 3 four times, in
    this order and nothing else after the source batch is fetched: the
    optimizers that step are G and C (step 1), C (step 2), then G four times
    (step 3), and there are six backward passes. *)
Theorem mcd_iteration_is_three_ordered_steps (O : Oracle) (td : tensor)
  (tl : labels) (s : state MCD.Trainset) (v : pyval) (t0 : R)
  (rest : list R) :
  src (vars s) = Some v ->
  tradeoff (vars s) = t0 :: rest ->
  let o := MCD.train_batch O (td, tl) s in
  let fetched := source_of O (clock s) v (td, tl) in
  let source := fst (fst fetched) in
  let c := snd (fst fetched) in
  result o = Ok tt
  /\ emitted o
     = snd fetched
       ++ mcd_step1 O c source td
       ++ mcd_step2 O (3 + c) source td t0
       ++ mcd_step3_times O 4 (6 + c) td t0
  /\ mcd_step3_times O 4 (6 + c) td t0
     = mcd_step3 O (6 + c) td t0 ++ mcd_step3 O (9 + c) td t0
       ++ mcd_step3 O (12 + c) td t0 ++ mcd_step3 O (15 + c) td t0
  /\ optimizer_steps (emitted o)
     = [optimizer_G; optimizer_C; optimizer_C;
        optimizer_G; optimizer_G; optimizer_G; optimizer_G]
  /\ count_backward (emitted o) = 6%nat.
Proof.
  intros Hs Ht o fetched source c.
  destruct (MCD_train_batch_run O td tl s Hs Ht) as [A B].
  fold o in A, B. fold fetched in B. fold source in B. fold c in B.
  destruct (source_of_quiet O (clock s) v (td, tl)) as [Q1 Q2].
  fold fetched in Q1, Q2.
  split; [exact A|]. split; [exact B|].
  split; [cbn [mcd_step3_times]; rewrite app_nil_r; reflexivity|].
  rewrite B. split.
  - rewrite optimizer_steps_app, Q1. reflexivity.
  - rewrite count_backward_app, Q2. reflexivity.
Qed.

Lemma mcd_iteration_witness :
  result (MCD.train_batch example_oracle (tiny_batch, tiny_labels)
            (mid_training tt)) = Ok tt
  /\ count_backward
       (emitted (MCD.train_batch example_oracle (tiny_batch, tiny_labels)
                   (mid_training tt))) = 6%nat.
Proof.
  destruct (@mcd_iteration_is_three_ordered_steps example_oracle tiny_batch
              tiny_labels (mid_training tt) (PyStr "A") 1 [1])
    as (A & _ & _ & _ & B).
  - reflexivity.
  - reflexivity.
  - split; [exact A|exact B].
Defined.

(** *** The dispatch on [train_mode] *)

Lemma range2_first (m : nat) : range2 1 (S m + 1) = 1%nat :: seq 2 m.
Proof. unfold range2. rewrite Nat.add_sub. reflexivity. Qed.

Ltac first_iteration :=
  unfold fails_in_first_iteration; run_monad;
  split; [reflexivity|];
  split;
    [match goal with E : max_epoch _ = _ |- _ => rewrite E end;
     simpl; tauto|];
  split; [reflexivity|]; split; reflexivity.

Lemma IRM_unknown_mode (O : Oracle) (args : Args) :
  unrecognised args -> max_epoch args <> 0%nat ->
  len_iters O "train" <> 0%nat ->
  fails_in_first_iteration O args (IRM.train O args IRM.init).
Proof.
  intros (N1 & N2 & N3 & N4) Hm Hn.
  apply String.eqb_neq in N1, N2, N3, N4.
  unfold IRM.train. rewrite N1, N2, N3, N4.
  destruct (max_epoch args) as [|m] eqn:Em; [congruence|].
  rewrite range2_first.
  cbn [for_each]. unfold IRM.run_epoch at 1. rewrite Em.
  cbn [for_each]. unfold IRM.run_phase at 1.
  change (String.eqb "train" "train") with true.
  change (String.eqb "train" "val") with false. cbv iota.
  destruct (len_iters O "train") as [|n] eqn:En; [congruence|].
  unfold range at 1. cbn [seq for_each].
  unfold _get_lr_scheduler, IRM.init, IRM.Trainset_init, no_locals,
    IRM._get_optimizer, IRM.set_optimizer.
  destruct (lr_scheduler_of O optimizer); first_iteration.
Qed.

Lemma MCD_unknown_mode (O : Oracle) (args : Args) :
  unrecognised args -> max_epoch args <> 0%nat ->
  len_iters O "train" <> 0%nat ->
  fails_in_first_iteration O args (MCD.train O args MCD.init).
Proof.
  intros (N1 & N2 & N3 & N4) Hm Hn.
  apply String.eqb_neq in N1, N2, N3, N4.
  unfold MCD.train. rewrite N1, N2, N3, N4.
  destruct (max_epoch args) as [|m] eqn:Em; [congruence|].
  rewrite range2_first.
  cbn [for_each]. unfold MCD.run_epoch at 1. rewrite Em.
  cbn [for_each]. unfold MCD.run_phase at 1.
  change (String.eqb "train" "train") with true.
  change (String.eqb "train" "val") with false. cbv iota.
  destruct (len_iters O "train") as [|n] eqn:En; [congruence|].
  unfold range at 1. cbn [seq for_each].
  unfold _get_lr_scheduler, MCD.init, no_locals.
  destruct (lr_scheduler_of O optimizer_G);
    destruct (lr_scheduler_of O optimizer_C); first_iteration.
Qed.

Lemma MDD_unknown_mode (O : Oracle) (args : Args) :
  unrecognised args -> max_epoch args <> 0%nat ->
  len_iters O "train" <> 0%nat ->
  fails_in_first_iteration O args (MDD.train O args MDD.init).
Proof.
  intros (N1 & N2 & N3 & N4) Hm Hn.
  apply String.eqb_neq in N1, N2, N3, N4.
  unfold MDD.train. rewrite N1, N2, N3, N4.
  destruct (max_epoch args) as [|m] eqn:Em; [congruence|].
  rewrite range2_first.
  cbn [for_each]. unfold MDD.run_epoch at 1. rewrite Em.
  cbn [for_each]. unfold MDD.run_phase at 1.
  change (String.eqb "train" "train") with true.
  change (String.eqb "train" "val") with false. cbv iota.
  destruct (len_iters O "train") as [|n] eqn:En; [congruence|].
  unfold range at 1. cbn [seq for_each].
  unfold _get_lr_scheduler, MDD.init, MDD.Trainset_init,
    MDD.GeneralModule_init, no_locals.
  destruct (lr_scheduler_of O optimizer); first_iteration.
Qed.

(** C2, the input on which the code departs from the spec: no branch of
    the dispatch names ['semi_supervised'], so nothing is raised at the
    start of [train]; the optimizer is built, the first epoch is announced,
    the first target batch is fetched, and the run stops in the first
    training iteration of epoch 1 with the [UnboundLocalError] of the read
    of [src], where the spec asks for an explicit error before any epoch. *)
Lemma unknown_train_mode_fails_mid_epoch :
  result (IRM.train example_oracle unknown_mode_args IRM.init)
  = Raise (UnboundLocalError "src")
  /\ emitted (IRM.train example_oracle unknown_mode_args IRM.init)
     = [EvInitData; EvGetOptimizer optimizer [model];
        EvGetLrScheduler optimizer; EvLogEpoch 1 1; EvTrainMode model true;
        EvGetTradeoff 1; EvTqdm 0;
        EvNextBatch (PyStr "train") tiny_batch tiny_labels]
  /\ result (MCD.train example_oracle unknown_mode_args MCD.init)
     = Raise (UnboundLocalError "src")
  /\ count_tqdm (emitted (MCD.train example_oracle unknown_mode_args
                            MCD.init)) = 1%nat
  /\ result (MDD.train example_oracle unknown_mode_args MDD.init)
     = Raise (UnboundLocalError "src")
  /\ count_tqdm (emitted (MDD.train example_oracle unknown_mode_args
                            MDD.init)) = 1%nat.
Proof. repeat split; reflexivity. Qed.

(** C2, what the dispatch of the code does: in the three strategies,
    [train_mode = 'multi_source'] raises the explicit exception right after
    [_init_data()], before an optimizer is built and before any epoch, as
    the spec asks; a value that no branch of the dispatch names raises
    nothing there, and here the code departs from the spec: when there is
    an epoch and a training batch, the run stops in the first training
    iteration with the [UnboundLocalError] of the read of [src]. *)
Theorem train_mode_dispatch (O : Oracle) (args : Args) :
  (train_mode args = "multi_source"%string ->
   refused IRM.init (IRM.train O args IRM.init)
   /\ refused MCD.init (MCD.train O args MCD.init)
   /\ refused MDD.init (MDD.train O args MDD.init))
  /\ (unrecognised args -> max_epoch args <> 0%nat ->
      len_iters O "train" <> 0%nat ->
      fails_in_first_iteration O args (IRM.train O args IRM.init)
      /\ fails_in_first_iteration O args (MCD.train O args MCD.init)
      /\ fails_in_first_iteration O args (MDD.train O args MDD.init)).
Proof.
  split.
  - intros H. unfold refused, IRM.train, MCD.train, MDD.train.
    rewrite H. repeat split; reflexivity.
  - intros Hu Hm Hn. split; [|split].
    + apply IRM_unknown_mode; assumption.
    + apply MCD_unknown_mode; assumption.
    + apply MDD_unknown_mode; assumption.
Qed.

Lemma train_mode_dispatch_witness :
  refused IRM.init (IRM.train example_oracle multi_source_args IRM.init)
  /\ fails_in_first_iteration example_oracle unknown_mode_args
       (MDD.train example_oracle unknown_mode_args MDD.init).
Proof.
  destruct (train_mode_dispatch example_oracle multi_source_args)
    as [A _].
  destruct (train_mode_dispatch example_oracle unknown_mode_args)
    as [_ B].
  split.
  - apply A. reflexivity.
  - apply B.
    + repeat split; discriminate.
    + simpl. discriminate.
    + simpl. discriminate.
Defined.

(** *** The metrics a phase reports *)

(** The trace of a training phase of the MCD strategy over two batches. *)
Ltac run_two_batch :=
  unfold MCD.run_phase;
  change (String.eqb "train" "train") with true;
  change (String.eqb "train" "val") with false; cbv iota;
  cbv beta iota zeta delta
    [mid_training two_batch_oracle tiny_labels len_iters next_batch
     net_forward get_accuracy tradeoff_at MCD.log_losses log_accs keys
     dict_add dict_get String.eqb Ascii.eqb Bool.eqb Nat.ltb Nat.leb Nat.eqb
     hd
     bind ret raise emit get_self put_self get_vars put_vars tick
     for_each range seq index nth_error set_src set_best set_epoch_acc
     set_epoch_loss set_tradeoff read_src read_tradeoff acc_add loss_add
     acc_lookup _init_data _get_tradeoff get_next_batch call zero_grad step
     backward set_mode source_batch
     not_None result final emitted self clock vars src best_acc best_epoch
     epoch_acc epoch_loss tradeoff chunk2 app fst snd map
     MCD.train_batch MCD.minimize_discrepancy In].

Lemma two_batch_phase_returns :
  result (MCD.run_phase two_batch_oracle 1 "train" (mid_training tt)) = Ok tt.
Proof. run_two_batch. reflexivity. Qed.

(** The accuracy of the first classifier is [1] in the first iteration and
    [1 / 2] in the second: the line of the log holds their sum over 2. *)
Lemma two_batch_phase_logs :
  In (EvLogAcc "train" "Classifier 1 source train" ((0 + 1 + 1 / 2) / INR 2))
     (emitted (MCD.run_phase two_batch_oracle 1 "train" (mid_training tt))).
Proof. run_two_batch. repeat first [left; reflexivity | right]. Qed.

(** The eight additions of step 3, four in each iteration, and the line of
    their sum over 2. *)
Lemma two_batch_phase_step3 :
  let d := MCD.classifier_discrepancy (F.softmax tiny_batch)
             (F.softmax tiny_batch) in
  In (EvAccum epoch_loss_dict "Step 3: Minimize discrepancy" d)
     (emitted (MCD.run_phase two_batch_oracle 1 "train" (mid_training tt)))
  /\ In (EvLogLoss "train" "Step 3: Minimize discrepancy"
           ((0 + d + d + d + d + d + d + d + d) / (1 * INR 2)))
       (emitted (MCD.run_phase two_batch_oracle 1 "train" (mid_training tt))).
Proof.
  cbv zeta. split; run_two_batch; repeat first [left; reflexivity | right].
Qed.

(** C9: in the three strategies, whatever the state a phase starts from,
    every line ['<phase>-Loss ..'] and ['<phase>-Acc ..'] of the phase
    carries the sum of what the iterations of the phase added to that
    metric, divided by [num_iter = len(self.iters[phase])], and a phase that
    reports or returns has made [num_iter] iterations.  A phase that returns
    reports every metric: each key of [epoch_acc] an iteration added to has
    its line ['<phase>-Acc ..'] and, in the training phase, each key of
    [epoch_loss] its line ['<phase>-Loss ..'], with that sum over
    [num_iter]; a validation phase writes no line of a loss. *)
Theorem reported_metrics_are_phase_means (O : Oracle) (epoch : nat)
  (phase : string) :
  let n := len_iters O phase in
  (forall s,
     let o := IRM.run_phase O epoch phase s in
     reported_ok n phase (emitted o)
     /\ (result o = Ok tt -> count_tqdm (emitted o) = n)
     /\ (result o = Ok tt -> reports_all n phase (emitted o)))
  /\ (forall s,
        let o := MCD.run_phase O epoch phase s in
        reported_ok n phase (emitted o)
        /\ (result o = Ok tt -> count_tqdm (emitted o) = n)
        /\ (result o = Ok tt -> reports_all n phase (emitted o)))
  /\ (forall s,
        let o := MDD.run_phase O epoch phase s in
        reported_ok n phase (emitted o)
        /\ (result o = Ok tt -> count_tqdm (emitted o) = n)
        /\ (result o = Ok tt -> reports_all n phase (emitted o))).
Proof.
  intros n. split; [|split]; intros s.
  - rewrite (IRM_run_phase_eq O false).
    destruct (phase_reported O (IRM_pieces_ok O false) epoch phase s)
      as [A B].
    split; [exact A|]. split; [exact B|].
    apply (run_phase_reports_all O (IRM_pieces_ok O false)
             IRM_log_losses_report).
  - rewrite (MCD_run_phase_eq O false false).
    destruct (phase_reported O (MCD_pieces_ok O false false) epoch phase s)
      as [A B].
    split; [exact A|]. split; [exact B|].
    apply (run_phase_reports_all O (MCD_pieces_ok O false false)
             MCD_log_losses_report).
  - rewrite (MDD_run_phase_eq O false).
    destruct (phase_reported O (MDD_pieces_ok O false) epoch phase s)
      as [A B].
    split; [exact A|]. split; [exact B|].
    apply (run_phase_reports_all O (MDD_pieces_ok O false)
             MDD_log_losses_report).
Qed.

Lemma reported_metrics_witness :
  (0 + 1 + 1 / 2) / INR 2
  = sum_accum epoch_acc_dict "Classifier 1 source train"
      (emitted (MCD.run_phase two_batch_oracle 1 "train" (mid_training tt)))
    / INR 2
  /\ count_tqdm
       (emitted (MCD.run_phase two_batch_oracle 1 "train" (mid_training tt)))
     = 2%nat
  /\ In (EvLogLoss "train" "Step 3: Minimize discrepancy"
           (sum_accum epoch_loss_dict "Step 3: Minimize discrepancy"
              (emitted (MCD.run_phase two_batch_oracle 1 "train"
                          (mid_training tt)))
            / INR 2))
       (emitted (MCD.run_phase two_batch_oracle 1 "train" (mid_training tt))).
Proof.
  destruct (reported_metrics_are_phase_means two_batch_oracle 1 "train")
    as (_ & H & _).
  destruct (H (mid_training tt)) as (Hr & _ & Ha).
  destruct (Hr _ two_batch_phase_logs) as (_ & Hv & Hc).
  destruct (Ha two_batch_phase_returns) as (_ & Hl & _).
  destruct two_batch_phase_step3 as [Hs _].
  split; [exact Hv|]. split; [exact Hc|].
  exact (Hl eq_refl _ _ Hs).
Defined.

(** *** The record of the best model *)

Lemma record_laws_of_record_ok {Self A : Type} (o : outcome Self A) :
  record_ok o -> record_laws o.
Proof.
  intros [B L]. unfold record_laws. cbv zeta.
  split; [exact B|]. split; [exact L|].
  split; [rewrite L; apply best_trace_bounds|].
  rewrite B. unfold best_record.
  split; [apply best_from_ge|].
  destruct (best_from_latest (val_accs (emitted o)) (0, 0%nat) 1)
    as [[E F]|(pre & a & post & E1 & E2 & _ & E4 & E5)].
  - left. split; assumption.
  - right. exists pre, a, post. repeat split; assumption.
Qed.

Lemma record_step_of_phase {Self : Type} (O : Oracle)
  (P : Orchestration.Pieces Self) (HP : PiecesOk P) (epoch : nat)
  (phase : string) (s : state Self) :
  phase = "train"%string \/ phase = "val"%string ->
  record_step epoch phase s (Orchestration.run_phase O P epoch phase s).
Proof.
  intros Hp.
  destruct (phase_best O HP epoch s Hp) as (_ & B & _ & L & T & _).
  unfold record_step. cbv zeta. split.
  - intros E. rewrite B, (T E). reflexivity.
  - intros _. rewrite B.
    destruct (val_accs (emitted (Orchestration.run_phase O P epoch phase s)))
      as [|a [|a' r]].
    + left. split; reflexivity.
    + right. exists a. split; reflexivity.
    + simpl in L. lia.
Qed.

Lemma best_record_tie : best_record [1 / 2; 1 / 2] = (1 / 2, 2%nat).
Proof.
  unfold best_record. cbn [best_from]. unfold update_best. cbn [fst].
  destruct (Rge_dec (1 / 2) 0) as [H|H]; [|lra]. cbn [fst].
  destruct (Rge_dec (1 / 2) (1 / 2)) as [H'|H']; [reflexivity|lra].
Qed.

(** C3: in the three strategies the record [(best_acc, best_epoch)] at the
    end of a run is the one the comparison [new_acc >= best_acc] builds from
    the validation accuracies of the epochs; a training phase leaves it as
    it is and a validation phase changes it at its end only, by that
    comparison; a validation iteration leaves it as it is; the best accuracy
    logged never decreases; and among the epochs that reach the highest
    accuracy the record names the latest: two epochs at [0.5] give
    [(0.5, 2)]. *)
Theorem best_record_is_latest_maximum (O : Oracle) (args : Args) :
  (record_laws (IRM.train O args IRM.init)
   /\ record_laws (MCD.train O args MCD.init)
   /\ record_laws (MDD.train O args MDD.init))
  /\ (forall epoch phase,
        phase = "train"%string \/ phase = "val"%string ->
        (forall s, record_step epoch phase s (IRM.run_phase O epoch phase s))
        /\ (forall s,
              record_step epoch phase s (MCD.run_phase O epoch phase s))
        /\ (forall s,
              record_step epoch phase s (MDD.run_phase O epoch phase s)))
  /\ (forall t,
        (forall s, best_of (vars (final (IRM.val_batch O t s)))
                   = best_of (vars s))
        /\ (forall s, best_of (vars (final (MCD.val_batch O t s)))
                      = best_of (vars s))
        /\ (forall s, best_of (vars (final (MDD.val_batch O t s)))
                      = best_of (vars s)))
  /\ (forall b epoch new_acc,
        (new_acc >= fst b -> update_best b epoch new_acc = (new_acc, epoch))
        /\ (new_acc < fst b -> update_best b epoch new_acc = b))
  /\ best_record [1 / 2; 1 / 2] = (1 / 2, 2%nat).
Proof.
  split; [|split; [|split; [|split]]].
  - split; [|split]; apply record_laws_of_record_ok.
    + apply IRM_train_record.
    + apply MCD_train_record.
    + apply MDD_train_record.
  - intros epoch phase Hp. split; [|split]; intros s.
    + rewrite (IRM_run_phase_eq O false).
      apply (record_step_of_phase O (IRM_pieces_ok O false)). exact Hp.
    + rewrite (MCD_run_phase_eq O false false).
      apply (record_step_of_phase O (MCD_pieces_ok O false false)). exact Hp.
    + rewrite (MDD_run_phase_eq O false).
      apply (record_step_of_phase O (MDD_pieces_ok O false)). exact Hp.
  - intros t. split; [|split]; intros s; unfold best_of.
    + destruct (IRM_val_batch_frame O t s) as (_ & A & B & _).
      rewrite A, B. reflexivity.
    + destruct (MCD_val_batch_frame O t s) as (_ & A & B & _).
      rewrite A, B. reflexivity.
    + destruct (MDD_val_batch_frame O t s) as (_ & A & B & _).
      rewrite A, B. reflexivity.
  - intros b epoch new_acc. unfold update_best.
    destruct (Rge_dec new_acc (fst b)) as [H|H]; split; intros H';
      try reflexivity; lra.
  - apply best_record_tie.
Qed.
